(** * CLISend: a TCP file-sharing server

    Shallow embedding of [protocol.py], [workers/reader.py],
    [workers/writer.py], [workers/logger.py], of the session code of
    [server.py] ([send_to_worker], [poll_response_queues], [log_event],
    [handle_client]) and of the command loop of [client.py], with the
    properties of the specification proved or refuted on it, and further
    properties of the code.

    Conventions of the embedding.
    - A Python [str] is a [string] whose characters are read as the code
      points U+0000..U+00FF; text with code points beyond U+00FF lies
      outside the model.
    - A Python [bytes] object is a [list ascii].
    - A value obtained from [json.loads] is a [json] (numbers are
      integers); a [dict] is an association list in insertion order with
      pairwise distinct keys.
    - The file system has directories and regular files only (no symbolic
      links, no permissions); it is a finite map from the list of the
      components of an absolute path to a node.
    - A function that can raise returns a [Py.result]; a function that
      changes the file system returns the new one.
    - A connection is the stream of bytes its peer sends before closing;
      what is written to it is collected in order.  What the programs
      print or log as text is left out.
    - One session of the server is followed at a time, [send_to_worker]
      being the call of the worker's turn; the table of the requests in
      flight is modelled on its own ([Pending]), without the event loop
      and its timeouts.  The audit store is the list of the rows inserted
      ([Logger]). *)

From Stdlib Require Import ZArith Ascii String List Lia Bool.
From Stdlib Require Import DecimalString DecimalZ DecimalN DecimalPos DecimalFacts.
From stdpp Require Import base option list strings gmap sorting.

Local Open Scope string_scope.
Local Open Scope list_scope.
Local Open Scope Z_scope.

Abbreviation bytes := (list ascii).

(** ** Text and byte helpers *)

Module Text.

Definition code (c : ascii) : Z := Z.of_N (N_of_ascii c).
Definition chr (z : Z) : ascii := ascii_of_N (Z.to_N z).

(** [s.startswith(p)] *)
Fixpoint startswith (s p : string) {struct p} : bool :=
  match p with
  | EmptyString => true
  | String a p' =>
    match s with
    | EmptyString => false
    | String b s' => if Ascii.eqb a b then startswith s' p' else false
    end
  end.

(** [s.endswith("/")] *)
Fixpoint endswith_slash (s : string) : bool :=
  match s with
  | EmptyString => false
  | String c EmptyString => Ascii.eqb c "/"
  | String _ s' => endswith_slash s'
  end.

(** [s.lstrip("/")] *)
Fixpoint lstrip_slash (s : string) : string :=
  match s with
  | String "/" s' => lstrip_slash s'
  | _ => s
  end.

(** [s.split("/")] *)
Fixpoint split_slash (s : string) : list string :=
  match s with
  | EmptyString => [EmptyString]
  | String c s' =>
    if Ascii.eqb c "/" then EmptyString :: split_slash s'
    else match split_slash s' with
         | [] => [String c EmptyString]
         | w :: ws => String c w :: ws
         end
  end.

(** ["/".join(l)] *)
Fixpoint join_slash (l : list string) : string :=
  match l with
  | [] => EmptyString
  | [w] => w
  | w :: ws => w +:+ "/" +:+ join_slash ws
  end.

(** [str.upper] on U+0000..U+00FF: the ASCII letters, the letters
    U+00E0..U+00FE other than the division sign, and the sharp s, which
    becomes two characters.  The capitals of U+00B5 and U+00FF lie beyond
    U+00FF; the model leaves these two characters as they are. *)
Definition upper_char (c : ascii) : string :=
  let n := code c in
  if (97 <=? n) && (n <=? 122) then String (chr (n - 32)) EmptyString
  else if n =? 223 then "SS"
  else if (224 <=? n) && (n <=? 254) && negb (n =? 247)
       then String (chr (n - 32)) EmptyString
  else String c EmptyString.

Fixpoint upper (s : string) : string :=
  match s with
  | EmptyString => EmptyString
  | String c s' => upper_char c +:+ upper s'
  end.

(** [str(n)] for an integer *)
Definition str_of_Z (z : Z) : string := NilZero.string_of_int (Z.to_int z).

(** [s.encode("utf-8")] *)
Fixpoint encode_utf8 (s : string) : bytes :=
  match s with
  | EmptyString => []
  | String c s' =>
    let n := code c in
    if n <? 128 then c :: encode_utf8 s'
    else chr (192 + n / 64) :: chr (128 + n mod 64) :: encode_utf8 s'
  end.

(** [b.decode("utf-8")]; [None] when the bytes are not UTF-8 or encode a
    code point beyond U+00FF. *)
Fixpoint decode_utf8 (b : bytes) : option string :=
  match b with
  | [] => Some EmptyString
  | c :: b' =>
    let n := code c in
    if n <? 128 then String c <$> decode_utf8 b'
    else if (n =? 194) || (n =? 195) then
      match b' with
      | d :: b'' =>
        let m := code d in
        if (128 <=? m) && (m <? 192)
        then String (chr ((n - 192) * 64 + (m - 128))) <$> decode_utf8 b''
        else None
      | [] => None
      end
    else None
  end.

End Text.

(** ** JSON values and the [json] module *)

Unset Elimination Schemes.
Inductive json : Type :=
| JNull
| JBool (b : bool)
| JInt (z : Z)
| JStr (s : string)
| JArr (l : list json)
| JObj (d : list (string * json)).
Set Elimination Schemes.

Section JsonInd.
Variable P : json -> Prop.
Hypothesis Hnull : P JNull.
Hypothesis Hbool : forall b, P (JBool b).
Hypothesis Hint : forall z, P (JInt z).
Hypothesis Hstr : forall s, P (JStr s).
Hypothesis Harr : forall l, Forall P l -> P (JArr l).
Hypothesis Hobj : forall d, Forall (fun kv => P (snd kv)) d -> P (JObj d).

Fixpoint json_ind (v : json) : P v :=
  match v with
  | JNull => Hnull
  | JBool b => Hbool b
  | JInt z => Hint z
  | JStr s => Hstr s
  | JArr l =>
    Harr l ((fix go (l : list json) : Forall P l :=
               match l with
               | [] => List.Forall_nil P
               | x :: l' => List.Forall_cons P x l' (json_ind x) (go l')
               end) l)
  | JObj d =>
    Hobj d ((fix go (d : list (string * json)) : Forall (fun kv => P (snd kv)) d :=
               match d with
               | [] => List.Forall_nil _
               | kv :: d' => List.Forall_cons _ kv d' (json_ind (snd kv)) (go d')
               end) d)
  end.
End JsonInd.

Module Dict.

(** [d.get(k)] *)
Fixpoint get (k : string) (d : list (string * json)) : option json :=
  match d with
  | [] => None
  | (k', v) :: d' => if String.eqb k k' then Some v else get k d'
  end.

(** [k in d] *)
Definition mem (k : string) (d : list (string * json)) : bool :=
  match get k d with Some _ => true | None => false end.

(** [d[k] = v]: an existing key keeps its position *)
Fixpoint set (k : string) (v : json) (d : list (string * json))
  : list (string * json) :=
  match d with
  | [] => [(k, v)]
  | (k', v') :: d' =>
    if String.eqb k k' then (k, v) :: d' else (k', v') :: set k v d'
  end.

(** [dict(pairs)] *)
Definition of_pairs (ps : list (string * json)) : list (string * json) :=
  fold_left (fun d kv => set (fst kv) (snd kv) d) ps [].

End Dict.

(** The values a Python program can hold in this model: every [dict] has
    pairwise distinct keys. *)
Fixpoint wf_json (v : json) : Prop :=
  match v with
  | JArr l => (fix go (l : list json) : Prop :=
                 match l with [] => True | x :: l' => wf_json x /\ go l' end) l
  | JObj d => NoDup (map fst d) /\
              (fix go (d : list (string * json)) : Prop :=
                 match d with [] => True | kv :: d' => wf_json (snd kv) /\ go d' end) d
  | _ => True
  end.

Module Json.

Definition dquote : ascii := Text.chr 34.
Definition bslash : ascii := Text.chr 92.

(** *** [json.dumps] (default options: [ensure_ascii], separators [", "]
    and [": "]) *)

Definition hex_digit (n : Z) : ascii :=
  if n <? 10 then Text.chr (48 + n) else Text.chr (87 + n).

(** One character of a string literal: the short escapes, the printable
    ASCII characters as they are, [\u00xx] for everything else. *)
Definition escape_char (c : ascii) : string :=
  let n := Text.code c in
  if n =? 34 then String bslash (String dquote EmptyString)
  else if n =? 92 then String bslash (String bslash EmptyString)
  else if n =? 10 then String bslash "n"
  else if n =? 13 then String bslash "r"
  else if n =? 9 then String bslash "t"
  else if n =? 8 then String bslash "b"
  else if n =? 12 then String bslash "f"
  else if (32 <=? n) && (n <=? 126) then String c EmptyString
  else String bslash
         (String "u" (String "0" (String "0"
            (String (hex_digit (n / 16)) (String (hex_digit (n mod 16)) EmptyString))))).

Fixpoint escape (s : string) : string :=
  match s with
  | EmptyString => EmptyString
  | String c s' => escape_char c +:+ escape s'
  end.

Definition quote (s : string) : string :=
  String dquote (escape s +:+ String dquote EmptyString).

Fixpoint dumps (v : json) : string :=
  match v with
  | JNull => "null"
  | JBool true => "true"
  | JBool false => "false"
  | JInt z => Text.str_of_Z z
  | JStr s => quote s
  | JArr l =>
    "[" +:+
    (fix elems (l : list json) : string :=
       match l with
       | [] => EmptyString
       | x :: l' =>
         match l' with
         | [] => dumps x
         | _ => dumps x +:+ ", " +:+ elems l'
         end
       end) l +:+ "]"
  | JObj d =>
    "{" +:+
    (fix members (d : list (string * json)) : string :=
       match d with
       | [] => EmptyString
       | kv :: d' =>
         match d' with
         | [] => quote (fst kv) +:+ ": " +:+ dumps (snd kv)
         | _ => quote (fst kv) +:+ ": " +:+ dumps (snd kv) +:+ ", " +:+ members d'
         end
       end) d +:+ "}"
  end.

(** *** [json.loads] *)

Definition is_ws (c : ascii) : bool :=
  let n := Text.code c in (n =? 32) || (n =? 9) || (n =? 10) || (n =? 13).

Fixpoint skip_ws (s : string) : string :=
  match s with
  | String c s' => if is_ws c then skip_ws s' else s
  | EmptyString => EmptyString
  end.

Definition hex_val (c : ascii) : option Z :=
  let n := Text.code c in
  if (48 <=? n) && (n <=? 57) then Some (n - 48)
  else if (97 <=? n) && (n <=? 102) then Some (n - 87)
  else if (65 <=? n) && (n <=? 70) then Some (n - 55)
  else None.

Definition hex4 (a b c d : ascii) : option Z :=
  x ← hex_val a; y ← hex_val b; z ← hex_val c; w ← hex_val d;
  Some (((x * 16 + y) * 16 + z) * 16 + w).

Definition unescape (e : ascii) : option ascii :=
  let n := Text.code e in
  if n =? 34 then Some dquote
  else if n =? 92 then Some bslash
  else if n =? 47 then Some "/"%char
  else if n =? 98 then Some (Text.chr 8)
  else if n =? 102 then Some (Text.chr 12)
  else if n =? 110 then Some (Text.chr 10)
  else if n =? 114 then Some (Text.chr 13)
  else if n =? 116 then Some (Text.chr 9)
  else None.

Definition prepend (c : ascii) (p : string * string) : string * string :=
  (String c (fst p), snd p).

(** The body of a string literal, after the opening quote, up to and
    including the closing quote (strict mode: no raw control character).
    An escape that names a code point beyond U+00FF is outside the
    model. *)
Fixpoint parse_str (s : string) : option (string * string) :=
  match s with
  | EmptyString => None
  | String c s' =>
    if Ascii.eqb c dquote then Some (EmptyString, s')
    else if Ascii.eqb c bslash then
      match s' with
      | EmptyString => None
      | String e s'' =>
        if Ascii.eqb e "u" then
          match s'' with
          | String h1 (String h2 (String h3 (String h4 s3))) =>
            match hex4 h1 h2 h3 h4 with
            | Some n => if n <? 256 then prepend (Text.chr n) <$> parse_str s3 else None
            | None => None
            end
          | _ => None
          end
        else
          match unescape e with
          | Some x => prepend x <$> parse_str s''
          | None => None
          end
      end
    else if Text.code c <? 32 then None
    else prepend c <$> parse_str s'
  end.

Definition digit_of (c : ascii) : option (Decimal.uint -> Decimal.uint) :=
  match Text.code c - 48 with
  | 0 => Some Decimal.D0 | 1 => Some Decimal.D1 | 2 => Some Decimal.D2
  | 3 => Some Decimal.D3 | 4 => Some Decimal.D4 | 5 => Some Decimal.D5
  | 6 => Some Decimal.D6 | 7 => Some Decimal.D7 | 8 => Some Decimal.D8
  | 9 => Some Decimal.D9 | _ => None
  end.

Fixpoint scan_digits (s : string) : Decimal.uint * string :=
  match s with
  | EmptyString => (Decimal.Nil, EmptyString)
  | String c s' =>
    match digit_of c with
    | Some D => let p := scan_digits s' in (D (fst p), snd p)
    | None => (Decimal.Nil, s)
    end
  end.

(** After the digits of an integer: a fraction or an exponent would make
    the number a float, which is outside the model. *)
Definition float_tail (s : string) : bool :=
  match s with
  | String c _ =>
    let n := Text.code c in (n =? 46) || (n =? 101) || (n =? 69)
  | EmptyString => false
  end.

(** An unsigned integer literal: ["0"] or digits without a leading zero. *)
Definition parse_nat (s : string) : option (Z * string) :=
  let p := scan_digits s in
  match fst p with
  | Decimal.Nil => None
  | Decimal.D0 (Decimal.D0 _ | Decimal.D1 _ | Decimal.D2 _ | Decimal.D3 _
               | Decimal.D4 _ | Decimal.D5 _ | Decimal.D6 _ | Decimal.D7 _
               | Decimal.D8 _ | Decimal.D9 _) => None
  | d => if float_tail (snd p) then None else Some (Z.of_uint d, snd p)
  end.

Fixpoint parse_value (f : nat) (s : string) {struct f} : option (json * string) :=
  match f with
  | O => None
  | S f' =>
    match s with
    | EmptyString => None
    | String c s' =>
      if Ascii.eqb c dquote then
        p ← parse_str s'; Some (JStr (fst p), snd p)
      else if Ascii.eqb c "[" then
        match skip_ws s' with
        | EmptyString => None
        | String c1 r as s1 =>
          if Ascii.eqb c1 "]" then Some (JArr [], r)
          else p ← parse_elems f' s1; Some (JArr (fst p), snd p)
        end
      else if Ascii.eqb c "{" then
        match skip_ws s' with
        | EmptyString => None
        | String c1 r as s1 =>
          if Ascii.eqb c1 "}" then Some (JObj [], r)
          else p ← parse_members f' s1; Some (JObj (Dict.of_pairs (fst p)), snd p)
        end
      else if Ascii.eqb c "-" then
        p ← parse_nat s'; Some (JInt (- fst p), snd p)
      else
        match s with
        | String "n" (String "u" (String "l" (String "l" r))) => Some (JNull, r)
        | String "t" (String "r" (String "u" (String "e" r))) => Some (JBool true, r)
        | String "f" (String "a" (String "l" (String "s" (String "e" r)))) =>
          Some (JBool false, r)
        | _ => p ← parse_nat s; Some (JInt (fst p), snd p)
        end
    end
  end
with parse_elems (f : nat) (s : string) {struct f} : option (list json * string) :=
  match f with
  | O => None
  | S f' =>
    p ← parse_value f' s;
    match skip_ws (snd p) with
    | String "]" r => Some ([fst p], r)
    | String "," r => q ← parse_elems f' (skip_ws r); Some (fst p :: fst q, snd q)
    | _ => None
    end
  end
with parse_members (f : nat) (s : string) {struct f}
  : option (list (string * json) * string) :=
  match f with
  | O => None
  | S f' =>
    match s with
    | EmptyString => None
    | String c s' =>
      if Ascii.eqb c dquote then
        k ← parse_str s';
        match skip_ws (snd k) with
        | String ":" r1 =>
          p ← parse_value f' (skip_ws r1);
          match skip_ws (snd p) with
          | String "}" r => Some ([(fst k, fst p)], r)
          | String "," r =>
            q ← parse_members f' (skip_ws r);
            Some ((fst k, fst p) :: fst q, snd q)
          | _ => None
          end
        | _ => None
        end
      else None
    end
  end.

(** [json.loads(s)]; [None] stands for a [JSONDecodeError] (or for a text
    whose value is outside the model: a float, a code point beyond U+00FF).
    Two nested calls of the parser consume at least one character, so the
    fuel is enough for every text. *)
Definition loads (s : string) : option json :=
  p ← parse_value (2 * String.length s + 2) (skip_ws s);
  match skip_ws (snd p) with
  | EmptyString => Some (fst p)
  | _ => None
  end.

End Json.

(** ** Auxiliary notions for the round trip of the JSON codec *)

(** The texts after which an integer literal ends. *)
Definition num_end (r : string) : bool :=
  match r with
  | EmptyString => true
  | String c _ =>
    match Json.digit_of c with Some _ => false | None => negb (Json.float_tail r) end
  end.

Definition is_digit (c : ascii) : bool :=
  match Json.digit_of c with Some _ => true | None => false end.

(** The first character of a printed value. *)
Definition value_start (c : ascii) : bool :=
  negb (Json.is_ws c) && negb (Ascii.eqb c "]") && negb (Ascii.eqb c "}").

(** The comma-separated bodies printed by [dumps], as named functions. *)
Definition dumps_elems : list json -> string :=
  fix elems (l : list json) : string :=
    match l with
    | [] => EmptyString
    | x :: l' =>
      match l' with
      | [] => Json.dumps x
      | _ => Json.dumps x +:+ ", " +:+ elems l'
      end
    end.

Definition dumps_members : list (string * json) -> string :=
  fix members (d : list (string * json)) : string :=
    match d with
    | [] => EmptyString
    | kv :: d' =>
      match d' with
      | [] => Json.quote (fst kv) +:+ ": " +:+ Json.dumps (snd kv)
      | _ => Json.quote (fst kv) +:+ ": " +:+ Json.dumps (snd kv) +:+ ", " +:+ members d'
      end
    end.

(** [v] is read back from its text with any sufficient fuel, whatever
    follows the text. *)
Definition roundtrips (v : json) : Prop :=
  forall f r, (String.length (Json.dumps v) <= f)%nat -> num_end r = true ->
    Json.parse_value f (Json.dumps v +:+ r) = Some (v, r).

(** ** Wire codec ([protocol.py]) *)

Module Protocol.

Definition HEADER_SIZE : nat := 4.

(** [struct.pack("!I", n)]: four bytes, most significant first;
    [struct.error] ([None]) when [n] does not fit 32 bits. *)
Definition pack_u32 (n : Z) : option bytes :=
  if (0 <=? n) && (n <? 2 ^ 32) then
    Some [Text.chr (n / 2 ^ 24); Text.chr ((n / 2 ^ 16) mod 256);
          Text.chr ((n / 2 ^ 8) mod 256); Text.chr (n mod 256)]
  else None.

(** [struct.unpack("!I", raw)[0]] for a four-byte [raw] *)
Definition unpack_u32 (raw : bytes) : Z :=
  fold_left (fun acc c => acc * 256 + Text.code c) raw 0.

(** [send_message] / [async_send_message]: the bytes handed to the socket
    in one write, or [None] when [struct.pack] raises. *)
Definition send_message (msg : json) : option bytes :=
  let payload := Text.encode_utf8 (Json.dumps msg) in
  header ← pack_u32 (Z.of_nat (length payload));
  Some (header ++ payload).

(** The byte stream of a connection: the bytes the peer sends before it
    closes.  [recv_exact] / [async_recv_exact] return the next [n] bytes,
    or [None] when the peer closes first (the sync loop sees an empty
    [recv], the async version catches [IncompleteReadError]); the second
    component is what is left of the stream. *)
Definition recv_exact (s : bytes) (n : nat) : option bytes * bytes :=
  if (n <=? length s)%nat then (Some (take n s), drop n s) else (None, []).

(** What [recv_message] / [async_recv_message] produce: [None], a decoded
    value, or an exception of [decode] or [json.loads]. *)
Inductive received : Type :=
| RecvNone
| RecvMsg (v : json)
| RecvRaise.

(** [if not raw]: [None] and the empty bytes object are both falsy. *)
Definition falsy (raw : option bytes) : bool :=
  match raw with
  | None | Some [] => true
  | Some (_ :: _) => false
  end.

Definition recv_message (s : bytes) : received * bytes :=
  let '(raw_header, s1) := recv_exact s HEADER_SIZE in
  if falsy raw_header then (RecvNone, s1)
  else
    let msg_len := unpack_u32 (default [] raw_header) in
    let '(raw_payload, s2) := recv_exact s1 (Z.to_nat msg_len) in
    if falsy raw_payload then (RecvNone, s2)
    else
      match Text.decode_utf8 (default [] raw_payload) ≫= Json.loads with
      | Some v => (RecvMsg v, s2)
      | None => (RecvRaise, s2)
      end.

(** A stream that ends inside a frame: after one, two or three bytes of
    the length, or before the announced payload is complete. *)
Definition truncated (s : bytes) : Prop :=
  (0 < length s < 4)%nat \/
  ((4 <= length s)%nat /\ Z.of_nat (length s) - 4 < unpack_u32 (take 4 s)).

End Protocol.

(** ** Paths ([os.path] on POSIX) *)

Module Posixpath.

(** [os.path.join(a, b)] *)
Definition join (a b : string) : string :=
  if Text.startswith b "/" then b
  else if String.eqb a EmptyString || Text.endswith_slash a then a +:+ b
  else a +:+ "/" +:+ b.

(** One turn of the loop of [normpath]; [acc] is [new_comps] with its last
    element first, [rooted] tells whether the path has initial slashes. *)
Definition norm_step (rooted : bool) (acc : list string) (comp : string)
  : list string :=
  if String.eqb comp EmptyString || String.eqb comp "." then acc
  else if negb (String.eqb comp "..")
          || (negb rooted && bool_decide (acc = []))
          || match acc with c :: _ => String.eqb c ".." | [] => false end
       then comp :: acc
  else match acc with _ :: acc' => acc' | [] => [] end.

Definition norm_comps (rooted : bool) (p : string) : list string :=
  rev (fold_left (norm_step rooted) (Text.split_slash p) []).

(** The number of initial slashes kept by [normpath]: two only when the
    path starts with exactly two. *)
Definition initial_slashes (p : string) : string :=
  if Text.startswith p "/" then
    if Text.startswith p "//" && negb (Text.startswith p "///") then "//" else "/"
  else EmptyString.

(** [os.path.normpath(p)] *)
Definition normpath (p : string) : string :=
  if String.eqb p EmptyString then "."
  else
    let ini := initial_slashes p in
    let path := ini +:+ Text.join_slash (norm_comps (negb (String.eqb ini EmptyString)) p) in
    if String.eqb path EmptyString then "." else path.

(** [p[:p.rfind("/") + 1]] *)
Fixpoint head_part (p : string) : string :=
  match p with
  | EmptyString => EmptyString
  | String c p' =>
    match head_part p' with
    | EmptyString => if Ascii.eqb c "/" then "/" else EmptyString
    | h => String c h
    end
  end.

(** [s == "/" * len(s)] *)
Fixpoint all_slashes (s : string) : bool :=
  match s with
  | EmptyString => true
  | String c s' => Ascii.eqb c "/" && all_slashes s'
  end.

(** [s.rstrip("/")] *)
Fixpoint rstrip_slash (s : string) : string :=
  match s with
  | EmptyString => EmptyString
  | String c s' =>
    match rstrip_slash s' with
    | EmptyString => if Ascii.eqb c "/" then EmptyString else String c EmptyString
    | r => String c r
    end
  end.

(** [os.path.dirname(p)] *)
Definition dirname (p : string) : string :=
  let head := head_part p in
  if negb (String.eqb head EmptyString) && negb (all_slashes head)
  then rstrip_slash head else head.

(** The components by which the system reaches an absolute path: empty
    and [.] components are skipped, [..] steps back (there are no
    symbolic links) and stays at the top directory. *)
Definition path_key (p : string) : list string := norm_comps true p.

(** [os.path.realpath(p)] for an absolute [p], in a file system without
    symbolic links. *)
Definition realpath (p : string) : string := "/" +:+ Text.join_slash (path_key p).

(** [os.path.abspath(p)] in the working directory [cwd] *)
Definition abspath (cwd p : string) : string := normpath (join cwd p).

(** The target of a request is the shared root or lies below it: the
    components of the root are the first components of the target. *)
Definition inside (root target : string) : Prop :=
  path_key root `prefix_of` path_key target.

End Posixpath.

(** ** Python values as text, exceptions *)

Module Py.

Definition squote : ascii := Text.chr 39.

(** [c.isprintable()] for U+0000..U+00FF *)
Definition printable (c : ascii) : bool :=
  let n := Text.code c in
  ((32 <=? n) && (n <=? 126)) || ((161 <=? n) && negb (n =? 173)).

Definition repr_char (q : ascii) (c : ascii) : string :=
  let n := Text.code c in
  if Ascii.eqb c q || (n =? 92) then String Json.bslash (String c EmptyString)
  else if n =? 9 then String Json.bslash "t"
  else if n =? 10 then String Json.bslash "n"
  else if n =? 13 then String Json.bslash "r"
  else if printable c then String c EmptyString
  else String Json.bslash
         (String "x" (String (Json.hex_digit (n / 16))
                        (String (Json.hex_digit (n mod 16)) EmptyString))).

Fixpoint has_char (q : ascii) (s : string) : bool :=
  match s with
  | EmptyString => false
  | String c s' => Ascii.eqb c q || has_char q s'
  end.

Fixpoint repr_body (q : ascii) (s : string) : string :=
  match s with
  | EmptyString => EmptyString
  | String c s' => repr_char q c +:+ repr_body q s'
  end.

(** [repr(s)] for a string: single quotes, unless the string has a single
    quote and no double quote. *)
Definition repr_str (s : string) : string :=
  let q := if has_char squote s && negb (has_char Json.dquote s)
           then Json.dquote else squote in
  String q (repr_body q s +:+ String q EmptyString).

(** [repr(v)] *)
Fixpoint repr (v : json) : string :=
  match v with
  | JNull => "None"
  | JBool true => "True"
  | JBool false => "False"
  | JInt z => Text.str_of_Z z
  | JStr s => repr_str s
  | JArr l =>
    "[" +:+
    (fix elems (l : list json) : string :=
       match l with
       | [] => EmptyString
       | x :: l' =>
         match l' with
         | [] => repr x
         | _ => repr x +:+ ", " +:+ elems l'
         end
       end) l +:+ "]"
  | JObj d =>
    "{" +:+
    (fix members (d : list (string * json)) : string :=
       match d with
       | [] => EmptyString
       | kv :: d' =>
         match d' with
         | [] => repr_str (fst kv) +:+ ": " +:+ repr (snd kv)
         | _ => repr_str (fst kv) +:+ ": " +:+ repr (snd kv) +:+ ", " +:+ members d'
         end
       end) d +:+ "}"
  end.

(** [str(v)], as an f-string interpolates it *)
Definition str (v : json) : string :=
  match v with
  | JStr s => s
  | _ => repr v
  end.

(** [type(v).__name__] *)
Definition type_name (v : json) : string :=
  match v with
  | JNull => "NoneType"
  | JBool _ => "bool"
  | JInt _ => "int"
  | JStr _ => "str"
  | JArr _ => "list"
  | JObj _ => "dict"
  end.

(** [bool(v)] *)
Definition truthy (v : json) : bool :=
  match v with
  | JNull | JBool false | JInt 0 | JStr EmptyString | JArr [] | JObj [] => false
  | _ => true
  end.

(** The exceptions the modelled code can meet.  [DecodeError] stands for
    the [UnicodeDecodeError] and [JSONDecodeError] of a payload that is not
    a JSON text; its message, which depends on the place of the error, is
    only logged and is given here for one case. *)
Inductive exn : Type :=
| FileNotFoundError (p : string)
| NotADirectoryError (p : string)
| IsADirectoryError (p : string)
| FileExistsError (p : string)
| OSError (msg : string)
| KeyError (k : string)
| AttributeError (ty attr : string)
| TypeError (msg : string)
| ValueError (msg : string)
| IncompleteReadError (partial expected : Z)
| DecodeError.

(** [str(e)] *)
Definition exn_str (e : exn) : string :=
  match e with
  | FileNotFoundError p => "[Errno 2] No such file or directory: " +:+ repr_str p
  | NotADirectoryError p => "[Errno 20] Not a directory: " +:+ repr_str p
  | IsADirectoryError p => "[Errno 21] Is a directory: " +:+ repr_str p
  | FileExistsError p => "[Errno 17] File exists: " +:+ repr_str p
  | OSError msg => msg
  | KeyError k => repr_str k
  | AttributeError ty attr =>
    repr_str ty +:+ " object has no attribute " +:+ repr_str attr
  | TypeError msg => msg
  | ValueError msg => msg
  | IncompleteReadError partial expected =>
    Text.str_of_Z partial +:+ " bytes read on a total of "
    +:+ Text.str_of_Z expected +:+ " expected bytes"
  | DecodeError => "Expecting value: line 1 column 1 (char 0)"
  end.

Inductive result (A : Type) : Type :=
| Ok (a : A)
| Raise (e : exn).
Arguments Ok {A} a.
Arguments Raise {A} e.

End Py.

(** ** The file system *)

Module Fs.

Inductive node : Type :=
| File (data : bytes)
| Dir.

#[export] Instance node_eq_dec : EqDecision node.
Proof. solve_decision. Defined.

(** A file system: the nodes, by the components of their absolute path.
    The top directory has the empty list of components. *)
Abbreviation t := (gmap (list string) node).

Definition key (p : string) : list string := Posixpath.path_key p.

(** [os.path.isdir], [os.path.isfile], [os.path.exists] *)
Definition isdir (fs : t) (p : string) : bool :=
  match fs !! key p with Some Dir => true | _ => false end.

Definition isfile (fs : t) (p : string) : bool :=
  match fs !! key p with Some (File _) => true | _ => false end.

Definition exists_ (fs : t) (p : string) : bool :=
  match fs !! key p with Some _ => true | None => false end.

(** The name under which [k] is an entry of the directory [d], if it is. *)
Definition child_name (d k : list string) : option string :=
  match reverse k with
  | n :: r => if decide (reverse r = d) then Some n else None
  | [] => None
  end.

(** [os.listdir(p)], in the order of the map *)
Definition listdir (fs : t) (p : string) : Py.result (list string) :=
  match fs !! key p with
  | Some Dir => Py.Ok (omap (fun kn => child_name (key p) (fst kn)) (map_to_list fs))
  | Some (File _) => Py.Raise (Py.NotADirectoryError p)
  | None => Py.Raise (Py.FileNotFoundError p)
  end.

(** The size reported for a directory; the workers never ask for it. *)
Definition dir_size : Z := 4096.

(** [os.path.getsize(p)] *)
Definition getsize (fs : t) (p : string) : Py.result Z :=
  match fs !! key p with
  | Some (File data) => Py.Ok (Z.of_nat (length data))
  | Some Dir => Py.Ok dir_size
  | None => Py.Raise (Py.FileNotFoundError p)
  end.

(** [with open(p, "rb") as f: f.read()] *)
Definition read_bytes (fs : t) (p : string) : Py.result bytes :=
  match fs !! key p with
  | Some (File data) => Py.Ok data
  | Some Dir => Py.Raise (Py.IsADirectoryError p)
  | None => Py.Raise (Py.FileNotFoundError p)
  end.

Definition parent (k : list string) : list string := removelast k.

(** [with open(p, "wb") as f: f.write(data)]: the file is created or
    truncated, in an existing directory. *)
Definition write_bytes (fs : t) (p : string) (data : bytes) : t * Py.result unit :=
  let k := key p in
  match fs !! k with
  | Some Dir => (fs, Py.Raise (Py.IsADirectoryError p))
  | _ =>
    if decide (k = []) then (fs, Py.Raise (Py.IsADirectoryError p))
    else
      match fs !! parent k with
      | Some Dir => (<[k := File data]> fs, Py.Ok tt)
      | Some (File _) => (fs, Py.Raise (Py.NotADirectoryError p))
      | None => (fs, Py.Raise (Py.FileNotFoundError p))
      end
  end.

(** The loop of [os.makedirs(p, exist_ok=True)] from the top directory
    down: [done] are the components already passed, last first. *)
Fixpoint mkdirs (fs : t) (done todo : list string) (p : string)
  : t * Py.result unit :=
  match todo with
  | [] => (fs, Py.Ok tt)
  | c :: todo' =>
    let k := rev (c :: done) in
    match fs !! k with
    | Some Dir => mkdirs fs (c :: done) todo' p
    | Some (File _) =>
      (fs, Py.Raise (match todo' with
                     | [] => Py.FileExistsError p
                     | _ => Py.NotADirectoryError p
                     end))
    | None => mkdirs (<[k := Dir]> fs) (c :: done) todo' p
    end
  end.

Definition makedirs (fs : t) (p : string) : t * Py.result unit :=
  mkdirs fs [] (key p) p.

(** [os.remove(p)] *)
Definition remove (fs : t) (p : string) : t * Py.result unit :=
  match fs !! key p with
  | Some (File _) => (delete (key p) fs, Py.Ok tt)
  | Some Dir => (fs, Py.Raise (Py.IsADirectoryError p))
  | None => (fs, Py.Raise (Py.FileNotFoundError p))
  end.

(** [shutil.rmtree(p)]: the directory goes with everything below it; the
    top directory itself cannot be removed. *)
Definition rmtree (fs : t) (p : string) : t * Py.result unit :=
  let k := key p in
  match fs !! k with
  | Some Dir =>
    match k with
    | [] => (filter (fun kn => fst kn = []) fs,
             Py.Raise (Py.OSError "[Errno 16] Device or resource busy: '/'"))
    | _ => (filter (fun kn => ~ k `prefix_of` fst kn) fs, Py.Ok tt)
    end
  | Some (File _) => (fs, Py.Raise (Py.NotADirectoryError p))
  | None => (fs, Py.Raise (Py.FileNotFoundError p))
  end.

(** [sorted(names)]: by code points *)
Definition str_le (a b : string) : Prop := String.leb a b = true.

#[export] Instance str_le_dec (a b : string) : Decision (str_le a b).
Proof. unfold str_le. solve_decision. Defined.

Definition sorted (names : list string) : list string := merge_sort str_le names.

End Fs.
(** ** File transfer ([protocol.py])

    A file object open for reading is what is left to read; one open for
    writing is what was written so far, which reaches the file system when
    the [with] block is left, normally or by an exception.  A loop is run
    on fuel; [None] says that the fuel did not suffice.  The progress
    callback only prints and is left out. *)

Module FileData.

(** [f.read(n)]: at most [n] bytes, everything when [n] is negative. *)
Definition read (rest : bytes) (n : Z) : bytes * bytes :=
  if n <? 0 then (rest, []) else (take (Z.to_nat n) rest, drop (Z.to_nat n) rest).

(** The loop of [send_file_data] and [async_send_file_data]: the chunks
    handed to the socket, one per turn. *)
Fixpoint send_loop (fuel : nat) (rest : bytes) (chunk_size : Z) : option (list bytes) :=
  match fuel with
  | O => None
  | S fuel' =>
    let '(chunk, rest') := read rest chunk_size in
    match chunk with
    | [] => Some []
    | _ :: _ => cons chunk <$> send_loop fuel' rest' chunk_size
    end
  end.

(** [send_file_data(sock, filepath, chunk_size)] *)
Definition send_file_data (fs : Fs.t) (filepath : string) (chunk_size : Z)
  : option (Py.result (list bytes)) :=
  match Fs.read_bytes fs filepath with
  | Py.Raise e => Some (Py.Raise e)
  | Py.Ok data => Py.Ok <$> send_loop (S (length data)) data chunk_size
  end.


(** How a receiving loop ends. *)
Inductive ending : Type :=
| Complete
| ConnectionError
| Raised (e : Py.exn).

(** The loop of [recv_file_data]: how it ends, what was written to the
    file and what is left of the stream. *)
Fixpoint recv_loop (fuel : nat) (s : bytes) (size received chunk_size : Z)
  (written : bytes) : option (ending * bytes * bytes) :=
  match fuel with
  | O => None
  | S fuel' =>
    if received <? size then
      let to_read := Z.min chunk_size (size - received) in
      let '(chunk, s') := Protocol.recv_exact s (Z.to_nat to_read) in
      if Protocol.falsy chunk then Some (ConnectionError, written, s')
      else
        let chunk := default [] chunk in
        recv_loop fuel' s' size (received + Z.of_nat (length chunk)) chunk_size
          (written ++ chunk)
    else Some (Complete, written, s)
  end.

(** [reader.readexactly(n)] on a stream *)
Definition readexactly (s : bytes) (n : Z) : Py.result bytes * bytes :=
  if n <? 0 then
    (Py.Raise (Py.ValueError "readexactly size can not be less than zero"), s)
  else
    match Protocol.recv_exact s (Z.to_nat n) with
    | (Some data, rest) => (Py.Ok data, rest)
    | (None, rest) => (Py.Raise (Py.IncompleteReadError (Z.of_nat (length s)) n), rest)
    end.

(** The loop of [async_recv_file_data]. *)
Fixpoint async_recv_loop (fuel : nat) (s : bytes) (size received chunk_size : Z)
  (written : bytes) : option (ending * bytes * bytes) :=
  match fuel with
  | O => None
  | S fuel' =>
    if received <? size then
      let to_read := Z.min chunk_size (size - received) in
      match readexactly s to_read with
      | (Py.Raise e, s') => Some (Raised e, written, s')
      | (Py.Ok chunk, s') =>
        async_recv_loop fuel' s' size (received + Z.of_nat (length chunk)) chunk_size
          (written ++ chunk)
      end
    else Some (Complete, written, s)
  end.

(** [recv_file_data(sock, size, filepath, chunk_size)]: the file is
    opened for writing, which creates or empties it, the loop runs, and the
    file is closed with what was written.  The result is the ending, the
    file system and the rest of the stream; nothing is read when the file
    cannot be opened. *)
Definition recv_file_data (s : bytes) (size : Z) (fs : Fs.t) (filepath : string)
  (chunk_size : Z) : option (ending * Fs.t * bytes) :=
  match Fs.write_bytes fs filepath [] with
  | (_, Py.Raise e) => Some (Raised e, fs, s)
  | (fs1, Py.Ok _) =>
    '(e, written, rest) ← recv_loop (S (Z.to_nat size)) s size 0 chunk_size [];
    Some (e, <[Fs.key filepath := Fs.File written]> fs1, rest)
  end.

(** [async_recv_file_data(reader, size, filepath, chunk_size)], run for
    [fuel] turns of its loop. *)
Definition async_recv_file_data (fuel : nat) (s : bytes) (size : Z) (fs : Fs.t)
  (filepath : string) (chunk_size : Z) : option (ending * Fs.t * bytes) :=
  match Fs.write_bytes fs filepath [] with
  | (_, Py.Raise e) => Some (Raised e, fs, s)
  | (fs1, Py.Ok _) =>
    '(e, written, rest) ← async_recv_loop fuel s size 0 chunk_size [];
    Some (e, <[Fs.key filepath := Fs.File written]> fs1, rest)
  end.

End FileData.


(** ** Requests and results exchanged with the workers *)

(** A request as [send_to_worker] puts it on a queue: a dict with the keys
    [id], [action], [path] and, for an upload, [data].  [action] is always
    a string (the callers write it as a literal), [path] is whatever value
    the client sent. *)
Record request : Type := {
  rq_id : option string;
  rq_action : option string;
  rq_path : option json;
  rq_data : option bytes
}.

(** The dict a worker answers with; an absent key is [None]. *)
Record wresult : Type := {
  w_status : string;
  w_message : option string;
  w_entries : option (list json);
  w_size : option Z;
  w_data : option bytes;
  w_path : option string;
  w_id : option string;
  w_action : option string
}.

Definition error_result (msg : string) : wresult :=
  {| w_status := "error"; w_message := Some msg; w_entries := None;
     w_size := None; w_data := None; w_path := None;
     w_id := None; w_action := None |}.

(** [result["id"] = req_id; result["action"] = action] *)
Definition stamp (req_id : option string) (action : string) (r : wresult) : wresult :=
  {| w_status := w_status r; w_message := w_message r; w_entries := w_entries r;
     w_size := w_size r; w_data := w_data r; w_path := w_path r;
     w_id := req_id; w_action := Some action |}.

(** [rel_path.lstrip("/")] on a value received as path *)
Definition lstrip_path (rel_path : json) : Py.result string :=
  match rel_path with
  | JStr s => Py.Ok (Text.lstrip_slash s)
  | v => Py.Raise (Py.AttributeError (Py.type_name v) "lstrip")
  end.

(** The test of all five operations:
    [os.path.realpath(target).startswith(os.path.realpath(shared_folder))] *)
Definition sandbox_ok (shared_folder target : string) : bool :=
  Text.startswith (Posixpath.realpath target) (Posixpath.realpath shared_folder).

Definition resolve (shared_folder rel_path : string) : string :=
  Posixpath.normpath (Posixpath.join shared_folder rel_path).

Definition msg_forbidden : string := "Ruta no permitida".

(** The words of the messages that have a letter beyond ASCII. *)
Definition accion : string := "Acci" +:+ String (Text.chr 243) "n".

(** ** Read worker ([workers/reader.py]) *)

Module Reader.

Definition entry (fs : Fs.t) (target name : string) : json :=
  let full := Posixpath.join target name in
  JObj [("name", JStr name);
        ("is_dir", JBool (Fs.isdir fs full));
        ("size", JInt (if Fs.isfile fs full
                       then match Fs.getsize fs full with
                            | Py.Ok n => n
                            | Py.Raise _ => 0
                            end
                       else 0))].

Definition _list_files (fs : Fs.t) (shared_folder : string) (rel_path : json)
  : Py.result wresult :=
  let rel_path :=
    match rel_path with
    | JStr s =>
      if String.eqb s "/" || String.eqb s EmptyString || String.eqb s "."
      then JStr EmptyString else rel_path
    | _ => rel_path
    end in
  match lstrip_path rel_path with
  | Py.Raise e => Py.Raise e
  | Py.Ok rel_path =>
    let target := resolve shared_folder rel_path in
    if negb (sandbox_ok shared_folder target) then
      Py.Ok (error_result msg_forbidden)
    else if negb (Fs.isdir fs target) then
      Py.Ok (error_result
               ("Directorio no encontrado: "
                +:+ (if String.eqb rel_path EmptyString then "/" else rel_path)))
    else
      match Fs.listdir fs target with
      | Py.Raise e => Py.Raise e
      | Py.Ok names =>
        Py.Ok {| w_status := "ok"; w_message := None;
                 w_entries := Some (map (entry fs target) (Fs.sorted names));
                 w_size := None; w_data := None; w_path := None;
                 w_id := None; w_action := None |}
      end
  end.

Definition _read_file (fs : Fs.t) (shared_folder : string) (rel_path : json)
  : Py.result wresult :=
  match lstrip_path rel_path with
  | Py.Raise e => Py.Raise e
  | Py.Ok rel_path =>
    let target := resolve shared_folder rel_path in
    if negb (sandbox_ok shared_folder target) then
      Py.Ok (error_result msg_forbidden)
    else if negb (Fs.isfile fs target) then
      Py.Ok (error_result ("Archivo no encontrado: " +:+ rel_path))
    else
      match Fs.getsize fs target with
      | Py.Raise e => Py.Ok (error_result (Py.exn_str e))
      | Py.Ok size =>
        match Fs.read_bytes fs target with
        | Py.Raise e => Py.Ok (error_result (Py.exn_str e))
        | Py.Ok data =>
          Py.Ok {| w_status := "ok"; w_message := None; w_entries := None;
                   w_size := Some size; w_data := Some data;
                   w_path := Some rel_path; w_id := None; w_action := None |}
        end
      end
  end.

(** The body of the [try] of the loop. *)
Definition dispatch (fs : Fs.t) (shared_folder action : string) (path : json)
  : Py.result wresult :=
  if String.eqb action "LIST" then _list_files fs shared_folder path
  else if String.eqb action "DOWNLOAD" then _read_file fs shared_folder path
  else Py.Ok (error_result (accion +:+ " desconocida: " +:+ action)).

(** One turn of the loop of [reader_worker], for a request that is not
    the sentinel: the result put on the response queue. *)
Definition step (fs : Fs.t) (shared_folder : string) (rq : request) : wresult :=
  let req_id := rq_id rq in
  let action := Text.upper (default EmptyString (rq_action rq)) in
  let path := default (JStr "/") (rq_path rq) in
  let result :=
    match dispatch fs shared_folder action path with
    | Py.Ok r => r
    | Py.Raise e => error_result ("Error interno: " +:+ Py.exn_str e)
    end in
  stamp req_id action result.

End Reader.

(** How the loop of a worker ends on a queue: it left the loop at the
    sentinel, or it waits on [get] for the next request. *)
Inductive loop_end : Type :=
| Stopped
| Waiting.

(** [reader_worker]: the queue holds requests and the sentinel [None]. The
    folder is made absolute first. *)
Fixpoint reader_loop (fs : Fs.t) (shared_folder : string)
  (queue : list (option request)) : list wresult * loop_end :=
  match queue with
  | [] => ([], Waiting)
  | None :: _ => ([], Stopped)
  | Some rq :: queue' =>
    let r := Reader.step fs shared_folder rq in
    let '(rs, e) := reader_loop fs shared_folder queue' in
    (r :: rs, e)
  end.

Definition reader_worker (cwd : string) (fs : Fs.t) (shared_folder : string)
  (queue : list (option request)) : list wresult * loop_end :=
  reader_loop fs (Posixpath.abspath cwd shared_folder) queue.

(** ** Write worker ([workers/writer.py]) *)

Module Writer.

Definition _save_file (fs : Fs.t) (shared_folder : string) (rel_path : json)
  (data : bytes) : Fs.t * Py.result wresult :=
  match lstrip_path rel_path with
  | Py.Raise e => (fs, Py.Raise e)
  | Py.Ok rel_path =>
    let target := resolve shared_folder rel_path in
    if negb (sandbox_ok shared_folder target) then
      (fs, Py.Ok (error_result msg_forbidden))
    else
      let target_dir := Posixpath.dirname target in
      let '(fs1, made) :=
        if negb (String.eqb target_dir EmptyString)
        then Fs.makedirs fs target_dir else (fs, Py.Ok tt) in
      match made with
      | Py.Raise e => (fs1, Py.Raise e)
      | Py.Ok _ =>
        match Fs.write_bytes fs1 target data with
        | (fs2, Py.Ok _) =>
          (fs2, Py.Ok {| w_status := "ok";
                         w_message :=
                           Some ("Archivo guardado: " +:+ rel_path +:+ " ("
                                 +:+ Text.str_of_Z (Z.of_nat (length data))
                                 +:+ " bytes)");
                         w_entries := None; w_size := None; w_data := None;
                         w_path := None; w_id := None; w_action := None |})
        | (fs2, Py.Raise e) => (fs2, Py.Ok (error_result (Py.exn_str e)))
        end
      end
  end.

Definition _delete_file (fs : Fs.t) (shared_folder : string) (rel_path : json)
  : Fs.t * Py.result wresult :=
  match lstrip_path rel_path with
  | Py.Raise e => (fs, Py.Raise e)
  | Py.Ok rel_path =>
    let target := resolve shared_folder rel_path in
    if negb (sandbox_ok shared_folder target) then
      (fs, Py.Ok (error_result msg_forbidden))
    else if negb (Fs.exists_ fs target) then
      (fs, Py.Ok (error_result ("Archivo no encontrado: " +:+ rel_path)))
    else if Fs.isdir fs target then
      match Fs.rmtree fs target with
      | (fs1, Py.Ok _) =>
        (fs1, Py.Ok {| w_status := "ok";
                       w_message := Some ("Directorio eliminado: " +:+ rel_path);
                       w_entries := None; w_size := None; w_data := None;
                       w_path := None; w_id := None; w_action := None |})
      | (fs1, Py.Raise e) => (fs1, Py.Ok (error_result (Py.exn_str e)))
      end
    else
      match Fs.remove fs target with
      | (fs1, Py.Ok _) =>
        (fs1, Py.Ok {| w_status := "ok";
                       w_message := Some ("Archivo eliminado: " +:+ rel_path);
                       w_entries := None; w_size := None; w_data := None;
                       w_path := None; w_id := None; w_action := None |})
      | (fs1, Py.Raise e) => (fs1, Py.Ok (error_result (Py.exn_str e)))
      end
  end.

Definition _cut_file (fs : Fs.t) (shared_folder : string) (rel_path : json)
  : Fs.t * Py.result wresult :=
  match lstrip_path rel_path with
  | Py.Raise e => (fs, Py.Raise e)
  | Py.Ok rel_path =>
    let target := resolve shared_folder rel_path in
    if negb (sandbox_ok shared_folder target) then
      (fs, Py.Ok (error_result msg_forbidden))
    else if negb (Fs.isfile fs target) then
      (fs, Py.Ok (error_result ("Archivo no encontrado: " +:+ rel_path)))
    else
      match Fs.read_bytes fs target with
      | Py.Raise e => (fs, Py.Ok (error_result (Py.exn_str e)))
      | Py.Ok data =>
        let size := Z.of_nat (length data) in
        match Fs.remove fs target with
        | (fs1, Py.Raise e) => (fs1, Py.Ok (error_result (Py.exn_str e)))
        | (fs1, Py.Ok _) =>
          (fs1, Py.Ok {| w_status := "ok";
                         w_message :=
                           Some ("Archivo cortado: " +:+ rel_path +:+ " ("
                                 +:+ Text.str_of_Z size +:+ " bytes)");
                         w_entries := None; w_size := Some size;
                         w_data := Some data; w_path := Some rel_path;
                         w_id := None; w_action := None |})
        end
      end
  end.

(** The body of the [try] of the loop. *)
Definition dispatch (fs : Fs.t) (shared_folder action : string) (rq : request)
  (path : json) : Fs.t * Py.result wresult :=
  if String.eqb action "UPLOAD" then
    _save_file fs shared_folder path (default [] (rq_data rq))
  else if String.eqb action "DELETE" then _delete_file fs shared_folder path
  else if String.eqb action "CUT" then _cut_file fs shared_folder path
  else (fs, Py.Ok (error_result (accion +:+ " desconocida: " +:+ action))).

(** One turn of the loop of [writer_worker], for a request that is not
    the sentinel. *)
Definition step (fs : Fs.t) (shared_folder : string) (rq : request)
  : Fs.t * wresult :=
  let req_id := rq_id rq in
  let action := Text.upper (default EmptyString (rq_action rq)) in
  let path := default (JStr EmptyString) (rq_path rq) in
  let '(fs1, outcome) := dispatch fs shared_folder action rq path in
  let result :=
    match outcome with
    | Py.Ok r => r
    | Py.Raise e => error_result ("Error interno: " +:+ Py.exn_str e)
    end in
  (fs1, stamp req_id action result).

End Writer.

(** [writer_worker]: the requests are served one after the other, each on
    the file system the previous one left. *)
Fixpoint writer_loop (fs : Fs.t) (shared_folder : string)
  (queue : list (option request)) : Fs.t * list wresult * loop_end :=
  match queue with
  | [] => (fs, [], Waiting)
  | None :: _ => (fs, [], Stopped)
  | Some rq :: queue' =>
    let '(fs1, r) := Writer.step fs shared_folder rq in
    let '(fs2, rs, e) := writer_loop fs1 shared_folder queue' in
    (fs2, r :: rs, e)
  end.

Definition writer_worker (cwd : string) (fs : Fs.t) (shared_folder : string)
  (queue : list (option request)) : Fs.t * list wresult * loop_end :=
  writer_loop fs (Posixpath.abspath cwd shared_folder) queue.

(** ** Connection session ([server.py], [handle_client])

    One session is followed from its byte stream: [send_to_worker] hands
    the request to the worker and awaits the result, so for one session
    it is the call of the worker's turn on the current file system.  The
    correlation identifier, a random [uuid4] in the source, is drawn from a
    counter. *)

Module Server.

(** What a session writes on its socket: messages, listed here before
    [async_send_message] frames them, and raw file bytes. *)
Inductive output : Type :=
| OutMsg (m : json)
| OutRaw (b : bytes).

(** An audit event as [log_event] queues it (without the time stamp and
    the constant client fields). *)
Record event : Type := {
  ev_action : string;
  ev_path : json;
  ev_status : string;
  ev_detail : string
}.

Record session : Type := {
  s_in : bytes;            (* what the client still sends *)
  s_fs : Fs.t;             (* the shared file system *)
  s_out : list output;     (* what was written, oldest first *)
  s_log : list event;      (* the audit queue, oldest first *)
  s_next : Z               (* the next correlation identifier *)
}.

(** A connection just accepted, with the bytes the client will send. *)
Definition connect (input : bytes) (fs : Fs.t) : session :=
  {| s_in := input; s_fs := fs; s_out := []; s_log := []; s_next := 0 |}.

Definition with_in (st : session) (i : bytes) : session :=
  {| s_in := i; s_fs := s_fs st; s_out := s_out st; s_log := s_log st;
     s_next := s_next st |}.

Definition write (st : session) (o : output) : session :=
  {| s_in := s_in st; s_fs := s_fs st; s_out := s_out st ++ [o];
     s_log := s_log st; s_next := s_next st |}.

Definition log_event (st : session) (action : string) (path : json)
  (status detail : string) : session :=
  {| s_in := s_in st; s_fs := s_fs st; s_out := s_out st;
     s_log := s_log st ++ [{| ev_action := action; ev_path := path;
                              ev_status := status; ev_detail := detail |}];
     s_next := s_next st |}.

Definition fresh_id (st : session) : string := "req-" +:+ Text.str_of_Z (s_next st).

(** The two pairs of queues. *)
Inductive worker : Type :=
| ReadWorker
| WriteWorker.

(** [send_to_worker(queue_req, queue_resp, request)]: the request gets its
    identifier and the session awaits the result of the worker. *)
Definition send_to_worker (shared : string) (st : session) (w : worker)
  (action : string) (path : json) (data : option bytes) : wresult * session :=
  let rq := {| rq_id := Some (fresh_id st); rq_action := Some action;
               rq_path := Some path; rq_data := data |} in
  let '(fs1, r) :=
    match w with
    | ReadWorker => (s_fs st, Reader.step (s_fs st) shared rq)
    | WriteWorker => Writer.step (s_fs st) shared rq
    end in
  (r, {| s_in := s_in st; s_fs := fs1; s_out := s_out st; s_log := s_log st;
         s_next := s_next st + 1 |}).

(** Where a turn of the command loop leaves the session: at the next
    turn, or closed, after a [break] ([None]) or an exception. *)
Inductive outcome : Type :=
| Continue (st : session)
| Closed (st : session) (e : option Py.exn).

(** [reader.readexactly(n)] for the value received as [size] *)
Definition readexactly (st : session) (n : json) : Py.result (bytes * session) :=
  let n' :=
    match n with
    | JInt z => Py.Ok z
    | JBool b => Py.Ok (if b then 1 else 0)%Z
    | v => Py.Raise (Py.TypeError
                       ("'<' not supported between instances of "
                        +:+ Py.repr_str (Py.type_name v) +:+ " and 'int'"))
    end in
  match n' with
  | Py.Raise e => Py.Raise e
  | Py.Ok z =>
    if z <? 0 then Py.Raise (Py.ValueError "readexactly size can not be less than zero")
    else
      match Protocol.recv_exact (s_in st) (Z.to_nat z) with
      | (Some data, rest) => Py.Ok (data, with_in st rest)
      | (None, _) => Py.Raise (Py.IncompleteReadError (Z.of_nat (length (s_in st))) z)
      end
  end.

Definition reply_status_message (action : string) (r : wresult) : json :=
  JObj [("status", JStr (w_status r)); ("action", JStr action);
        ("message", JStr (default EmptyString (w_message r)))].

(** The transfer replies of DOWNLOAD and CUT. *)
Definition reply_transfer (st : session) (action : string) (r : wresult) : session :=
  if String.eqb (w_status r) "ok" then
    write (write st (OutMsg (JObj [("status", JStr "ok"); ("action", JStr action);
                                   ("path", JStr (default EmptyString (w_path r)));
                                   ("size", JInt (default 0 (w_size r)))])))
          (OutRaw (default [] (w_data r)))
  else
    write st (OutMsg (JObj [("status", JStr "error"); ("action", JStr action);
                            ("message", JStr (default "Error desc" (w_message r)))])).

(** The body of the loop once the message [msg] is read: the branches on
    the upper-cased action. *)
Definition run_command (shared : string) (st : session) (msg : list (string * json))
  (action : string) : outcome :=
  let path := default (JStr "/") (Dict.get "path" msg) in
  if String.eqb action "LIST" then
    let '(r, st) := send_to_worker shared st ReadWorker "LIST" path None in
    let st := write st (OutMsg (JObj [("status", JStr (w_status r));
                                      ("action", JStr "LIST");
                                      ("entries", JArr (default [] (w_entries r)));
                                      ("message", JStr (default EmptyString (w_message r)))])) in
    Continue (log_event st "LIST" path (w_status r) EmptyString)
  else if String.eqb action "DOWNLOAD" then
    let '(r, st) := send_to_worker shared st ReadWorker "DOWNLOAD" path None in
    let st := reply_transfer st "DOWNLOAD" r in
    Continue (log_event st "DOWNLOAD" path (w_status r) EmptyString)
  else if String.eqb action "UPLOAD" then
    let file_size := default (JInt 0) (Dict.get "size" msg) in
    let st := write st (OutMsg (JObj [("status", JStr "ready"); ("action", JStr "UPLOAD")])) in
    match readexactly st file_size with
    | Py.Raise e => Closed st (Some e)
    | Py.Ok (file_data, st) =>
      let '(r, st) := send_to_worker shared st WriteWorker "UPLOAD" path (Some file_data) in
      let st := write st (OutMsg (reply_status_message "UPLOAD" r)) in
      Continue (log_event st "UPLOAD" path (w_status r) (Py.str file_size +:+ "b"))
    end
  else if String.eqb action "DELETE" then
    let '(r, st) := send_to_worker shared st WriteWorker "DELETE" path None in
    let st := write st (OutMsg (reply_status_message "DELETE" r)) in
    Continue (log_event st "DELETE" path (w_status r) EmptyString)
  else if String.eqb action "CUT" then
    let '(r, st) := send_to_worker shared st WriteWorker "CUT" path None in
    let st := reply_transfer st "CUT" r in
    Continue (log_event st "CUT" path (w_status r) EmptyString)
  else
    Continue (write st (OutMsg (JObj [("status", JStr "error");
                                      ("message", JStr ("Desconocido: " +:+ action))]))).

(** [action = msg.get("action", "").upper()], then the branches. *)
Definition handle_command (shared : string) (st : session) (msg : json) : outcome :=
  match msg with
  | JObj d =>
    match Dict.get "action" d with
    | None => run_command shared st d (Text.upper EmptyString)
    | Some (JStr a) => run_command shared st d (Text.upper a)
    | Some v => Closed st (Some (Py.AttributeError (Py.type_name v) "upper"))
    end
  | v => Closed st (Some (Py.AttributeError (Py.type_name v) "get"))
  end.

(** One turn of the command loop. *)
Definition command_step (shared : string) (st : session) : outcome :=
  let '(r, rest) := Protocol.recv_message (s_in st) in
  let st := with_in st rest in
  match r with
  | Protocol.RecvNone | Protocol.RecvMsg JNull => Closed st None
  | Protocol.RecvRaise => Closed st (Some Py.DecodeError)
  | Protocol.RecvMsg msg => handle_command shared st msg
  end.

(** The [finally] of [handle_client]. *)
Definition disconnect (st : session) : session :=
  log_event st "DISCONNECT" (JStr EmptyString) "ok" EmptyString.

(** The command loop; a turn that continues has read a frame, so the
    length of the stream bounds the number of turns. [None]: out of fuel. *)
Fixpoint command_loop (fuel : nat) (shared : string) (st : session)
  : option session :=
  match fuel with
  | O => None
  | S fuel' =>
    match command_step shared st with
    | Continue st' => command_loop fuel' shared st'
    | Closed st' _ => Some (disconnect st')
    end
  end.

(** How the handshake ends: the session enters the command loop, the
    connection is closed without a reply, or the coroutine dies of an
    exception (the handshake is outside the [try]). *)
Inductive greeted : Type :=
| Proceed (st : session)
| Refused (st : session)
| Crashed (st : session) (e : Py.exn).

Fixpoint substring_of (p s : string) : bool :=
  Text.startswith s p ||
  match s with
  | EmptyString => false
  | String _ s' => substring_of p s'
  end.

(** ["name" in msg], for the values on which [in] is defined *)
Definition name_in (msg : json) : Py.result bool :=
  match msg with
  | JObj d => Py.Ok (Dict.mem "name" d)
  | JStr s => Py.Ok (substring_of "name" s)
  | JArr l => Py.Ok (existsb (fun x => match x with
                                       | JStr s => String.eqb s "name"
                                       | _ => false
                                       end) l)
  | v => Py.Raise (Py.TypeError ("argument of type " +:+ Py.repr_str (Py.type_name v)
                                 +:+ " is not iterable"))
  end.

(** [msg["name"]] *)
Definition get_name (msg : json) : Py.result json :=
  match msg with
  | JObj d =>
    match Dict.get "name" d with
    | Some v => Py.Ok v
    | None => Py.Raise (Py.KeyError "name")
    end
  | JStr _ => Py.Raise (Py.TypeError "string indices must be integers, not 'str'")
  | _ => Py.Raise (Py.TypeError "list indices must be integers or slices, not str")
  end.

Definition welcome (client_name : json) : json :=
  JObj [("status", JStr "ok");
        ("message", JStr ("Bienvenido " +:+ Py.str client_name
                          +:+ "! Conectado al servidor Clisend."))].

Definition handshake (st : session) : greeted :=
  let '(r, rest) := Protocol.recv_message (s_in st) in
  let st := with_in st rest in
  match r with
  | Protocol.RecvRaise => Crashed st Py.DecodeError
  | Protocol.RecvNone => Refused st
  | Protocol.RecvMsg msg =>
    if negb (Py.truthy msg) then Refused st
    else
      match name_in msg with
      | Py.Raise e => Crashed st e
      | Py.Ok false => Refused st
      | Py.Ok true =>
        match get_name msg with
        | Py.Raise e => Crashed st e
        | Py.Ok client_name =>
          let st := log_event st "CONNECT" (JStr EmptyString) "ok"
                      ("Cliente " +:+ Py.str client_name +:+ " conectado") in
          Proceed (write st (OutMsg (welcome client_name)))
        end
      end
  end.

(** [handle_client] *)
Definition handle_client (shared : string) (st : session) : option session :=
  match handshake st with
  | Proceed st' => command_loop (S (length (s_in st'))) shared st'
  | Refused st' => Some st'
  | Crashed st' _ => Some st'
  end.

(** The status of the last message written, if any. *)
Definition last_status (st : session) : option json :=
  match last (s_out st) with
  | Some (OutMsg (JObj d)) => Dict.get "status" d
  | _ => None
  end.

End Server.
(** ** The command-line client ([client.py])

    The client is followed through what it sends, what it reads from the
    server and what it does to its own file system.  What it prints is
    left out, but not the exceptions that computing the printed text can
    raise.  The stream from the server is what the server sends before it
    closes; sending always succeeds.  The commands are the lines typed,
    the end of input follows the last. *)

Module Client.

Definition DOWNLOAD_FOLDER : string := "./downloads".

(** The chunk size the client leaves to [send_file_data] and
    [recv_file_data]. *)
Definition chunk_size : Z := 8192.

(** [c.isspace()] on U+0000..U+00FF *)
Definition is_space (c : ascii) : bool :=
  let n := Text.code c in
  ((9 <=? n) && (n <=? 13)) || ((28 <=? n) && (n <=? 32)) || (n =? 133) || (n =? 160).

(** [s.lstrip()], [s.rstrip()], [s.strip()] *)
Fixpoint lstrip (s : string) : string :=
  match s with
  | EmptyString => EmptyString
  | String c s' => if is_space c then lstrip s' else s
  end.

Fixpoint rstrip (s : string) : string :=
  match s with
  | EmptyString => EmptyString
  | String c s' =>
    match rstrip s' with
    | EmptyString => if is_space c then EmptyString else String c EmptyString
    | r => String c r
    end
  end.

Definition strip (s : string) : string := lstrip (rstrip s).

(** The first word of [s] and what follows the white space after it. *)
Fixpoint split_word (s : string) : string * string :=
  match s with
  | EmptyString => (EmptyString, EmptyString)
  | String c s' =>
    if is_space c then (EmptyString, lstrip s')
    else let '(w, r) := split_word s' in (String c w, r)
  end.

(** [parts = raw.split(maxsplit=1)], then [parts[0]] and
    [parts[1] if len(parts) > 1 else ""], for a [raw] that is not empty
    and was stripped. *)
Definition split1 (raw : string) : string * string := split_word (lstrip raw).

(** [str.lower] on U+0000..U+00FF *)
Definition lower_char (c : ascii) : ascii :=
  let n := Text.code c in
  if ((65 <=? n) && (n <=? 90)) || ((192 <=? n) && (n <=? 222) && negb (n =? 215))
  then Text.chr (n + 32) else c.

Fixpoint lower (s : string) : string :=
  match s with
  | EmptyString => EmptyString
  | String c s' => String (lower_char c) (lower s')
  end.

(** [os.path.basename(p)]: [p[p.rfind("/") + 1:]] *)
Fixpoint basename (p : string) : string :=
  match p with
  | EmptyString => EmptyString
  | String c p' =>
    if Py.has_char "/" p' then basename p'
    else if Ascii.eqb c "/" then p' else p
  end.

(** The node a path leads to, as the system walks it from the working
    directory [cwd]: every step, also an empty one or [.], is taken in a
    directory; the last component need not exist.  [None]: the walk fails
    ([ENOENT], [ENOTDIR]). *)
Definition walk_step (fs : Fs.t) (cur : option (list string)) (comp : string)
  : option (list string) :=
  k ← cur;
  match fs !! k with
  | Some Fs.Dir =>
    if String.eqb comp EmptyString || String.eqb comp "." then Some k
    else if String.eqb comp ".." then Some (Fs.parent k)
    else Some (k ++ [comp])
  | _ => None
  end.

Definition walk (fs : Fs.t) (cwd : list string) (p : string) : option (list string) :=
  if String.eqb p EmptyString then None
  else fold_left (walk_step fs) (Text.split_slash p)
         (Some (if Text.startswith p "/" then [] else cwd)).

(** The regular file that [p] names, if it names one: its place and its
    content.  [os.path.isfile(p)] tells whether there is one,
    [os.path.getsize(p)] is then the length of the content. *)
Definition file_at (fs : Fs.t) (cwd : list string) (p : string)
  : option (list string * bytes) :=
  k ← walk fs cwd p;
  match fs !! k with
  | Some (Fs.File data) => Some (k, data)
  | _ => None
  end.

(** [format_size(size)] raises: [TypeError] for a value that is not a
    number, [OverflowError] when the quotient by [1024 ** 3] is beyond the
    floating-point numbers. *)
Definition format_size_raises (size : json) : bool :=
  match size with
  | JInt z => (2 ^ 1024 - 2 ^ 970) * 2 ^ 30 <=? z
  | JBool _ => false
  | _ => true
  end.

(** [format(v, "<35")] is defined for strings and numbers. *)
Definition formattable (v : json) : bool :=
  match v with
  | JStr _ | JInt _ | JBool _ => true
  | _ => false
  end.

(** One turn of the loop of [print_entries] raises. *)
Definition entry_raises (entry : json) : bool :=
  match entry with
  | JObj d =>
    match Dict.get "name" d with
    | None => true
    | Some name =>
      let is_dir := default (JBool false) (Dict.get "is_dir" d) in
      let size := default (JInt 0) (Dict.get "size" d) in
      if Py.truthy is_dir then false
      else format_size_raises size || negb (formattable name)
    end
  | _ => true
  end.

(** [print_entries(entries)] raises. *)
Definition print_entries_raises (entries : json) : bool :=
  if negb (Py.truthy entries) then false
  else match entries with
       | JArr l => existsb entry_raises l
       | _ => true
       end.

Record state : Type := {
  c_in : bytes;      (* what the server still sends *)
  c_sent : bytes;    (* what was sent to the server *)
  c_fs : Fs.t        (* the file system of the client *)
}.

(** How the client ends: the loop is left ([exit], end of input), the
    server did not welcome it ([sys.exit(1)]), or an exception that no
    handler catches. *)
Inductive stop : Type :=
| Exit
| Refused
| Crash.

Inductive outcome : Type :=
| Next (st : state)
| Stop (st : state) (why : stop).

(** [send_message(sock, msg)]; [None] when [struct.pack] raises. *)
Definition send (st : state) (msg : json) : option state :=
  framed ← Protocol.send_message msg;
  Some {| c_in := c_in st; c_sent := c_sent st ++ framed; c_fs := c_fs st |}.

(** [recv_message(sock)]: the value read ([None] is [JNull]) or [None]
    when decoding raises. *)
Definition recv (st : state) : option json * state :=
  let '(r, rest) := Protocol.recv_message (c_in st) in
  let st := {| c_in := rest; c_sent := c_sent st; c_fs := c_fs st |} in
  match r with
  | Protocol.RecvNone => (Some JNull, st)
  | Protocol.RecvMsg v => (Some v, st)
  | Protocol.RecvRaise => (None, st)
  end.

(** [resp and resp["status"] == s]; [None] when the subscript raises. *)
Definition status_is (resp : json) (s : string) : option bool :=
  if negb (Py.truthy resp) then Some false
  else match resp with
       | JObj d =>
         match Dict.get "status" d with
         | Some (JStr x) => Some (String.eqb x s)
         | Some _ => Some false
         | None => None
         end
       | _ => None
       end.

(** [resp and resp.get("status") == s]; [None] when [get] raises. *)
Definition get_status_is (resp : json) (s : string) : option bool :=
  if negb (Py.truthy resp) then Some false
  else match resp with
       | JObj d =>
         Some match Dict.get "status" d with
              | Some (JStr x) => String.eqb x s
              | _ => false
              end
       | _ => None
       end.

(** [resp.get("message", ...)] raises on what is not a dict,
    [resp["message"]] also on a dict without the key. *)
Definition get_message_raises (resp : json) : bool :=
  match resp with
  | JObj _ => false
  | _ => true
  end.

Definition message_raises (resp : json) : bool :=
  match resp with
  | JObj d => negb (Dict.mem "message" d)
  | _ => true
  end.

(** The number of bytes a value received as size stands for in
    [recv_file_data]. *)
Definition size_of (v : json) : Z :=
  match v with
  | JInt z => z
  | JBool true => 1
  | _ => 0
  end.

(** The ok branch of [cp] and [cut]: the file announced by [resp] is
    received into the download folder. *)
Definition receive_file (download_dir : string) (st : state) (resp : list (string * json))
  : outcome :=
  match Dict.get "size" resp with
  | None => Stop st Crash
  | Some file_size =>
    match Dict.get "path" resp with
    | Some (JStr path) =>
      let filename := basename path in
      let dest := Posixpath.join download_dir filename in
      if format_size_raises file_size then Stop st Crash
      else
        match FileData.recv_file_data (c_in st) (size_of file_size) (c_fs st) dest
                chunk_size with
        | Some (FileData.Complete, fs', rest) =>
          Next {| c_in := rest; c_sent := c_sent st; c_fs := fs' |}
        | Some (_, fs', rest) =>
          Stop {| c_in := rest; c_sent := c_sent st; c_fs := fs' |} Crash
        | None => Stop st Crash
        end
    | _ => Stop st Crash
    end
  end.

(** The commands that send one request and report the answer. *)
Definition request (st : state) (msg : json) (on_ok : state -> json -> outcome) : outcome :=
  match send st msg with
  | None => Stop st Crash
  | Some st =>
    match recv st with
    | (None, st) => Stop st Crash
    | (Some resp, st) =>
      match status_is resp "ok" with
      | None => Stop st Crash
      | Some true => on_ok st resp
      | Some false => if get_message_raises resp then Stop st Crash else Next st
      end
    end
  end.

Definition transfer_command (download_dir : string) (st : state) (action arg : string)
  : outcome :=
  if String.eqb arg EmptyString then Next st
  else
    request st (JObj [("action", JStr action); ("path", JStr arg)])
      (fun st resp =>
         match resp with
         | JObj d => receive_file download_dir st d
         | _ => Stop st Crash
         end).

Definition upload_command (cwd : list string) (st : state) (arg : string) : outcome :=
  if String.eqb arg EmptyString then Next st
  else
    match file_at (c_fs st) cwd arg with
    | None => Next st
    | Some (k, data) =>
      let file_size := Z.of_nat (length data) in
      let remote_name := basename arg in
      match send st (JObj [("action", JStr "UPLOAD"); ("path", JStr remote_name);
                           ("size", JInt file_size)]) with
      | None => Stop st Crash
      | Some st =>
        match recv st with
        | (None, st) => Stop st Crash
        | (Some ready, st) =>
          match get_status_is ready "ready" with
          | None => Stop st Crash
          | Some false => Next st
          | Some true =>
            match FileData.send_loop (S (length data)) data chunk_size with
            | None => Stop st Crash
            | Some chunks =>
              let st := {| c_in := c_in st; c_sent := c_sent st ++ concat chunks;
                           c_fs := c_fs st |} in
              match recv st with
              | (None, st) => Stop st Crash
              | (Some resp, st) =>
                match status_is resp "ok" with
                | None => Stop st Crash
                | Some true => if message_raises resp then Stop st Crash else Next st
                | Some false => if get_message_raises resp then Stop st Crash else Next st
                end
              end
            end
          end
        end
      end
    end.

(** One turn of the command loop for the line [raw], stripped and not
    empty. *)
Definition command (download_dir : string) (cwd : list string) (st : state)
  (raw : string) : outcome :=
  let '(word, arg) := split1 raw in
  let cmd := lower word in
  if String.eqb cmd "list" || String.eqb cmd "ls" then
    let path := if String.eqb arg EmptyString then "/" else arg in
    request st (JObj [("action", JStr "LIST"); ("path", JStr path)])
      (fun st resp =>
         match resp with
         | JObj d =>
           if print_entries_raises (default (JArr []) (Dict.get "entries" d))
           then Stop st Crash else Next st
         | _ => Stop st Crash
         end)
  else if String.eqb cmd "download" || String.eqb cmd "dl" || String.eqb cmd "copy"
          || String.eqb cmd "cp" || String.eqb cmd "get" then
    transfer_command download_dir st "DOWNLOAD" arg
  else if String.eqb cmd "upload" || String.eqb cmd "up" || String.eqb cmd "put" then
    upload_command cwd st arg
  else if String.eqb cmd "delete" || String.eqb cmd "rm" then
    if String.eqb arg EmptyString then Next st
    else
      request st (JObj [("action", JStr "DELETE"); ("path", JStr arg)])
        (fun st resp => if message_raises resp then Stop st Crash else Next st)
  else if String.eqb cmd "cut" then
    transfer_command download_dir st "CUT" arg
  else if String.eqb cmd "help" then Next st
  else if String.eqb cmd "exit" || String.eqb cmd "quit" then Stop st Exit
  else Next st.

(** The command loop on the lines typed. *)
Fixpoint loop (download_dir : string) (cwd : list string) (lines : list string)
  (st : state) : state * stop :=
  match lines with
  | [] => (st, Exit)
  | line :: lines' =>
    let raw := strip line in
    if String.eqb raw EmptyString then loop download_dir cwd lines' st
    else
      match command download_dir cwd st raw with
      | Next st' => loop download_dir cwd lines' st'
      | Stop st' why => (st', why)
      end
  end.

(** [main()], started in the directory [cwd] with the name
    [client_name] and the option [--download-dir]. *)
Definition main (cwd client_name download_dir_arg : string) (lines : list string)
  (from_server : bytes) (fs : Fs.t) : state * stop :=
  let download_dir := Posixpath.abspath cwd download_dir_arg in
  match Fs.makedirs fs download_dir with
  | (fs1, Py.Raise _) =>
    ({| c_in := from_server; c_sent := []; c_fs := fs1 |}, Crash)
  | (fs1, Py.Ok _) =>
    let st := {| c_in := from_server; c_sent := []; c_fs := fs1 |} in
    match send st (JObj [("name", JStr client_name)]) with
    | None => (st, Crash)
    | Some st =>
      match recv st with
      | (None, st) => (st, Crash)
      | (Some welcome, st) =>
        match get_status_is welcome "ok" with
        | None => (st, Crash)
        | Some false => (st, Refused)
        | Some true =>
          if message_raises welcome then (st, Crash)
          else loop download_dir (Fs.key cwd) lines st
        end
      end
    end
  end.

End Client.

(** ** Correlating requests and answers ([server.py])

    [pending_requests] maps the identifier of a request in flight to its
    future and its response queue; a future is the result it was given,
    if it is done. *)

Module Pending.

Record entry : Type := {
  future : option wresult;
  queue_resp : Server.worker
}.

Abbreviation t := (gmap string entry).

(** [send_to_worker] up to [await future]: the request gets the
    identifier [req_id] and a new future is put in the table. *)
Definition register (pending : t) (req_id : string) (w : Server.worker) : t :=
  <[req_id := {| future := None; queue_resp := w |}]> pending.

(** The body of the loop of [poll_response_queues] for a result taken
    from a response queue. *)
Definition deliver (pending : t) (result : wresult) : t :=
  match w_id result with
  | Some req_id =>
    match pending !! req_id with
    | Some e =>
      match future e with
      | None => <[req_id := {| future := Some result; queue_resp := queue_resp e |}]> pending
      | Some _ => pending
      end
    | None => pending
    end
  | None => pending
  end.

(** The results that [poll_response_queues] takes, in the order in which
    it takes them. *)
Definition poll (pending : t) (got : list wresult) : t :=
  fold_left deliver got pending.

(** The end of [send_to_worker], once the future is done:
    [result = await future; del pending_requests[req_id]]. *)
Definition complete (pending : t) (req_id : string) : option (wresult * t) :=
  e ← pending !! req_id;
  result ← future e;
  Some (result, delete req_id pending).

End Pending.

(** ** The audit store ([workers/logger.py])

    The table [logs] is the list of its rows, oldest first; a row is the
    list of the values bound to the eight parameters of the [INSERT] (the
    column [id] is the place of the row).  An event is the dict that
    [log_event] puts on the queue. *)

Module Logger.

(** A value bound to a parameter of a statement. *)
Inductive bound : Type :=
| Null
| Int (z : Z)
| Text (s : string).

(** What [sqlite3] binds for a Python value; [None] when it raises
    ([ProgrammingError] for a list or a dict, [OverflowError] for an
    integer beyond 64 bits). *)
Definition bind (v : json) : option bound :=
  match v with
  | JNull => Some Null
  | JBool b => Some (Int (if b then 1 else 0))
  | JInt z => if (- 2 ^ 63 <=? z) && (z <? 2 ^ 63) then Some (Int z) else None
  | JStr s => Some (Text s)
  | JArr _ | JObj _ => None
  end.

(** The columns that get a value: the key of the event, whether the
    column is [NOT NULL], and the default of [event.get]; the default of
    the time stamp is the time of the insertion. *)
Definition columns (now : string) : list (string * bool * json) :=
  [("timestamp", true, JStr now); ("client_name", true, JStr "unknown");
   ("client_ip", true, JStr "0.0.0.0"); ("client_port", true, JInt 0);
   ("action", true, JStr "UNKNOWN"); ("path", false, JStr EmptyString);
   ("status", true, JStr "ok"); ("detail", false, JStr EmptyString)].

(** The value bound for one column; [None] when binding raises or the
    column refuses [NULL] ([IntegrityError]). *)
Definition cell (event : list (string * json)) (col : string * bool * json)
  : option bound :=
  let '(key, not_null, dflt) := col in
  b ← bind (default dflt (Dict.get key event));
  match b with
  | Null => if not_null then None else Some Null
  | _ => Some b
  end.

(** [_insert_log(conn, event)]: the table with the new row, or [None]
    when the statement raises. *)
Definition _insert_log (now : string) (table : list (list bound))
  (event : list (string * json)) : option (list (list bound)) :=
  row ← mapM (cell event) (columns now);
  Some (table ++ [row]).

(** The loop of [logger_worker]: the queue holds events and the sentinel
    [None]; [clock n] is the time at the turn [n] of the loop.  An event
    whose insertion raises is reported and left out. *)
Fixpoint logger_loop (clock : nat -> string) (n : nat) (table : list (list bound))
  (queue : list (option (list (string * json)))) : list (list bound) * loop_end :=
  match queue with
  | [] => (table, Waiting)
  | None :: _ => (table, Stopped)
  | Some event :: queue' =>
    let table' := default table (_insert_log (clock n) table event) in
    logger_loop clock (S n) table' queue'
  end.

(** [logger_worker(log_queue, db_path)] on a database whose table holds
    the rows [table] ([CREATE TABLE IF NOT EXISTS] keeps them). *)
Definition logger_worker (clock : nat -> string) (table : list (list bound))
  (queue : list (option (list (string * json)))) : list (list bound) * loop_end :=
  logger_loop clock 0 table queue.

End Logger.

(** The dict that [log_event] puts on the queue for the event [ev] of the
    session of the client [client_name] at [client_ip]:[client_port], at
    the time [timestamp]. *)
Definition queued_event (timestamp : string) (client_name : json) (client_ip : string)
  (client_port : Z) (ev : Server.event) : list (string * json) :=
  [("timestamp", JStr timestamp); ("client_name", client_name);
   ("client_ip", JStr client_ip); ("client_port", JInt client_port);
   ("action", JStr (Server.ev_action ev)); ("path", Server.ev_path ev);
   ("status", JStr (Server.ev_status ev)); ("detail", JStr (Server.ev_detail ev))].

(** The name a session is logged under: the value of [name] in its first
    message. *)
Definition session_name (st : Server.session) : option json :=
  match fst (Protocol.recv_message (Server.s_in st)) with
  | Protocol.RecvMsg (JObj d) => Dict.get "name" d
  | _ => None
  end.

(** The row stored for an event: the values bound for its name and its
    path, and its other fields as text. *)
Definition stored_row (timestamp : string) (name : Logger.bound) (client_ip : string)
  (client_port : Z) (ev : Server.event) (path : Logger.bound) : list Logger.bound :=
  [Logger.Text timestamp; name; Logger.Text client_ip; Logger.Int client_port;
   Logger.Text (Server.ev_action ev); path; Logger.Text (Server.ev_status ev);
   Logger.Text (Server.ev_detail ev)].

(** The queue of the logger for the events [evs], each with the time at
    which it was logged. *)
Definition queued (name : json) (client_ip : string) (client_port : Z)
  (evs : list (string * Server.event)) : list (option (list (string * json))) :=
  map (fun te => Some (queued_event (fst te) name client_ip client_port (snd te))) evs.


(** ** Notions used to state the properties *)

(** The directory that [_list_files] lists for the path [d]. *)
Definition list_target (shared_folder d : string) : string :=
  resolve shared_folder
    (Text.lstrip_slash
       (if String.eqb d "/" || String.eqb d EmptyString || String.eqb d "."
        then EmptyString else d)).

(** The names in the entries of a listing. *)
Definition entry_names (es : list json) : list string :=
  omap (fun e => match e with
                 | JObj d => match Dict.get "name" d with
                             | Some (JStr n) => Some n
                             | _ => None
                             end
                 | _ => None
                 end) es.

(** The result of a successful CUT of [rel_path] with content [data]. *)
Definition cut_result (rel_path : string) (data : bytes) : wresult :=
  {| w_status := "ok";
     w_message := Some ("Archivo cortado: " +:+ rel_path +:+ " ("
                        +:+ Text.str_of_Z (Z.of_nat (length data)) +:+ " bytes)");
     w_entries := None; w_size := Some (Z.of_nat (length data));
     w_data := Some data; w_path := Some rel_path;
     w_id := None; w_action := None |}.


(** The result of a successful UPLOAD. *)
Definition save_result (rel_path : string) (data : bytes) : wresult :=
  {| w_status := "ok";
     w_message := Some ("Archivo guardado: " +:+ rel_path +:+ " ("
                        +:+ Text.str_of_Z (Z.of_nat (length data)) +:+ " bytes)");
     w_entries := None; w_size := None; w_data := None;
     w_path := None; w_id := None; w_action := None |}.

(** The write worker serving the requests [reqs] in order: the file system
    it leaves and its answers. *)
Fixpoint writer_serve (fs : Fs.t) (shared_folder : string) (reqs : list request)
  : Fs.t * list wresult :=
  match reqs with
  | [] => (fs, [])
  | rq :: reqs' =>
    let '(fs1, r) := Writer.step fs shared_folder rq in
    let '(fs2, rs) := writer_serve fs1 shared_folder reqs' in
    (fs2, r :: rs)
  end.

(** The bytes [send_message] writes for [m] (empty if it raises). *)
Definition frame (m : json) : bytes := default [] (Protocol.send_message m).


(** A component of a normalized path: not empty, without a slash, neither
    [.] nor [..]. *)
Definition good_comp (c : string) : bool :=
  negb (Py.has_char "/" c) && negb (String.eqb c EmptyString)
  && negb (String.eqb c ".") && negb (String.eqb c "..").


(** The directory with the components [k] and all the directories above
    it exist. *)
Definition all_dirs (fs : Fs.t) (k : list string) : Prop :=
  forall i : nat, fs !! take i k = Some Fs.Dir.

(** No regular file lies on the way to [k], at [k] or above. *)
Definition no_file_above (fs : Fs.t) (k : list string) : Prop :=
  forall (i : nat) (data : bytes), fs !! take i k <> Some (Fs.File data).

Definition no_slash (c : string) : Prop := Py.has_char "/" c = false.

Abbreviation good cs := (Forall (fun c => good_comp c = true) cs).

(** The session after a turn that continues, and after a handshake that
    proceeds. *)
Definition continued (o : Server.outcome) : option Server.session :=
  match o with
  | Server.Continue st => Some st
  | Server.Closed _ _ => None
  end.

Definition proceeded (g : Server.greeted) : option Server.session :=
  match g with
  | Server.Proceed st => Some st
  | _ => None
  end.

(** ** Further notions used to state the properties *)

(** The sandbox test read on components: the components of the root but
    the last are the first components of the target, and the last one is
    the beginning of the text of the next component of the target. *)
Fixpoint comps_accept (rk tk : list string) : bool :=
  match rk with
  | [] => true
  | c :: rk' =>
    match tk with
    | [] => false
    | c' :: tk' =>
      match rk' with
      | [] => Text.startswith c' c
      | _ => String.eqb c c' && comps_accept rk' tk'
      end
    end
  end.

(** The file system is a tree: the top directory exists and every node
    lies in a directory (the top directory is its own parent). *)
Definition tree (fs : Fs.t) : Prop :=
  fs !! [] = Some Fs.Dir
  /\ map_Forall (fun k _ => fs !! Fs.parent k = Some Fs.Dir) fs.

#[export] Instance tree_dec (fs : Fs.t) : Decision (tree fs).
Proof.
  pose proof Fs.node_eq_dec as Hdec. unfold tree. apply and_dec; [apply _|].
  apply map_Forall_dec. intros k _. apply _.
Defined.

(** What one request served by the write worker can make of the file
    system. *)
Definition writer_changes (shared_folder : string) (fs fs' : Fs.t) : Prop :=
  exists rq : request, fs' = fst (Writer.step fs shared_folder rq).

(** The session a turn of the command loop leaves. *)
Definition outcome_session (o : Server.outcome) : Server.session :=
  match o with
  | Server.Continue st => st
  | Server.Closed st _ => st
  end.

(** An operation of the write worker either answers ok or leaves the file
    system as it was. *)
Definition answered_ok_or_same (fs : Fs.t) (R : Fs.t * Py.result wresult) : Prop :=
  (exists x, snd R = Py.Ok x /\ w_status x = "ok") \/ fst R = fs.

(** The result of a successful DELETE; [what] tells what was removed. *)
Definition delete_result (what rel_path : string) : wresult :=
  {| w_status := "ok"; w_message := Some (what +:+ rel_path);
     w_entries := None; w_size := None; w_data := None; w_path := None;
     w_id := None; w_action := None |}.

(** The result of a successful LIST. *)
Definition list_result (entries : list json) : wresult :=
  {| w_status := "ok"; w_message := None; w_entries := Some entries;
     w_size := None; w_data := None; w_path := None;
     w_id := None; w_action := None |}.

(** The names in the file system are names: without a slash, not empty,
    neither [.] nor [..]. *)
Definition good_names (fs : Fs.t) : Prop :=
  map_Forall (fun (k : list string) (_ : Fs.node) => good k) fs.

(** What a listing says of the entry [name] of the directory with the
    components [dir]. *)
Definition entry_of (fs : Fs.t) (dir : list string) (name : string) : json :=
  JObj [("name", JStr name);
        ("is_dir", JBool match fs !! (dir ++ [name]) with
                         | Some Fs.Dir => true
                         | _ => false
                         end);
        ("size", JInt match fs !! (dir ++ [name]) with
                      | Some (Fs.File data) => Z.of_nat (length data)
                      | _ => 0
                      end)].

(** The message [m] announces a transfer of [n] bytes: its status is ok
    and its size is [n]. *)
Definition announces (m : json) (n : nat) : bool :=
  match m with
  | JObj d =>
    match Dict.get "status" d, Dict.get "size" d with
    | Some (JStr s), Some (JInt z) => String.eqb s "ok" && (z =? Z.of_nat n)
    | _, _ => false
    end
  | _ => false
  end.

(** What a session wrote is well framed: raw bytes come only right after
    a message that announces exactly that many bytes. *)
Fixpoint framing_ok (out : list Server.output) : bool :=
  match out with
  | [] => true
  | Server.OutRaw _ :: _ => false
  | Server.OutMsg m :: out' =>
    match out' with
    | Server.OutRaw b :: out'' => announces m (length b) && framing_ok out''
    | _ => framing_ok out'
    end
  end.

(** The actions of the audit events of the command loop. *)
Definition file_event (ev : Server.event) : Prop :=
  Server.ev_action ev ∈ ["LIST"; "DOWNLOAD"; "UPLOAD"; "DELETE"; "CUT"].

(** The state a turn of the client leaves. *)
Definition outcome_state (o : Client.outcome) : Client.state :=
  match o with
  | Client.Next st => st
  | Client.Stop st _ => st
  end.

(** What the downloads of a client into the folder with the components
    [dir] can make of its file system: a node is as before, or a regular
    file directly in the folder. *)
Definition downloaded (dir : list string) (fs fs' : Fs.t) : Prop :=
  forall k, fs' !! k = fs !! k
            \/ exists n data, k = dir ++ [n] /\ fs' !! k = Some (Fs.File data).

(** The requests [reqs], each with the worker it goes to, registered in
    the table. *)
Definition register_all (pending : Pending.t) (reqs : list (string * Server.worker))
  : Pending.t :=
  fold_left (fun p rw => Pending.register p (fst rw) (snd rw)) reqs pending.

(** [request["id"] = req_id] *)
Definition with_id (rq : request) (req_id : string) : request :=
  {| rq_id := Some req_id; rq_action := rq_action rq; rq_path := rq_path rq;
     rq_data := rq_data rq |}.

(** Requests in flight: each with the identifier it was given. *)
Definition sent_to (w : Server.worker) (reqs : list (string * request))
  : list (string * Server.worker) :=
  map (fun x => (fst x, w)) reqs.

(** The long name of a command word of the client, for a word in small
    letters. *)
Definition long_name (w : string) : string :=
  if String.eqb w "ls" then "list"
  else if String.eqb w "dl" || String.eqb w "copy" || String.eqb w "cp"
          || String.eqb w "get" then "download"
  else if String.eqb w "up" || String.eqb w "put" then "upload"
  else if String.eqb w "rm" then "delete"
  else if String.eqb w "quit" then "exit"
  else w.

(** ** Sample values *)

Definition sample_msg : json :=
  JObj [("action", JStr "UPLOAD"); ("path", JStr "a/b.txt"); ("size", JInt 51);
        ("entries", JArr [JObj [("name", JStr "x"); ("is_dir", JBool false)]; JNull; JInt (-7)])].

(** The frame of [sample_msg] as [send_message] writes it. *)
Definition sample_frame : bytes :=
  Eval vm_compute in default [] (Protocol.send_message sample_msg).


(** A small file system: the shared folder [/srv/share] with one file and
    one sub-directory, next to a folder [/srv/share2] that is not shared. *)
Definition sample_fs : Fs.t :=
  list_to_map
    [([], Fs.Dir); (["srv"], Fs.Dir); (["srv"; "share"], Fs.Dir);
     (["srv"; "share"; "a.txt"], Fs.File (list_ascii_of_string "hello"));
     (["srv"; "share"; "docs"], Fs.Dir);
     (["srv"; "share"; "docs"; "b.txt"], Fs.File (list_ascii_of_string "bye"));
     (["srv"; "share2"], Fs.Dir);
     (["srv"; "share2"; "secret.txt"], Fs.File (list_ascii_of_string "secret"))].

Definition sample_root : string := "/srv/share".

(** The shared folder of the integration test, empty at first, and the
    content the test uploads. *)
Definition empty_share : Fs.t :=
  list_to_map [([], Fs.Dir); (["srv"], Fs.Dir); (["srv"; "share"], Fs.Dir)].

Definition test_content : bytes :=
  list_ascii_of_string "Archivo creado desde el test automatico de Clisend".

(** What the integration test sends, in order. *)
Definition test_stream : bytes :=
  frame (JObj [("name", JStr "TestBot")])
  ++ frame (JObj [("action", JStr "LIST"); ("path", JStr "/")])
  ++ frame (JObj [("action", JStr "UPLOAD"); ("path", JStr "test_auto.txt");
                  ("size", JInt (Z.of_nat (length test_content)))])
  ++ test_content
  ++ frame (JObj [("action", JStr "LIST"); ("path", JStr "/")])
  ++ frame (JObj [("action", JStr "DOWNLOAD"); ("path", JStr "test_auto.txt")])
  ++ frame (JObj [("action", JStr "DELETE"); ("path", JStr "test_auto.txt")])
  ++ frame (JObj [("action", JStr "LIST"); ("path", JStr "/")]).

(** * Properties *)

(** ** Sanity checks of the text and JSON helpers *)

Example upper_list : Text.upper "List" = "LIST".
Proof. reflexivity. Qed.

Example split_example : Text.split_slash "/a//b/" = [""; "a"; ""; "b"; ""].
Proof. reflexivity. Qed.

Example dumps_sample : Json.dumps (JObj [("action", JStr "LIST"); ("n", JInt 51)])
  = String "{" (String Json.dquote ("action" +:+ String Json.dquote (": " +:+
      String Json.dquote ("LIST" +:+ String Json.dquote (", " +:+ String Json.dquote
      ("n" +:+ String Json.dquote ": 51}")))))).
Proof. reflexivity. Qed.

Example loads_dumps_sample : Json.loads (Json.dumps sample_msg) = Some sample_msg.
Proof. vm_compute. reflexivity. Qed.

(** ** [json.loads] inverts [json.dumps] *)

Lemma sapp_nil (b : string) : EmptyString +:+ b = b.
Proof. reflexivity. Qed.

Lemma sapp_cons (x : ascii) (a b : string) : String x a +:+ b = String x (a +:+ b).
Proof. reflexivity. Qed.

Lemma sapp_assoc (a b c : string) : (a +:+ b) +:+ c = a +:+ (b +:+ c).
Proof.
  induction a as [|x a IH]; [reflexivity|].
  rewrite !sapp_cons. now rewrite IH.
Qed.

Lemma sapp_length (a b : string) :
  String.length (a +:+ b) = (String.length a + String.length b)%nat.
Proof.
  induction a as [|x a IH]; [reflexivity|].
  rewrite sapp_cons. simpl. now rewrite IH.
Qed.

Lemma parse_str_escape_char (c : ascii) (t : string) :
  Json.parse_str (Json.escape_char c +:+ t) = Json.prepend c <$> Json.parse_str t.
Proof.
  destruct c as [[] [] [] [] [] [] [] []]; reflexivity.
Qed.

Lemma parse_str_escape (s r : string) :
  Json.parse_str (Json.escape s +:+ String Json.dquote r) = Some (s, r).
Proof.
  induction s as [|c s IH].
  - reflexivity.
  - change (Json.escape (String c s)) with (Json.escape_char c +:+ Json.escape s).
    rewrite sapp_assoc, parse_str_escape_char, IH. reflexivity.
Qed.

Lemma scan_digits_uint (d : Decimal.uint) (r : string) :
  num_end r = true ->
  Json.scan_digits (NilEmpty.string_of_uint d +:+ r) = (d, r).
Proof.
  intros Hr. induction d; simpl NilEmpty.string_of_uint;
    rewrite ?sapp_cons, ?sapp_nil;
    try (simpl Json.scan_digits; rewrite IHd; reflexivity).
  destruct r as [|c r]; [reflexivity|].
  simpl in *. destruct (Json.digit_of c); [discriminate | reflexivity].
Qed.

Lemma unorm_D0_inv (d x : Decimal.uint) :
  Decimal.unorm d = Decimal.D0 x -> x = Decimal.Nil.
Proof.
  unfold Decimal.unorm.
  induction d; simpl; intros H; try congruence; auto.
  all: try (destruct (Decimal.nzhead d); congruence).
Qed.

Lemma parse_nat_uint (d : Decimal.uint) (r : string) :
  d <> Decimal.Nil -> Decimal.unorm d = d -> num_end r = true ->
  Json.parse_nat (NilEmpty.string_of_uint d +:+ r) = Some (Z.of_uint d, r).
Proof.
  intros Hn Hu Hr. unfold Json.parse_nat.
  rewrite scan_digits_uint by exact Hr. simpl fst; simpl snd.
  assert (Hf : Json.float_tail r = false).
  { destruct r as [|c r]; [reflexivity|]. simpl in Hr.
    destruct (Json.digit_of c); [discriminate|].
    now apply negb_true_iff in Hr. }
  rewrite Hf.
  destruct d as [|d'|d'|d'|d'|d'|d'|d'|d'|d'|d']; try congruence; try reflexivity.
  apply unorm_D0_inv in Hu. subst d'. reflexivity.
Qed.

Lemma pos_to_uint_norm (p : positive) : Decimal.unorm (Pos.to_uint p) = Pos.to_uint p.
Proof.
  rewrite <- (DecimalPos.Unsigned.to_of (Pos.to_uint p)).
  rewrite DecimalPos.Unsigned.of_to. reflexivity.
Qed.

Lemma parse_nat_pos (p : positive) (r : string) :
  num_end r = true ->
  Json.parse_nat (NilEmpty.string_of_uint (Pos.to_uint p) +:+ r) = Some (Z.pos p, r).
Proof.
  intros Hr. rewrite parse_nat_uint; auto.
  - unfold Z.of_uint. rewrite DecimalPos.Unsigned.of_to. reflexivity.
  - apply DecimalPos.Unsigned.to_uint_nonnil.
  - apply pos_to_uint_norm.
Qed.

Lemma is_digit_value_start c : is_digit c = true -> value_start c = true.
Proof. destruct c as [[] [] [] [] [] [] [] []]; vm_compute; congruence. Qed.

Lemma parse_value_digit f c t :
  is_digit c = true ->
  Json.parse_value (S f) (String c t)
  = (p ← Json.parse_nat (String c t); Some (JInt (fst p), snd p)).
Proof.
  destruct c as [[] [] [] [] [] [] [] []]; intros H;
    try (vm_compute in H; discriminate H); reflexivity.
Qed.

Lemma uint_head (d : Decimal.uint) :
  d <> Decimal.Nil ->
  exists c t, NilEmpty.string_of_uint d = String c t /\ is_digit c = true.
Proof.
  destruct d; intros H; try congruence; simpl; eexists _, _; split; reflexivity.
Qed.

Lemma str_of_Z_head (z : Z) :
  exists c t, Text.str_of_Z z = String c t /\ value_start c = true.
Proof.
  destruct z as [|p|p]; unfold Text.str_of_Z; simpl Z.to_int.
  - eexists _, _; split; reflexivity.
  - unfold NilZero.string_of_int, NilZero.string_of_uint.
    destruct (uint_head (Pos.to_uint p)) as (c & t & E & Hc).
    { apply DecimalPos.Unsigned.to_uint_nonnil. }
    destruct (Pos.to_uint p) eqn:Ep;
      try (exists c, t; split; [exact E | now apply is_digit_value_start]).
    now apply DecimalPos.Unsigned.to_uint_nonnil in Ep.
  - unfold NilZero.string_of_int. eexists _, _; split; reflexivity.
Qed.

Lemma parse_value_int f z r :
  num_end r = true ->
  Json.parse_value (S f) (Text.str_of_Z z +:+ r) = Some (JInt z, r).
Proof.
  intros Hr. destruct z as [|p|p]; unfold Text.str_of_Z; simpl Z.to_int.
  - change (NilZero.string_of_int (Decimal.Pos (Decimal.D0 Decimal.Nil)))
      with (NilEmpty.string_of_uint (Decimal.D0 Decimal.Nil)).
    change (NilEmpty.string_of_uint (Decimal.D0 Decimal.Nil) +:+ r)
      with (String "0" r) at 1.
    rewrite parse_value_digit by reflexivity.
    change (String "0" r) with (NilEmpty.string_of_uint (Decimal.D0 Decimal.Nil) +:+ r).
    rewrite parse_nat_uint; [reflexivity | congruence | reflexivity | exact Hr].
  - assert (E : NilZero.string_of_int (Decimal.Pos (Pos.to_uint p))
                = NilEmpty.string_of_uint (Pos.to_uint p)).
    { unfold NilZero.string_of_int, NilZero.string_of_uint.
      destruct (Pos.to_uint p) eqn:Ep; try reflexivity.
      now apply DecimalPos.Unsigned.to_uint_nonnil in Ep. }
    rewrite E.
    destruct (uint_head (Pos.to_uint p)) as (c & t & Ec & Hc).
    { apply DecimalPos.Unsigned.to_uint_nonnil. }
    pose proof (parse_nat_pos p r Hr) as Hp.
    rewrite Ec in *. rewrite sapp_cons in *.
    rewrite parse_value_digit by exact Hc. rewrite Hp. reflexivity.
  - assert (E : NilZero.string_of_int (Decimal.Neg (Pos.to_uint p))
                = String "-" (NilEmpty.string_of_uint (Pos.to_uint p))).
    { unfold NilZero.string_of_int, NilZero.string_of_uint.
      destruct (Pos.to_uint p) eqn:Ep; try reflexivity.
      now apply DecimalPos.Unsigned.to_uint_nonnil in Ep. }
    rewrite E, sapp_cons.
    change (Json.parse_value (S f) (String "-" (NilEmpty.string_of_uint (Pos.to_uint p) +:+ r)))
      with (p0 ← Json.parse_nat (NilEmpty.string_of_uint (Pos.to_uint p) +:+ r);
            Some (JInt (- fst p0), snd p0)).
    rewrite parse_nat_pos by exact Hr. reflexivity.
Qed.

Lemma dumps_arr l : Json.dumps (JArr l) = "[" +:+ dumps_elems l +:+ "]".
Proof. reflexivity. Qed.

Lemma dumps_obj d : Json.dumps (JObj d) = "{" +:+ dumps_members d +:+ "}".
Proof. reflexivity. Qed.

Lemma dumps_head (v : json) :
  exists c t, Json.dumps v = String c t /\ value_start c = true.
Proof.
  destruct v as [|[]|z|s|l|d]; try (eexists _, _; split; reflexivity).
  apply str_of_Z_head.
Qed.

Lemma dumps_elems_head x l :
  exists c t, dumps_elems (x :: l) = String c t /\ value_start c = true.
Proof.
  destruct (dumps_head x) as (c & t & E & Hc).
  destruct l as [|y l].
  - exists c, t. split; [exact E | exact Hc].
  - exists c, (t +:+ ", " +:+ dumps_elems (y :: l)). split; [|exact Hc].
    change (dumps_elems (x :: y :: l))
      with (Json.dumps x +:+ ", " +:+ dumps_elems (y :: l)).
    rewrite E. reflexivity.
Qed.

Lemma skip_ws_start c t : value_start c = true -> Json.skip_ws (String c t) = String c t.
Proof.
  unfold value_start. intros H. simpl.
  destruct (Json.is_ws c); [discriminate | reflexivity].
Qed.

Lemma parse_value_arr f c t :
  value_start c = true ->
  Json.parse_value (S f) (String "[" (String c t))
  = (p ← Json.parse_elems f (String c t); Some (JArr (fst p), snd p)).
Proof.
  unfold value_start. intros H.
  destruct (Json.is_ws c) eqn:E1; [discriminate|].
  destruct (Ascii.eqb c "]") eqn:E2; [discriminate|].
  simpl. rewrite E1, E2. reflexivity.
Qed.

Lemma parse_value_obj f c t :
  value_start c = true ->
  Json.parse_value (S f) (String "{" (String c t))
  = (p ← Json.parse_members f (String c t);
     Some (JObj (Dict.of_pairs (fst p)), snd p)).
Proof.
  unfold value_start. intros H.
  destruct (Json.is_ws c) eqn:E1; [discriminate|].
  destruct (Ascii.eqb c "]") eqn:E2; [discriminate|].
  destruct (Ascii.eqb c "}") eqn:E3; [discriminate|].
  simpl. rewrite E1, E3. reflexivity.
Qed.

Lemma parse_elems_eq f s :
  Json.parse_elems (S f) s
  = (p ← Json.parse_value f s;
     match Json.skip_ws (snd p) with
     | String "]" r => Some ([fst p], r)
     | String "," r =>
       q ← Json.parse_elems f (Json.skip_ws r); Some (fst p :: fst q, snd q)
     | _ => None
     end).
Proof. reflexivity. Qed.

Lemma dumps_length_pos v : (1 <= String.length (Json.dumps v))%nat.
Proof.
  destruct (dumps_head v) as (c & t & E & _). rewrite E. simpl. lia.
Qed.

Lemma parse_elems_dumps (l : list json) :
  Forall roundtrips l -> l <> [] ->
  forall f r, (1 + String.length (dumps_elems l) <= f)%nat ->
    Json.parse_elems f (dumps_elems l +:+ String "]" r) = Some (l, r).
Proof.
  induction 1 as [|x l Hx Hl IH]; [congruence|]. intros _ f r Hf.
  destruct f as [|f]; [lia|]. rewrite parse_elems_eq.
  destruct l as [|y l].
  - change (dumps_elems [x]) with (Json.dumps x) in *.
    rewrite (Hx f (String "]" r)); [reflexivity | lia | reflexivity].
  - change (dumps_elems (x :: y :: l))
      with (Json.dumps x +:+ ", " +:+ dumps_elems (y :: l)) in *.
    rewrite !sapp_length in Hf. change (String.length ", ") with 2%nat in Hf.
    rewrite !sapp_assoc.
    rewrite (Hx f); [| lia | reflexivity].
    assert (Hs : Json.skip_ws (dumps_elems (y :: l) +:+ String "]" r)
                 = dumps_elems (y :: l) +:+ String "]" r).
    { destruct (dumps_elems_head y l) as (c & t & E & Hc).
      rewrite E, sapp_cons. now apply skip_ws_start. }
    specialize (IH ltac:(congruence) f r ltac:(lia)).
    remember (dumps_elems (y :: l) +:+ String "]" r) as T eqn:ET.
    change (", " +:+ T) with (String "," (String " " T)).
    simpl. rewrite Hs, IH. reflexivity.
Qed.

Lemma sapp_nil_r (a : string) : a +:+ EmptyString = a.
Proof.
  induction a as [|x a IH]; [reflexivity|]. rewrite sapp_cons. now rewrite IH.
Qed.

Lemma quote_app (k X : string) :
  Json.quote k +:+ X = String Json.dquote (Json.escape k +:+ String Json.dquote X).
Proof. unfold Json.quote. rewrite sapp_cons, sapp_assoc. reflexivity. Qed.

Lemma dumps_members_head kv d :
  exists t, dumps_members (kv :: d) = String Json.dquote t.
Proof.
  destruct d as [|kv' d].
  - change (dumps_members [kv])
      with (Json.quote (fst kv) +:+ ": " +:+ Json.dumps (snd kv)).
    rewrite quote_app. eauto.
  - change (dumps_members (kv :: kv' :: d))
      with (Json.quote (fst kv) +:+ ": " +:+ Json.dumps (snd kv) +:+ ", "
            +:+ dumps_members (kv' :: d)).
    rewrite quote_app. eauto.
Qed.

Lemma parse_members_eq f t :
  Json.parse_members (S f) (String Json.dquote t)
  = (k ← Json.parse_str t;
     match Json.skip_ws (snd k) with
     | String ":" r1 =>
       p ← Json.parse_value f (Json.skip_ws r1);
       match Json.skip_ws (snd p) with
       | String "}" r => Some ([(fst k, fst p)], r)
       | String "," r =>
         q ← Json.parse_members f (Json.skip_ws r);
         Some ((fst k, fst p) :: fst q, snd q)
       | _ => None
       end
     | _ => None
     end).
Proof. reflexivity. Qed.

Lemma skip_ws_dumps v r : Json.skip_ws (Json.dumps v +:+ r) = Json.dumps v +:+ r.
Proof.
  destruct (dumps_head v) as (c & t & E & Hc).
  rewrite E, sapp_cons. now apply skip_ws_start.
Qed.

Lemma parse_members_dumps (d : list (string * json)) :
  Forall (fun kv => roundtrips (snd kv)) d -> d <> [] ->
  forall f r, (1 + String.length (dumps_members d) <= f)%nat ->
    Json.parse_members f (dumps_members d +:+ String "}" r) = Some (d, r).
Proof.
  induction 1 as [|[k v] d Hx Hd IH]; [congruence|]. intros _ f r Hf.
  destruct f as [|f]; [lia|]. simpl snd in Hx.
  destruct d as [|kv' d].
  - change (dumps_members [(k, v)])
      with (Json.quote k +:+ ": " +:+ Json.dumps v) in *.
    rewrite !sapp_length in Hf.
    rewrite !sapp_assoc, quote_app, parse_members_eq, parse_str_escape.
    remember (Json.dumps v +:+ String "}" r) as T eqn:ET.
    change (": " +:+ T) with (String ":" (String " " T)).
    simpl. rewrite ET, skip_ws_dumps.
    rewrite (Hx f); [reflexivity | lia | reflexivity].
  - change (dumps_members ((k, v) :: kv' :: d))
      with (Json.quote k +:+ ": " +:+ Json.dumps v +:+ ", "
            +:+ dumps_members (kv' :: d)) in *.
    rewrite !sapp_length in Hf. change (String.length ", ") with 2%nat in Hf.
    rewrite !sapp_assoc, quote_app, parse_members_eq, parse_str_escape.
    assert (Hs : Json.skip_ws (dumps_members (kv' :: d) +:+ String "}" r)
                 = dumps_members (kv' :: d) +:+ String "}" r).
    { destruct (dumps_members_head kv' d) as (t & E).
      rewrite E, sapp_cons. reflexivity. }
    specialize (IH ltac:(congruence) f r ltac:(lia)).
    remember (dumps_members (kv' :: d) +:+ String "}" r) as T eqn:ET.
    remember (Json.dumps v +:+ ", " +:+ T) as U eqn:EU.
    change (": " +:+ U) with (String ":" (String " " U)).
    simpl. rewrite EU, skip_ws_dumps.
    rewrite (Hx f); [| lia | reflexivity].
    change (", " +:+ T) with (String "," (String " " T)).
    simpl. rewrite Hs, IH. reflexivity.
Qed.

Lemma dict_set_fresh k v (acc : list (string * json)) :
  k ∉ map fst acc -> Dict.set k v acc = acc ++ [(k, v)].
Proof.
  induction acc as [|[k' v'] acc IH]; intros Hk; [reflexivity|].
  simpl in *. apply not_elem_of_cons in Hk as [Hne Hk].
  destruct (String.eqb_spec k k'); [congruence|]. now rewrite IH.
Qed.

Lemma dict_fold_nodup (ps acc : list (string * json)) :
  NoDup (map fst (acc ++ ps)) ->
  fold_left (fun d kv => Dict.set (fst kv) (snd kv) d) ps acc = acc ++ ps.
Proof.
  revert acc. induction ps as [|[k v] ps IH]; intros acc Hn; simpl.
  - now rewrite app_nil_r.
  - rewrite dict_set_fresh.
    + rewrite IH; rewrite <- app_assoc; [reflexivity | exact Hn].
    + rewrite map_app in Hn. apply NoDup_app in Hn as (_ & Hn & _).
      intros Hin. apply (Hn k Hin). simpl. left.
Qed.

Lemma dict_of_pairs_nodup (d : list (string * json)) :
  NoDup (map fst d) -> Dict.of_pairs d = d.
Proof. intros H. unfold Dict.of_pairs. now rewrite dict_fold_nodup. Qed.

Lemma wf_arr l : wf_json (JArr l) -> Forall wf_json l.
Proof.
  induction l as [|x l IH]; [constructor|].
  intros [Hx Hl]. constructor; [exact Hx | exact (IH Hl)].
Qed.

Lemma wf_obj d :
  wf_json (JObj d) -> NoDup (map fst d) /\ Forall (fun kv => wf_json (snd kv)) d.
Proof.
  intros [Hn Hd]. split; [exact Hn|]. clear Hn.
  induction d as [|x d IH]; [constructor|].
  destruct Hd as [Hx Hd]. constructor; [exact Hx | exact (IH Hd)].
Qed.

Lemma parse_dumps (v : json) : wf_json v -> roundtrips v.
Proof.
  induction v as [|b|z|s|l IH|d IH] using json_ind; intros Hwf f r Hf Hr.
  - destruct f as [|f]; [simpl in Hf; lia | reflexivity].
  - destruct f as [|f]; [destruct b; simpl in Hf; lia | destruct b; reflexivity].
  - destruct f as [|f]; [pose proof (dumps_length_pos (JInt z)); lia|].
    now apply parse_value_int.
  - destruct f as [|f]; [pose proof (dumps_length_pos (JStr s)); lia|].
    change (Json.dumps (JStr s)) with (Json.quote s).
    rewrite quote_app.
    change (Json.parse_value (S f) (String Json.dquote ?t))
      with (p ← Json.parse_str t; Some (JStr (fst p), snd p)).
    rewrite parse_str_escape. reflexivity.
  - rewrite dumps_arr in *. rewrite !sapp_length in Hf.
    destruct f as [|f]; [simpl in Hf; lia|].
    destruct l as [|x l]; [reflexivity|].
    apply wf_arr in Hwf.
    assert (Hrt : Forall roundtrips (x :: l)).
    { clear -IH Hwf. induction IH; inversion Hwf; subst; constructor; auto. }
    rewrite !sapp_assoc.
    change ("]" +:+ r) with (String "]" r).
    change ("[" +:+ ?X) with (String "[" X).
    destruct (dumps_elems_head x l) as (c & t & E & Hc).
    pose proof (parse_elems_dumps (x :: l) Hrt ltac:(congruence) f r) as Hp.
    rewrite E in *. rewrite sapp_cons in *.
    rewrite parse_value_arr by exact Hc.
    rewrite Hp; [reflexivity|]. simpl in Hf |- *. lia.
  - rewrite dumps_obj in *. rewrite !sapp_length in Hf.
    destruct f as [|f]; [simpl in Hf; lia|].
    destruct d as [|kv d]; [reflexivity|].
    apply wf_obj in Hwf as [Hn Hwf].
    assert (Hrt : Forall (fun kv => roundtrips (snd kv)) (kv :: d)).
    { clear -IH Hwf. induction IH; inversion Hwf; subst; constructor; auto. }
    rewrite !sapp_assoc.
    change ("}" +:+ r) with (String "}" r).
    change ("{" +:+ ?X) with (String "{" X).
    destruct (dumps_members_head kv d) as (t & E).
    pose proof (parse_members_dumps (kv :: d) Hrt ltac:(congruence) f r) as Hp.
    rewrite E in *. rewrite sapp_cons in *.
    rewrite parse_value_obj by reflexivity.
    rewrite Hp; [|simpl in Hf |- *; lia].
    simpl. now rewrite dict_of_pairs_nodup.
Qed.

Theorem loads_dumps (v : json) : wf_json v -> Json.loads (Json.dumps v) = Some v.
Proof.
  intros Hwf. unfold Json.loads.
  rewrite <- (sapp_nil_r (Json.dumps v)) at 2.
  rewrite skip_ws_dumps, sapp_nil_r.
  rewrite <- (sapp_nil_r (Json.dumps v)) at 2.
  rewrite (parse_dumps v Hwf); [reflexivity | lia | reflexivity].
Qed.

(** ** Wire codec *)

Lemma code_chr (x : Z) : 0 <= x < 256 -> Text.code (Text.chr x) = x.
Proof.
  intros H. unfold Text.code, Text.chr.
  rewrite N_ascii_embedding; lia.
Qed.

Lemma pack_u32_spec (n : Z) (h : bytes) :
  Protocol.pack_u32 n = Some h -> length h = 4%nat /\ Protocol.unpack_u32 h = n.
Proof.
  unfold Protocol.pack_u32. intros H.
  destruct ((0 <=? n) && (n <? 2 ^ 32)) eqn:E; [|discriminate].
  apply andb_true_iff in E as [H0 H1]. apply Z.leb_le in H0. apply Z.ltb_lt in H1.
  injection H as <-. split; [reflexivity|].
  unfold Protocol.unpack_u32. simpl fold_left.
  rewrite !code_chr.
  - change (2 ^ 24) with 16777216. change (2 ^ 16) with 65536. change (2 ^ 8) with 256.
    Z.div_mod_to_equations. lia.
  - apply Z.mod_pos_bound. lia.
  - apply Z.mod_pos_bound. lia.
  - apply Z.mod_pos_bound. lia.
  - split; [apply Z.div_pos; lia | apply Z.div_lt_upper_bound; lia].
Qed.

Lemma decode_encode_char (c : ascii) (s : string) :
  Text.decode_utf8 (Text.encode_utf8 (String c s))
  = String c <$> Text.decode_utf8 (Text.encode_utf8 s).
Proof. destruct c as [[] [] [] [] [] [] [] []]; reflexivity. Qed.

Lemma decode_encode_utf8 (s : string) :
  Text.decode_utf8 (Text.encode_utf8 s) = Some s.
Proof.
  induction s as [|c s IH]; [reflexivity|].
  rewrite decode_encode_char, IH. reflexivity.
Qed.

Lemma encode_utf8_nonempty (c : ascii) (s : string) :
  Text.encode_utf8 (String c s) <> [].
Proof. simpl. destruct (Text.code c <? 128); discriminate. Qed.

Lemma recv_exact_app (a b : bytes) :
  Protocol.recv_exact (a ++ b) (length a) = (Some a, b).
Proof.
  unfold Protocol.recv_exact.
  rewrite length_app.
  destruct (Nat.leb_spec (length a) (length a + length b)); [|lia].
  rewrite take_app_length, drop_app_length. reflexivity.
Qed.

(** C7. Encoding a record with the wire codec and decoding the framed
    bytes yields the original record, whatever follows the frame on the
    stream; the payload after the four-byte prefix is the serialized
    record, and the big-endian prefix equals its byte length. *)
Theorem send_recv_roundtrip (m : json) (framed rest : bytes) :
  wf_json m ->
  Protocol.send_message m = Some framed ->
  Protocol.recv_message (framed ++ rest) = (Protocol.RecvMsg m, rest)
  /\ drop 4 framed = Text.encode_utf8 (Json.dumps m)
  /\ Protocol.unpack_u32 (take 4 framed) = Z.of_nat (length (drop 4 framed)).
Proof.
  intros Hwf Hsend. unfold Protocol.send_message in Hsend.
  destruct (Protocol.pack_u32 _) as [h|] eqn:Hp; [|discriminate].
  simpl in Hsend. injection Hsend as <-.
  apply pack_u32_spec in Hp as [Hlen Hun].
  assert (Ht : take 4 (h ++ Text.encode_utf8 (Json.dumps m)) = h).
  { rewrite <- Hlen. apply take_app_length. }
  assert (Hd : drop 4 (h ++ Text.encode_utf8 (Json.dumps m))
               = Text.encode_utf8 (Json.dumps m)).
  { rewrite <- Hlen. apply drop_app_length. }
  rewrite Ht, Hd. split; [|split; [reflexivity | exact Hun]].
  unfold Protocol.recv_message, Protocol.HEADER_SIZE.
  rewrite <- app_assoc. rewrite <- Hlen at 1. rewrite recv_exact_app.
  destruct h as [|h0 h]; [discriminate|].
  cbn [Protocol.falsy default from_option id]. rewrite Hun, Nat2Z.id, recv_exact_app.
  destruct (dumps_head m) as (c & t & E & _).
  pose proof (decode_encode_utf8 (Json.dumps m)) as Hde.
  pose proof (loads_dumps m Hwf) as Hld.
  rewrite E in *.
  destruct (Text.encode_utf8 (String c t)) as [|p0 p] eqn:Ee.
  { now apply encode_utf8_nonempty in Ee. }
  cbn [Protocol.falsy default from_option id]. rewrite Hde. simpl. rewrite Hld. reflexivity.
Qed.

Lemma wf_sample_msg : wf_json sample_msg.
Proof.
  simpl. repeat split; apply (bool_decide_unpack _); reflexivity.
Qed.

Lemma send_recv_roundtrip_witness :
  wf_json sample_msg /\
  Protocol.send_message sample_msg = Some sample_frame /\
  Protocol.recv_message (sample_frame ++ []) = (Protocol.RecvMsg sample_msg, []).
Proof.
  split; [exact wf_sample_msg|]. split; [vm_compute; reflexivity|].
  apply (send_recv_roundtrip sample_msg sample_frame []).
  - exact wf_sample_msg.
  - vm_compute; reflexivity.
Defined.

Lemma falsy_header (h : bytes) : length h = 4%nat -> Protocol.falsy (Some h) = false.
Proof. destruct h; [discriminate | reflexivity]. Qed.

(** C5, as amended. A stream that ends before any length byte, inside the
    length, or inside the payload makes [recv_message] return [None]: the
    same outcome in the three cases, with nothing left to read. *)
Theorem recv_message_short_read (s : bytes) :
  s = [] \/ Protocol.truncated s ->
  Protocol.recv_message s = (Protocol.RecvNone, []).
Proof.
  intros [-> | [Hlen | [Hlen Hpay]]]; [reflexivity | |].
  - unfold Protocol.recv_message, Protocol.recv_exact, Protocol.HEADER_SIZE.
    destruct (Nat.leb_spec 4 (length s)); [lia | reflexivity].
  - unfold Protocol.recv_message, Protocol.HEADER_SIZE.
    unfold Protocol.recv_exact at 1.
    destruct (Nat.leb_spec 4 (length s)); [|lia].
    rewrite falsy_header by (rewrite length_take; lia).
    cbn [default from_option id].
    unfold Protocol.recv_exact. rewrite length_drop.
    destruct (Nat.leb_spec (Z.to_nat (Protocol.unpack_u32 (take 4 s))) (length s - 4));
      [lia | reflexivity].
Qed.

Lemma recv_message_short_read_witness :
  Protocol.truncated [Text.chr 0; Text.chr 0; Text.chr 0; Text.chr 9; Text.chr 123] /\
  Protocol.recv_message [Text.chr 0; Text.chr 0; Text.chr 0; Text.chr 9; Text.chr 123]
  = (Protocol.RecvNone, []).
Proof.
  assert (H : Protocol.truncated
                [Text.chr 0; Text.chr 0; Text.chr 0; Text.chr 9; Text.chr 123]).
  { right. split; [simpl; lia | vm_compute; reflexivity]. }
  split; [exact H|].
  apply recv_message_short_read. right. exact H.
Defined.

(** C5 fails as stated: a peer that closes after two length bytes, or
    inside the payload, is not told apart from a peer that closed before
    sending anything. *)
Lemma recv_message_mid_frame_counterexample :
  Protocol.truncated [Text.chr 0; Text.chr 0] /\
  fst (Protocol.recv_message [Text.chr 0; Text.chr 0])
  = fst (Protocol.recv_message []) /\
  Protocol.truncated [Text.chr 0; Text.chr 0; Text.chr 0; Text.chr 9; Text.chr 123] /\
  fst (Protocol.recv_message
         [Text.chr 0; Text.chr 0; Text.chr 0; Text.chr 9; Text.chr 123])
  = fst (Protocol.recv_message []).
Proof.
  split; [left; simpl; lia|]. split; [reflexivity|].
  split; [right; split; [simpl; lia | vm_compute; reflexivity] | reflexivity].
Qed.

(** ** Sandbox *)

(** C1, evaluated at the failing input. With the shared root [/srv/share],
    the request path [../share2/secret.txt] resolves to
    [/srv/share2/secret.txt], which is outside the root; the sandbox test
    accepts it, because the text of the root is a prefix of the text of
    the target, and DOWNLOAD returns the content of the outside file. *)
Theorem sandbox_accepts_sibling_folder :
  let target := resolve sample_root (Text.lstrip_slash "../share2/secret.txt") in
  target = "/srv/share2/secret.txt"
  /\ sandbox_ok sample_root target = true
  /\ ~ Posixpath.inside sample_root target
  /\ (exists r, Reader._read_file sample_fs sample_root (JStr "../share2/secret.txt")
                = Py.Ok r
                /\ w_status r = "ok"
                /\ w_data r = Some (list_ascii_of_string "secret")).
Proof.
  cbv zeta. split; [reflexivity|]. split; [reflexivity|]. split.
  - unfold Posixpath.inside. intros [k Hk]. vm_compute in Hk. discriminate Hk.
  - eexists. split; [vm_compute; reflexivity|]. split; reflexivity.
Qed.

(** ** CUT *)

Lemma child_name_Some (d k : list string) (n : string) :
  Fs.child_name d k = Some n -> k = d ++ [n].
Proof.
  unfold Fs.child_name. destruct (reverse k) as [|m r] eqn:E; [discriminate|].
  destruct (decide (reverse r = d)) as [<-|]; [|discriminate].
  intros [= ->]. rewrite <- (reverse_involutive k), E, reverse_cons. reflexivity.
Qed.

Lemma listdir_names (fs : Fs.t) (p : string) (names : list string) (n : string) :
  Fs.listdir fs p = Py.Ok names -> n ∈ names -> is_Some (fs !! (Fs.key p ++ [n])).
Proof.
  unfold Fs.listdir. destruct (fs !! Fs.key p) as [[|]|]; try discriminate.
  intros [= <-] Hn. apply list_elem_of_omap in Hn as ([k x] & Hin & Hc).
  apply elem_of_map_to_list in Hin. apply child_name_Some in Hc. simpl in Hc.
  subst k. eauto.
Qed.

Lemma entry_names_map (fs : Fs.t) (target : string) (names : list string) :
  entry_names (map (Reader.entry fs target) names) = names.
Proof.
  induction names as [|n names IH]; [reflexivity|].
  change (entry_names (map (Reader.entry fs target) (n :: names)))
    with (n :: entry_names (map (Reader.entry fs target) names)).
  now rewrite IH.
Qed.

Lemma list_files_names (fs : Fs.t) (shared d : string) (r : wresult)
  (es : list json) (n : string) :
  Reader._list_files fs shared (JStr d) = Py.Ok r ->
  w_entries r = Some es -> n ∈ entry_names es ->
  is_Some (fs !! (Fs.key (list_target shared d) ++ [n])).
Proof.
  unfold Reader._list_files, list_target.
  destruct (String.eqb d "/" || String.eqb d "" || String.eqb d ".");
    cbn [lstrip_path].
  all: destruct (negb (sandbox_ok _ _)); [intros [= <-]; discriminate|].
  all: destruct (negb (Fs.isdir _ _)); [intros [= <-]; discriminate|].
  all: destruct (Fs.listdir _ _) as [names|] eqn:El; [|discriminate].
  all: intros [= <-] [= <-] Hn; rewrite entry_names_map in Hn.
  all: apply (listdir_names _ _ _ _ El).
  all: unfold Fs.sorted in Hn; now rewrite merge_sort_Permutation in Hn.
Qed.

(** C6. When [p] passes the sandbox test and names a regular file with
    content [content], CUT answers ok with that content and its length and
    removes the file: a following DOWNLOAD of [p] answers not found and no
    following listing of a directory shows the file.  Otherwise CUT answers
    an error and leaves the file system as it was. *)
Theorem cut_file_spec (fs : Fs.t) (shared p : string) :
  let rel := Text.lstrip_slash p in
  let target := resolve shared rel in
  (forall content,
      sandbox_ok shared target = true ->
      fs !! Fs.key target = Some (Fs.File content) ->
      let fs' := delete (Fs.key target) fs in
      Writer._cut_file fs shared (JStr p) = (fs', Py.Ok (cut_result rel content))
      /\ Reader._read_file fs' shared (JStr p)
         = Py.Ok (error_result ("Archivo no encontrado: " +:+ rel))
      /\ (forall d r es n,
             Reader._list_files fs' shared (JStr d) = Py.Ok r ->
             w_entries r = Some es -> n ∈ entry_names es ->
             Fs.key (list_target shared d) ++ [n] <> Fs.key target))
  /\ (~ (sandbox_ok shared target = true /\ Fs.isfile fs target = true) ->
      exists msg, Writer._cut_file fs shared (JStr p) = (fs, Py.Ok (error_result msg))).
Proof.
  intros rel target. split.
  - intros content Hs Hf fs'. split; [|split].
    + unfold Writer._cut_file. cbn [lstrip_path]. fold rel. fold target.
      rewrite Hs. cbn [negb]. unfold Fs.isfile, Fs.read_bytes, Fs.remove.
      rewrite Hf. reflexivity.
    + unfold Reader._read_file. cbn [lstrip_path]. fold rel. fold target.
      rewrite Hs. cbn [negb]. unfold Fs.isfile, fs'.
      rewrite lookup_delete_eq. reflexivity.
    + intros d r es n Hl He Hn Hk.
      destruct (list_files_names _ _ _ _ _ _ Hl He Hn) as [x Hx].
      rewrite Hk in Hx. unfold fs' in Hx. rewrite lookup_delete_eq in Hx.
      discriminate.
  - intros Hno. unfold Writer._cut_file. cbn [lstrip_path]. fold rel. fold target.
    destruct (sandbox_ok shared target) eqn:Hs; cbn [negb]; [|eauto].
    destruct (Fs.isfile fs target) eqn:Hf; cbn [negb]; [|eauto].
    exfalso. apply Hno. split; reflexivity.
Qed.

Lemma cut_file_spec_witness :
  let fs' := delete ["srv"; "share"; "a.txt"] sample_fs in
  Writer._cut_file sample_fs sample_root (JStr "/a.txt")
  = (fs', Py.Ok (cut_result "a.txt" (list_ascii_of_string "hello")))
  /\ Reader._read_file fs' sample_root (JStr "/a.txt")
     = Py.Ok (error_result "Archivo no encontrado: a.txt")
  /\ exists msg, Writer._cut_file sample_fs sample_root (JStr "docs")
                 = (sample_fs, Py.Ok (error_result msg)).
Proof.
  pose proof (cut_file_spec sample_fs sample_root "/a.txt") as [H1 _].
  pose proof (cut_file_spec sample_fs sample_root "docs") as [_ H2].
  specialize (H1 (list_ascii_of_string "hello") eq_refl eq_refl) as (Ha & Hb & _).
  split; [exact Ha|]. split; [exact Hb|].
  apply H2. intros [_ Hf]. vm_compute in Hf. discriminate Hf.
Defined.

(** ** Worker loops *)



Lemma writer_serve_ids shared (reqs : list request) :
  forall fs, Forall2 (fun rq r => w_id r = rq_id rq) reqs
               (snd (writer_serve fs shared reqs)).
Proof.
  induction reqs as [|rq reqs IH]; intros fs; simpl; [constructor|].
  destruct (Writer.step fs shared rq) as [fs1 r] eqn:Es.
  specialize (IH fs1). destruct (writer_serve fs1 shared reqs) as [fs2 rs].
  simpl in *. constructor; [|exact IH].
  unfold Writer.step in Es. destruct (Writer.dispatch _ _ _ _ _).
  injection Es as _ <-. reflexivity.
Qed.


Example writer_catches_exception :
  snd (Writer.step sample_fs sample_root
         {| rq_id := Some "req-7"; rq_action := Some "upload";
            rq_path := Some (JStr "a.txt/z.txt"); rq_data := Some [] |})
  = stamp (Some "req-7") "UPLOAD"
      (error_result "Error interno: [Errno 17] File exists: '/srv/share/a.txt'").
Proof. vm_compute. reflexivity. Qed.

Example reader_catches_exception :
  Reader.step sample_fs sample_root
    {| rq_id := Some "req-8"; rq_action := Some "LIST";
       rq_path := Some (JInt 5); rq_data := None |}
  = stamp (Some "req-8") "LIST"
      (error_result "Error interno: 'int' object has no attribute 'lstrip'").
Proof. vm_compute. reflexivity. Qed.

(** ** Connection session *)

Import Server.

Lemma last_status_write (st : session) (d : list (string * json)) :
  last_status (write st (OutMsg (JObj d))) = Dict.get "status" d.
Proof. unfold last_status, write. simpl. now rewrite last_snoc. Qed.

(** C4 fails as stated: a handshake whose name is the empty string is
    answered with status ok and the session enters the command loop. *)
Lemma handshake_empty_name_counterexample :
  last_status
    <$> proceeded (handshake (connect (frame (JObj [("name", JStr "")])) sample_fs))
  = Some (Some (JStr "ok")).
Proof. vm_compute. reflexivity. Qed.

(** C4, as amended. The session enters the command loop only after the
    reply with status ok, and it does so exactly when the handshake message
    is a dict with the key [name], whatever the value of the name; in the
    other cases nothing is written. *)
Theorem handshake_proceeds_iff (st : session) :
  (forall st', handshake st = Proceed st' ->
     last_status st' = Some (JStr "ok")
     /\ exists d name,
         fst (Protocol.recv_message (s_in st)) = Protocol.RecvMsg (JObj d)
         /\ Dict.get "name" d = Some name
         /\ s_out st' = s_out st ++ [OutMsg (welcome name)])
  /\ (forall d name,
        fst (Protocol.recv_message (s_in st)) = Protocol.RecvMsg (JObj d) ->
        Dict.get "name" d = Some name ->
        exists st', handshake st = Proceed st')
  /\ (forall st', (handshake st = Refused st' \/ exists e, handshake st = Crashed st' e) ->
        s_out st' = s_out st).
Proof.
  unfold handshake. destruct (Protocol.recv_message (s_in st)) as [r rest].
  split; [|split].
  - intros st' H. destruct r as [|msg|]; try discriminate.
    destruct (negb (Py.truthy msg)); [discriminate|].
    destruct (name_in msg) as [[|]|] eqn:En; try discriminate.
    destruct (get_name msg) as [name|] eqn:Eg; [|discriminate].
    injection H as <-. split; [apply last_status_write|].
    destruct msg as [| | | |l|d]; try discriminate.
    exists d, name. split; [reflexivity|]. split; [|reflexivity].
    simpl in Eg. destruct (Dict.get "name" d); [now injection Eg as -> | discriminate].
  - simpl. intros d name -> Hn.
    destruct d as [|kv d]; [discriminate|]. cbn [Py.truthy negb name_in].
    unfold Dict.mem, get_name. rewrite Hn. eauto.
  - intros st' [H | [e H]].
    + destruct r as [|msg|]; try discriminate; [now injection H as <-|].
      destruct (negb (Py.truthy msg)); [now injection H as <-|].
      destruct (name_in msg) as [[|]|]; try discriminate;
        [destruct (get_name msg); discriminate | now injection H as <-].
    + destruct r as [|msg|]; try discriminate; [|now injection H as <- _].
      destruct (negb (Py.truthy msg)); [discriminate|].
      destruct (name_in msg) as [[|]|]; try discriminate;
        [destruct (get_name msg); [discriminate | now injection H as <- _]
        | now injection H as <- _].
Qed.

Lemma handshake_proceeds_iff_witness :
  exists st',
    handshake (connect (frame (JObj [("name", JStr "")])) sample_fs) = Proceed st'.
Proof.
  apply (proj1 (proj2 (handshake_proceeds_iff
                         (connect (frame (JObj [("name", JStr "")])) sample_fs)))
           [("name", JStr "")] (JStr "")).
  - vm_compute. reflexivity.
  - reflexivity.
Defined.

Lemma dict_get_snoc (k k' : string) (v : json) (d : list (string * json)) :
  Dict.get k (d ++ [(k', v)])
  = match Dict.get k d with
    | Some x => Some x
    | None => if String.eqb k k' then Some v else None
    end.
Proof.
  induction d as [|[k0 v0] d IH]; simpl; [reflexivity|].
  destruct (String.eqb k k0); [reflexivity | exact IH].
Qed.

Lemma dict_get_set_ne (k k' : string) (v : json) (d : list (string * json)) :
  String.eqb k k' = false -> Dict.get k (Dict.set k' v d) = Dict.get k d.
Proof.
  intros Hne. induction d as [|[k0 v0] d IH]; simpl.
  - now rewrite Hne.
  - destruct (String.eqb_spec k' k0) as [->|]; simpl.
    + now rewrite Hne.
    + now rewrite IH.
Qed.

Lemma dict_get_set_eq (k : string) (v : json) (d : list (string * json)) :
  Dict.get k (Dict.set k v d) = Some v.
Proof.
  induction d as [|[k0 v0] d IH]; simpl.
  - now rewrite String.eqb_refl.
  - destruct (String.eqb_spec k k0) as [->|Hne]; simpl.
    + now rewrite String.eqb_refl.
    + apply String.eqb_neq in Hne. now rewrite Hne.
Qed.


(** C3 fails as stated: LIST without [path] lists the shared root with
    status ok, and UPLOAD without [size] stores an empty file with status
    ok. *)
Lemma missing_path_counterexample :
  last_status
    <$> continued (command_step sample_root
                     (connect (frame (JObj [("action", JStr "LIST")])) sample_fs))
  = Some (Some (JStr "ok"))
  /\ (fun st => (last_status st, s_fs st !! ["srv"; "share"; "new.txt"]))
       <$> continued (command_step sample_root
                        (connect (frame (JObj [("action", JStr "UPLOAD");
                                               ("path", JStr "new.txt")]))
                           sample_fs))
     = Some (Some (JStr "ok"), Some (Fs.File [])).
Proof. split; vm_compute; reflexivity. Qed.

(** C3, as amended. A command without [path] is handled as the same
    command with path ["/"], a command without [size] as the same command
    with size 0; a message without [action] is answered with status error,
    the file system is untouched and the session goes on. *)
Theorem missing_field_defaults (shared : string) (st : session) (d : list (string * json)) :
  (Dict.get "path" d = None ->
     handle_command shared st (JObj d)
     = handle_command shared st (JObj (d ++ [("path", JStr "/")])))
  /\ (Dict.get "size" d = None ->
        handle_command shared st (JObj d)
        = handle_command shared st (JObj (d ++ [("size", JInt 0)])))
  /\ (Dict.get "action" d = None ->
        exists st', handle_command shared st (JObj d) = Continue st'
                    /\ last_status st' = Some (JStr "error")
                    /\ s_fs st' = s_fs st /\ s_in st' = s_in st).
Proof.
  split; [|split].
  - intros Hp. unfold handle_command. rewrite dict_get_snoc.
    change (String.eqb "action" "path") with false.
    assert (Hr : forall a, run_command shared st d a
                           = run_command shared st (d ++ [("path", JStr "/")]) a).
    { intros a. unfold run_command. rewrite !dict_get_snoc, Hp.
      change (String.eqb "path" "path") with true.
      change (String.eqb "size" "path") with false.
      destruct (Dict.get "size" d); reflexivity. }
    destruct (Dict.get "action" d) as [[]|]; try reflexivity; apply Hr.
  - intros Hs. unfold handle_command. rewrite dict_get_snoc.
    change (String.eqb "action" "size") with false.
    assert (Hr : forall a, run_command shared st d a
                           = run_command shared st (d ++ [("size", JInt 0)]) a).
    { intros a. unfold run_command. rewrite !dict_get_snoc, Hs.
      change (String.eqb "path" "size") with false.
      change (String.eqb "size" "size") with true.
      destruct (Dict.get "path" d); reflexivity. }
    destruct (Dict.get "action" d) as [[]|]; try reflexivity; apply Hr.
  - intros Ha. unfold handle_command. rewrite Ha.
    eexists. split; [reflexivity|]. split; [|split; reflexivity].
    apply last_status_write.
Qed.

Lemma missing_field_defaults_witness :
  handle_command sample_root (connect [] sample_fs) (JObj [("action", JStr "LIST")])
  = handle_command sample_root (connect [] sample_fs)
      (JObj [("action", JStr "LIST"); ("path", JStr "/")]).
Proof.
  apply (proj1 (missing_field_defaults sample_root (connect [] sample_fs)
                  [("action", JStr "LIST")])).
  reflexivity.
Defined.



(** *** The command loop ends *)

Lemma recv_exact_length (s : bytes) (n : nat) (raw : option bytes) (rest : bytes) :
  Protocol.recv_exact s n = (raw, rest) ->
  (length rest <= length s)%nat
  /\ (Protocol.falsy raw = false -> length rest < length s)%nat.
Proof.
  unfold Protocol.recv_exact. destruct (Nat.leb_spec n (length s)) as [Hle|Hgt].
  - intros [= <- <-]. rewrite length_drop. split; [lia|].
    destruct (take n s) as [|c t] eqn:Et; [discriminate|]. intros _.
    destruct n; [discriminate Et|]. destruct s; [discriminate Et | simpl; lia].
  - intros [= <- <-]. split; [simpl; lia | discriminate].
Qed.

Lemma recv_message_length (s : bytes) (v : json) (rest : bytes) :
  Protocol.recv_message s = (Protocol.RecvMsg v, rest) ->
  (length rest < length s)%nat.
Proof.
  unfold Protocol.recv_message.
  destruct (Protocol.recv_exact s Protocol.HEADER_SIZE) as [raw s1] eqn:E1.
  apply recv_exact_length in E1 as [_ H1].
  destruct (Protocol.falsy raw); [discriminate|].
  destruct (Protocol.recv_exact s1 _) as [pay s2] eqn:E2.
  apply recv_exact_length in E2 as [H2 _].
  destruct (Protocol.falsy pay); [discriminate|].
  destruct (_ ≫= _); intros [= _ <-]. specialize (H1 eq_refl). lia.
Qed.

Lemma send_to_worker_in (shared : string) (st : session) w action path data :
  s_in (snd (send_to_worker shared st w action path data)) = s_in st.
Proof.
  unfold send_to_worker. destruct w; [reflexivity|].
  now destruct (Writer.step (s_fs st) shared _).
Qed.

Lemma reply_transfer_in (st : session) action r : s_in (reply_transfer st action r) = s_in st.
Proof. unfold reply_transfer. now destruct (String.eqb _ _). Qed.

Lemma run_command_length (shared : string) (st : session) msg action st' :
  run_command shared st msg action = Continue st' ->
  (length (s_in st') <= length (s_in st))%nat.
Proof.
  unfold run_command.
  repeat match goal with
         | |- context [if String.eqb action ?v then _ else _] =>
           destruct (String.eqb action v)
         end.
  - pose proof (send_to_worker_in shared st ReadWorker "LIST" (default (JStr "/") (Dict.get "path" msg)) None) as H.
    destruct (send_to_worker _ _ _ _ _ _) as [r st1]. intros [= <-]. simpl in *. rewrite H. lia.
  - pose proof (send_to_worker_in shared st ReadWorker "DOWNLOAD" (default (JStr "/") (Dict.get "path" msg)) None) as H.
    destruct (send_to_worker _ _ _ _ _ _) as [r st1]. intros [= <-]. simpl in *.
    rewrite reply_transfer_in, H. lia.
  - destruct (readexactly _ _) as [[file_data st1]|] eqn:Er; [|discriminate].
    pose proof (send_to_worker_in shared st1 WriteWorker "UPLOAD" (default (JStr "/") (Dict.get "path" msg)) (Some file_data)) as H.
    destruct (send_to_worker _ _ _ _ _ _) as [r st2]. intros [= <-]. simpl in *.
    rewrite H. unfold readexactly in Er.
    destruct (match default (JInt 0) (Dict.get "size" msg) with JInt z => _ | _ => _ end)
      as [z|]; [|discriminate].
    destruct (z <? 0); [discriminate|].
    destruct (Protocol.recv_exact _ _) as [[dat|] rest] eqn:Ee; [|discriminate].
    injection Er as _ <-. apply recv_exact_length in Ee as [Hl _]. exact Hl.
  - pose proof (send_to_worker_in shared st WriteWorker "DELETE" (default (JStr "/") (Dict.get "path" msg)) None) as H.
    destruct (send_to_worker _ _ _ _ _ _) as [r st1]. intros [= <-]. simpl in *. rewrite H. lia.
  - pose proof (send_to_worker_in shared st WriteWorker "CUT" (default (JStr "/") (Dict.get "path" msg)) None) as H.
    destruct (send_to_worker _ _ _ _ _ _) as [r st1]. intros [= <-]. simpl in *.
    rewrite reply_transfer_in, H. lia.
  - intros [= <-]. simpl. lia.
Qed.

Lemma command_step_length (shared : string) (st st' : session) :
  command_step shared st = Continue st' ->
  (length (s_in st') < length (s_in st))%nat.
Proof.
  unfold command_step.
  destruct (Protocol.recv_message (s_in st)) as [r rest] eqn:Er.
  destruct r as [|msg|]; try discriminate.
  apply recv_message_length in Er.
  destruct msg as [| | | | |d]; try discriminate. unfold handle_command.
  destruct (Dict.get "action" d) as [[]|]; try discriminate;
    intros H; apply run_command_length in H; simpl in H; lia.
Qed.

(** The command loop ends: the fuel given by [handle_client] is enough. *)
Lemma command_loop_total (shared : string) (fuel : nat) : forall st,
  (length (s_in st) < fuel)%nat -> exists st', command_loop fuel shared st = Some st'.
Proof.
  induction fuel as [|fuel IH]; intros st Hf; [lia|]. simpl.
  destruct (command_step shared st) as [st1|st1 e] eqn:Es; [|eauto].
  apply command_step_length in Es. apply IH. lia.
Qed.

Theorem handle_client_total (shared : string) (st : session) :
  exists st', handle_client shared st = Some st'.
Proof.
  unfold handle_client. destruct (handshake st); eauto.
  apply command_loop_total. lia.
Qed.

Example session_scenario :
  option_map s_out
    (handle_client sample_root
       (connect (frame (JObj [("name", JStr "TestBot")])
                 ++ frame (JObj [("action", JStr "FOO")])
                 ++ frame (JObj [("action", JStr "list"); ("path", JStr "docs")]))
          sample_fs))
  = Some [OutMsg (welcome (JStr "TestBot"));
          OutMsg (JObj [("status", JStr "error"); ("message", JStr "Desconocido: FOO")]);
          OutMsg (JObj [("status", JStr "ok"); ("action", JStr "LIST");
                        ("entries", JArr [JObj [("name", JStr "b.txt");
                                                ("is_dir", JBool false);
                                                ("size", JInt 3)]]);
                        ("message", JStr "")])].
Proof. vm_compute. reflexivity. Qed.

(** ** Normalized paths and their components *)

Lemma split_slash_nonempty (p : string) : Text.split_slash p <> [].
Proof.
  destruct p as [|c p]; simpl; [discriminate|].
  destruct (Ascii.eqb c "/"); [discriminate|].
  destruct (Text.split_slash p); discriminate.
Qed.

Lemma split_slash_no_slash (p : string) : Forall no_slash (Text.split_slash p).
Proof.
  induction p as [|c p IH]; simpl.
  - repeat constructor.
  - destruct (Ascii.eqb c "/") eqn:Ec.
    + constructor; [reflexivity | exact IH].
    + destruct (Text.split_slash p) as [|w ws]; [repeat constructor; unfold no_slash; simpl; now rewrite Ec|].
      inversion IH as [|? ? Hw Hws]; subst. constructor; [|exact Hws].
      unfold no_slash in *. simpl. now rewrite Ec, Hw.
Qed.

Lemma split_slash_plain (a : string) : no_slash a -> Text.split_slash a = [a].
Proof.
  unfold no_slash. induction a as [|x a IH]; simpl; [reflexivity|].
  intros H. apply orb_false_iff in H as [Hx Ha]. rewrite Hx, (IH Ha). reflexivity.
Qed.

Lemma split_slash_app (a r : string) :
  no_slash a -> Text.split_slash (a +:+ String "/" r) = a :: Text.split_slash r.
Proof.
  unfold no_slash. induction a as [|x a IH]; intros H.
  - reflexivity.
  - simpl in H. apply orb_false_iff in H as [Hx Ha].
    rewrite sapp_cons. simpl. rewrite Hx, (IH Ha). reflexivity.
Qed.

Lemma join_slash_cons (c w : string) (ws : list string) :
  Text.join_slash (c :: w :: ws) = c +:+ String "/" (Text.join_slash (w :: ws)).
Proof. reflexivity. Qed.

Lemma split_join (cs : list string) :
  Forall no_slash cs -> cs <> [] -> Text.split_slash (Text.join_slash cs) = cs.
Proof.
  induction 1 as [|c cs Hc Hcs IH]; [congruence|]. intros _.
  destruct cs as [|w ws].
  - now apply split_slash_plain.
  - rewrite join_slash_cons, split_slash_app by exact Hc.
    now rewrite IH.
Qed.

Lemma split_slash_snoc (s : string) :
  Text.split_slash (s +:+ "/") = Text.split_slash s ++ [""].
Proof.
  induction s as [|c s IH]; [reflexivity|].
  rewrite sapp_cons. simpl. rewrite IH.
  destruct (Ascii.eqb c "/"); [reflexivity|].
  pose proof (split_slash_nonempty s).
  destruct (Text.split_slash s); [congruence | reflexivity].
Qed.

Lemma good_comp_no_slash (c : string) : good_comp c = true -> no_slash c.
Proof.
  unfold good_comp, no_slash. intros H.
  repeat (apply andb_true_iff in H as [H ?]). now apply negb_true_iff in H.
Qed.

Lemma norm_step_good (acc : list string) (c : string) :
  good_comp c = true -> Posixpath.norm_step true acc c = c :: acc.
Proof.
  unfold good_comp, Posixpath.norm_step. intros H.
  repeat (apply andb_true_iff in H as [H ?]).
  repeat match goal with Hx : negb _ = true |- _ => apply negb_true_iff in Hx end.
  repeat match goal with Hx : String.eqb _ _ = false |- _ => rewrite Hx end.
  reflexivity.
Qed.

Lemma norm_fold_good (cs acc : list string) :
  Forall (fun c => good_comp c = true) cs ->
  fold_left (Posixpath.norm_step true) cs acc = rev cs ++ acc.
Proof.
  intros H. revert acc. induction H as [|c cs Hc Hcs IH]; intros acc; simpl.
  - reflexivity.
  - rewrite norm_step_good by exact Hc. rewrite IH, <- app_assoc. reflexivity.
Qed.

Lemma norm_step_keeps_good (acc : list string) (c : string) :
  no_slash c -> Forall (fun c => good_comp c = true) acc ->
  Forall (fun c => good_comp c = true) (Posixpath.norm_step true acc c).
Proof.
  intros Hc Hacc. unfold Posixpath.norm_step.
  destruct (String.eqb_spec c "") as [->|He]; [exact Hacc|].
  destruct (String.eqb_spec c ".") as [->|Hd]; [exact Hacc|]. cbn [orb].
  destruct (String.eqb_spec c "..") as [->|Hdd]; cbn [negb orb andb].
  - destruct acc as [|a acc]; [constructor|].
    inversion Hacc as [|? ? Ha Hacc']; subst.
    destruct (String.eqb_spec a "..") as [->|]; [discriminate Ha | exact Hacc'].
  - constructor; [|exact Hacc]. unfold good_comp. rewrite Hc.
    apply String.eqb_neq in He, Hd, Hdd. now rewrite He, Hd, Hdd.
Qed.

Lemma norm_fold_keeps_good (cs acc : list string) :
  Forall no_slash cs -> Forall (fun c => good_comp c = true) acc ->
  Forall (fun c => good_comp c = true) (fold_left (Posixpath.norm_step true) cs acc).
Proof.
  intros H. revert acc. induction H as [|c cs Hc Hcs IH]; intros acc Hacc; simpl.
  - exact Hacc.
  - apply IH. now apply norm_step_keeps_good.
Qed.

Lemma norm_comps_good (p : string) :
  Forall (fun c => good_comp c = true) (Posixpath.norm_comps true p).
Proof.
  unfold Posixpath.norm_comps. apply List.Forall_rev.
  apply norm_fold_keeps_good; [apply split_slash_no_slash | constructor].
Qed.

Lemma key_abs (cs : list string) :
  Forall (fun c => good_comp c = true) cs ->
  Fs.key ("/" +:+ Text.join_slash cs) = cs.
Proof.
  intros H. unfold Fs.key, Posixpath.path_key, Posixpath.norm_comps.
  change ("/" +:+ Text.join_slash cs) with (String "/" (Text.join_slash cs)).
  change (Text.split_slash (String "/" (Text.join_slash cs)))
    with ("" :: Text.split_slash (Text.join_slash cs)).
  destruct cs as [|c cs]; [reflexivity|].
  rewrite split_join; [| |discriminate].
  - change (fold_left (Posixpath.norm_step true) ("" :: c :: cs) [])
      with (fold_left (Posixpath.norm_step true) (c :: cs) []).
    rewrite norm_fold_good by exact H. rewrite app_nil_r. apply rev_involutive.
  - eapply Forall_impl; [exact H | apply good_comp_no_slash].
Qed.

Lemma startswith_slash_inv (p : string) :
  Text.startswith p "/" = true -> exists s, p = String "/" s.
Proof.
  destruct p as [|c p]; [discriminate|].
  change (Text.startswith (String c p) "/")
    with (if Ascii.eqb "/" c then true else false).
  destruct (Ascii.eqb_spec "/" c) as [<-|]; [eauto | discriminate].
Qed.

Lemma normpath_abs (p : string) :
  Text.startswith p "/" = true -> Text.startswith p "//" = false ->
  Posixpath.normpath p = "/" +:+ Text.join_slash (Posixpath.norm_comps true p).
Proof.
  intros H1 H2. destruct (startswith_slash_inv p H1) as [s ->].
  unfold Posixpath.normpath, Posixpath.initial_slashes.
  rewrite H1, H2. reflexivity.
Qed.

Lemma lstrip_slash_start (p : string) :
  Text.startswith (Text.lstrip_slash p) "/" = false.
Proof.
  induction p as [|c p IH]; [reflexivity|].
  destruct (Ascii.eqb_spec "/" c) as [<-|Hne]; [exact IH|].
  assert (E : Text.lstrip_slash (String c p) = String c p).
  { destruct c as [[] [] [] [] [] [] [] []]; try reflexivity. congruence. }
  rewrite E.
  change (Text.startswith (String c p) "/")
    with (if Ascii.eqb "/" c then true else false).
  destruct (Ascii.eqb_spec "/" c); [congruence | reflexivity].
Qed.

Lemma startswith_app (a b p : string) :
  (String.length p <= String.length a)%nat ->
  Text.startswith (a +:+ b) p = Text.startswith a p.
Proof.
  revert p. induction a as [|x a IH]; intros p Hl.
  - destruct p; [reflexivity | simpl in Hl; lia].
  - destruct p as [|y p]; [reflexivity|]. rewrite sapp_cons. simpl in *.
    destruct (Ascii.eqb y x); [apply IH; lia | reflexivity].
Qed.

Lemma join_abs (shared rel : string) :
  Text.startswith shared "/" = true -> Text.startswith shared "//" = false ->
  Text.startswith rel "/" = false ->
  Text.startswith (Posixpath.join shared rel) "/" = true
  /\ Text.startswith (Posixpath.join shared rel) "//" = false.
Proof.
  intros H1 H2 Hr. unfold Posixpath.join. rewrite Hr.
  destruct (startswith_slash_inv shared H1) as [s ->].
  destruct s as [|x s].
  - change (String.eqb "/" "" || Text.endswith_slash "/") with true. cbv iota.
    change ("/" +:+ rel) with (String "/" rel).
    split; [reflexivity|].
    change (Text.startswith (String "/" rel) "//") with (Text.startswith rel "/").
    exact Hr.
  - change (String.eqb (String "/" (String x s)) "") with false. cbn [orb].
    destruct (Text.endswith_slash (String "/" (String x s)));
      rewrite !startswith_app by (simpl; lia); auto.
Qed.

(** The target of a request is ["/"] followed by its components. *)
Lemma resolve_abs (shared p : string) :
  Text.startswith shared "/" = true -> Text.startswith shared "//" = false ->
  let target := resolve shared (Text.lstrip_slash p) in
  target = "/" +:+ Text.join_slash (Fs.key target)
  /\ Forall (fun c => good_comp c = true) (Fs.key target).
Proof.
  intros H1 H2 target.
  destruct (join_abs shared (Text.lstrip_slash p) H1 H2 (lstrip_slash_start p))
    as [J1 J2].
  assert (E : target = "/" +:+ Text.join_slash
                         (Posixpath.norm_comps true
                            (Posixpath.join shared (Text.lstrip_slash p)))).
  { unfold target, resolve. now apply normpath_abs. }
  assert (K : Fs.key target
              = Posixpath.norm_comps true (Posixpath.join shared (Text.lstrip_slash p))).
  { rewrite E. apply key_abs, norm_comps_good. }
  rewrite K. split; [exact E | apply norm_comps_good].
Qed.

Lemma head_part_app (a r : string) :
  Posixpath.head_part (a +:+ String "/" r) = a +:+ String "/" (Posixpath.head_part r).
Proof.
  induction a as [|x a IH].
  - rewrite !sapp_nil. simpl. now destruct (Posixpath.head_part r).
  - rewrite !sapp_cons. simpl. rewrite IH.
    destruct a; reflexivity.
Qed.

Lemma head_part_plain (a : string) : no_slash a -> Posixpath.head_part a = "".
Proof.
  unfold no_slash. induction a as [|x a IH]; [reflexivity|]. simpl.
  intros H. apply orb_false_iff in H as [Hx Ha]. now rewrite (IH Ha), Hx.
Qed.

Lemma head_part_join (c : string) (cs : list string) :
  Forall no_slash (c :: cs) ->
  Posixpath.head_part (Text.join_slash (c :: cs))
  = match cs with
    | [] => ""
    | _ => Text.join_slash (removelast (c :: cs)) +:+ "/"
    end.
Proof.
  revert c. induction cs as [|w ws IH]; intros c H.
  - inversion H; subst. now apply head_part_plain.
  - inversion H as [|? ? Hc Hws]; subst.
    rewrite join_slash_cons, head_part_app, (IH w Hws).
    destruct ws as [|v vs]; [reflexivity|].
    change (removelast (c :: w :: v :: vs)) with (c :: removelast (w :: v :: vs)).
    destruct (removelast (w :: v :: vs)) as [|u us] eqn:E.
    + simpl in E. destruct vs; discriminate E.
    + rewrite join_slash_cons. rewrite sapp_assoc. reflexivity.
Qed.

Lemma endswith_slash_app (a : string) (x : ascii) (b : string) :
  Text.endswith_slash (a +:+ String x b) = Text.endswith_slash (String x b).
Proof.
  induction a as [|y a IH]; [reflexivity|].
  rewrite sapp_cons. change (Text.endswith_slash (String y (a +:+ String x b)))
    with (match a +:+ String x b with
          | "" => Ascii.eqb y "/"
          | _ => Text.endswith_slash (a +:+ String x b)
          end).
  rewrite IH. destruct a; reflexivity.
Qed.

Lemma endswith_slash_good (c : string) :
  good_comp c = true -> Text.endswith_slash c = false.
Proof.
  intros H. apply good_comp_no_slash in H. unfold no_slash in H.
  induction c as [|x c IH]; [reflexivity|]. simpl in H.
  apply orb_false_iff in H as [Hx Hc].
  destruct c as [|y c]; [exact Hx | exact (IH Hc)].
Qed.

Lemma good_nonempty (c : string) : good_comp c = true -> exists x s, c = String x s /\ Ascii.eqb x "/" = false.
Proof.
  intros H. pose proof (good_comp_no_slash c H) as Hn. unfold no_slash in Hn.
  destruct c as [|x s]; [discriminate H|]. simpl in Hn.
  apply orb_false_iff in Hn as [Hx _]. eauto.
Qed.

Lemma endswith_slash_join (c : string) (cs : list string) :
  good (c :: cs) -> Text.endswith_slash (Text.join_slash (c :: cs)) = false.
Proof.
  revert c. induction cs as [|w ws IH]; intros c H; inversion H as [|? ? Hc Hws]; subst.
  - now apply endswith_slash_good.
  - rewrite join_slash_cons.
    specialize (IH w Hws). inversion Hws as [|? ? Hw _]; subst.
    rewrite endswith_slash_app.
    change (Text.endswith_slash (String "/" (Text.join_slash (w :: ws))))
      with (match Text.join_slash (w :: ws) with
            | "" => Ascii.eqb "/" "/"
            | _ => Text.endswith_slash (Text.join_slash (w :: ws))
            end).
    rewrite IH.
    destruct (good_nonempty w Hw) as (x & s & -> & _).
    destruct ws; reflexivity.
Qed.

Lemma rstrip_slash_id (s : string) :
  Text.endswith_slash s = false -> Posixpath.rstrip_slash s = s.
Proof.
  induction s as [|x s IH]; [reflexivity|]. intros H. simpl.
  destruct s as [|y s].
  - simpl in *. now rewrite H.
  - rewrite IH by exact H. reflexivity.
Qed.

Lemma rstrip_slash_snoc (s : string) :
  Posixpath.rstrip_slash (s +:+ "/") = Posixpath.rstrip_slash s.
Proof.
  induction s as [|x s IH]; [reflexivity|].
  rewrite sapp_cons. simpl. now rewrite IH.
Qed.

Lemma dirname_abs (cs : list string) :
  good cs ->
  Posixpath.dirname ("/" +:+ Text.join_slash cs)
  = "/" +:+ Text.join_slash (removelast cs).
Proof.
  intros H. unfold Posixpath.dirname.
  change ("/" +:+ Text.join_slash cs) with ("" +:+ String "/" (Text.join_slash cs)).
  rewrite head_part_app, sapp_nil.
  destruct cs as [|c cs]; [reflexivity|].
  rewrite head_part_join by (eapply Forall_impl; [exact H | apply good_comp_no_slash]).
  destruct cs as [|w ws]; [reflexivity|].
  change (removelast (c :: w :: ws)) with (c :: removelast (w :: ws)).
  assert (Hg : good (c :: removelast (w :: ws))).
  { inversion H as [|? ? Hc Hws]; subst. constructor; [exact Hc|].
    clear -Hws. revert w Hws. induction ws as [|v vs IH]; intros w Hws; [constructor|].
    inversion Hws as [|? ? Hw Hvs]; subst.
    change (removelast (w :: v :: vs)) with (w :: removelast (v :: vs)).
    constructor; [exact Hw | now apply IH]. }
  set (J := Text.join_slash (c :: removelast (w :: ws))) in *.
  assert (Hj : exists x s, J = String x s /\ Ascii.eqb x "/" = false).
  { inversion Hg as [|? ? Hc _]; subst.
    destruct (good_nonempty c Hc) as (x & s & -> & Hx). unfold J.
    destruct (removelast (w :: ws)); [eauto|].
    rewrite join_slash_cons, sapp_cons. eauto. }
  destruct Hj as (x & s & Ej & Hx).
  assert (Hall : Posixpath.all_slashes (String "/" (J +:+ "/")) = false).
  { rewrite Ej, sapp_cons. simpl. now rewrite Hx. }
  rewrite Hall. cbn [negb andb String.eqb Ascii.eqb].
  change (String "/" (J +:+ "/")) with (("/" +:+ J) +:+ "/").
  rewrite rstrip_slash_snoc, rstrip_slash_id; [reflexivity|].
  rewrite Ej. change ("/" +:+ String x s) with ("/" +:+ String x s).
  rewrite endswith_slash_app. rewrite <- Ej. now apply endswith_slash_join.
Qed.

Lemma good_removelast (cs : list string) : good cs -> good (removelast cs).
Proof.
  induction 1 as [|c cs Hc Hcs IH]; [constructor|].
  destruct cs as [|w ws]; [constructor|].
  change (removelast (c :: w :: ws)) with (c :: removelast (w :: ws)).
  constructor; [exact Hc | exact IH].
Qed.

(** The parent of a target, as [dirname] computes it and as the system
    reaches it. *)
Lemma key_dirname (shared p : string) :
  Text.startswith shared "/" = true -> Text.startswith shared "//" = false ->
  let target := resolve shared (Text.lstrip_slash p) in
  Fs.key (Posixpath.dirname target) = Fs.parent (Fs.key target)
  /\ Posixpath.dirname target <> "".
Proof.
  intros H1 H2 target. destruct (resolve_abs shared p H1 H2) as [E G].
  fold target in E, G. rewrite E at 1 3. rewrite dirname_abs by exact G.
  split; [|discriminate]. apply key_abs. now apply good_removelast.
Qed.

(** ** UPLOAD, and requests on the root *)

Lemma mkdirs_ok (p : string) (todo : list string) :
  forall (done : list string) (fs : Fs.t),
    (forall i data, (0 < i <= length todo)%nat ->
       fs !! (rev done ++ take i todo) <> Some (Fs.File data)) ->
    exists fs',
      Fs.mkdirs fs done todo p = (fs', Py.Ok tt)
      /\ (forall i, (0 < i <= length todo)%nat ->
            fs' !! (rev done ++ take i todo) = Some Fs.Dir)
      /\ (forall k, (forall i, (0 < i <= length todo)%nat -> k <> rev done ++ take i todo) ->
            fs' !! k = fs !! k).
Proof.
  induction todo as [|c todo IH]; intros done fs Hno.
  - exists fs. split; [reflexivity|]. split; [simpl; lia | reflexivity].
  - assert (Hstep : forall i, rev (c :: done) ++ take i todo
                              = rev done ++ take (S i) (c :: todo)).
    { intros i. simpl. now rewrite <- app_assoc. }
    assert (Hk : rev (c :: done) = rev done ++ take 1 (c :: todo)).
    { simpl. now rewrite take_0. }
    assert (Hlen : forall i, (0 < i)%nat -> rev (c :: done) <> rev (c :: done) ++ take i todo
                                            \/ todo = []).
    { intros i Hi. destruct todo as [|t todo]; [now right|]. left.
      destruct i as [|i]; [lia|]. simpl. intros E.
      apply (f_equal (@length string)) in E. rewrite !length_app in E. simpl in E. lia. }
    cbn [Fs.mkdirs]. destruct (fs !! rev (c :: done)) as [[data|]|] eqn:Ek.
    + exfalso. apply (Hno 1%nat data); [simpl; lia|]. now rewrite <- Hk.
    + destruct (IH (c :: done) fs) as (fs' & Hm & Hd & Hu).
      { intros i data Hi. rewrite Hstep. apply Hno. simpl. lia. }
      exists fs'. split; [exact Hm|]. split.
      * intros i Hi. destruct i as [|i]; [lia|]. destruct i as [|i].
        -- rewrite <- Hk, Hu; [exact Ek|]. intros j Hj E.
           apply (f_equal (@length string)) in E. rewrite length_app, length_take in E.
           lia.
        -- rewrite <- Hstep. apply Hd. simpl in Hi. lia.
      * intros k Hne. apply Hu. intros i Hi. rewrite Hstep. apply Hne. simpl. lia.
    + destruct (IH (c :: done) (<[rev (c :: done) := Fs.Dir]> fs)) as (fs' & Hm & Hd & Hu).
      { intros i data Hi. rewrite lookup_insert_ne.
        - rewrite Hstep. apply Hno. simpl. lia.
        - intros E. apply (f_equal (@length string)) in E.
          rewrite length_app, length_take in E. lia. }
      exists fs'. split; [exact Hm|]. split.
      * intros i Hi. destruct i as [|i]; [lia|]. destruct i as [|i].
        -- rewrite <- Hk, Hu; [apply lookup_insert_eq|]. intros j Hj E.
           apply (f_equal (@length string)) in E. rewrite length_app, length_take in E.
           lia.
        -- rewrite <- Hstep. apply Hd. simpl in Hi. lia.
      * intros k Hne. rewrite Hu.
        -- apply lookup_insert_ne. rewrite Hk. intros E. symmetry in E. revert E.
           apply Hne. simpl. lia.
        -- intros i Hi. rewrite Hstep. apply Hne. simpl. lia.
Qed.

Lemma take_parent_prefix (k : list string) (i : nat) :
  take i (Fs.parent k) `prefix_of` k.
Proof.
  unfold Fs.parent. destruct (decide (k = [])) as [->|Hne]; [simpl; rewrite take_nil; reflexivity|].
  rewrite (app_removelast_last "" Hne) at 2.
  etrans; [apply prefix_take | apply prefix_app_r; reflexivity].
Qed.

Lemma parent_length (k : list string) : k <> [] -> length (Fs.parent k) = pred (length k).
Proof.
  intros Hne. unfold Fs.parent.
  rewrite (app_removelast_last "" Hne) at 2. rewrite length_app. simpl. lia.
Qed.



Lemma startswith_refl (s : string) : Text.startswith s s = true.
Proof. induction s as [|c s IH]; [reflexivity|]. simpl. now rewrite Ascii.eqb_refl. Qed.




Lemma mkdirs_noop (p : string) (todo : list string) :
  forall (done : list string) (fs : Fs.t),
    (forall i, (0 < i <= length todo)%nat ->
       fs !! (rev done ++ take i todo) = Some Fs.Dir) ->
    Fs.mkdirs fs done todo p = (fs, Py.Ok tt).
Proof.
  induction todo as [|c todo IH]; intros done fs H; [reflexivity|].
  cbn [Fs.mkdirs].
  assert (Hk : fs !! rev (c :: done) = Some Fs.Dir).
  { specialize (H 1%nat ltac:(simpl; lia)). simpl in H. now rewrite take_0 in H. }
  rewrite Hk. apply IH. intros i Hi.
  specialize (H (S i) ltac:(simpl; lia)). simpl in *. now rewrite <- app_assoc.
Qed.

Lemma all_dirs_parent (fs : Fs.t) (k : list string) :
  all_dirs fs k -> all_dirs fs (Fs.parent k).
Proof.
  intros H i. destruct (decide (k = [])) as [->|Hne]; [simpl; rewrite take_nil; apply (H 0%nat)|].
  destruct (Nat.le_gt_cases i (length (Fs.parent k))) as [Hle|Hgt].
  - specialize (H i). unfold Fs.parent in *.
    rewrite (app_removelast_last "" Hne) in H at 1.
    now rewrite take_app_le in H by exact Hle.
  - rewrite take_ge by lia. specialize (H (length (Fs.parent k))).
    unfold Fs.parent in *. rewrite (app_removelast_last "" Hne) in H at 2.
    now rewrite take_app_le, take_ge in H by lia.
Qed.




(** ** Sandbox: the direction that holds *)

Lemma join_slash_app (r k : list string) :
  r <> [] -> k <> [] ->
  Text.join_slash (r ++ k) = Text.join_slash r +:+ String "/" (Text.join_slash k).
Proof.
  intros Hr Hk. induction r as [|c r IH]; [congruence|].
  destruct r as [|w ws].
  - destruct k as [|x k]; [congruence | reflexivity].
  - change ((c :: w :: ws) ++ k) with (c :: w :: (ws ++ k)).
    rewrite !join_slash_cons. change (w :: ws ++ k) with ((w :: ws) ++ k).
    rewrite IH by discriminate. now rewrite sapp_assoc.
Qed.

Lemma startswith_app_self (a b : string) : Text.startswith (a +:+ b) a = true.
Proof.
  induction a as [|c a IH]; [reflexivity|].
  rewrite sapp_cons. simpl. now rewrite Ascii.eqb_refl.
Qed.

(** X1. The sandbox test accepts every target inside the root; the converse is
    what fails. *)
Lemma sandbox_accepts_inside (root target : string) :
  Posixpath.inside root target -> sandbox_ok root target = true.
Proof.
  unfold Posixpath.inside, sandbox_ok, Posixpath.realpath. intros [k ->].
  destruct (Posixpath.path_key root) as [|c r] eqn:Er.
  - apply startswith_app_self.
  - destruct k as [|x k].
    + rewrite app_nil_r. apply startswith_refl.
    + rewrite join_slash_app by discriminate.
      rewrite <- sapp_assoc. apply startswith_app_self.
Qed.

(** ** The integration test ([test_integration.py]) on an empty folder *)

Example integration_scenario :
  option_map s_out (handle_client sample_root (connect test_stream empty_share))
  = Some
      [OutMsg (welcome (JStr "TestBot"));
       OutMsg (JObj [("status", JStr "ok"); ("action", JStr "LIST");
                     ("entries", JArr []); ("message", JStr "")]);
       OutMsg (JObj [("status", JStr "ready"); ("action", JStr "UPLOAD")]);
       OutMsg (JObj [("status", JStr "ok"); ("action", JStr "UPLOAD");
                     ("message", JStr "Archivo guardado: test_auto.txt (50 bytes)")]);
       OutMsg (JObj [("status", JStr "ok"); ("action", JStr "LIST");
                     ("entries", JArr [JObj [("name", JStr "test_auto.txt");
                                             ("is_dir", JBool false);
                                             ("size", JInt 50)]]);
                     ("message", JStr "")]);
       OutMsg (JObj [("status", JStr "ok"); ("action", JStr "DOWNLOAD");
                     ("path", JStr "test_auto.txt"); ("size", JInt 50)]);
       OutRaw test_content;
       OutMsg (JObj [("status", JStr "ok"); ("action", JStr "DELETE");
                     ("message", JStr "Archivo eliminado: test_auto.txt")]);
       OutMsg (JObj [("status", JStr "ok"); ("action", JStr "LIST");
                     ("entries", JArr []); ("message", JStr "")])].
Proof. vm_compute. reflexivity. Qed.

(** ** The sandbox test, component by component *)

Lemma startswith_comp_last (c a r : string) :
  no_slash c -> Text.startswith (a +:+ String "/" r) c = Text.startswith a c.
Proof.
  revert a. induction c as [|x c IH]; intros a Hc; [reflexivity|].
  unfold no_slash in Hc. cbn [Py.has_char] in Hc. apply orb_false_iff in Hc as [Hx Hc].
  destruct a as [|y a].
  - rewrite sapp_nil. cbn [Text.startswith]. now rewrite Hx.
  - rewrite sapp_cons. cbn [Text.startswith]. destruct (Ascii.eqb x y); [now apply IH|reflexivity].
Qed.

Lemma startswith_comp_short (s c j : string) :
  no_slash s -> Text.startswith s (c +:+ String "/" j) = false.
Proof.
  revert s. induction c as [|x c IH]; intros s Hs.
  - rewrite sapp_nil. destruct s as [|y s]; [reflexivity|].
    unfold no_slash in Hs. cbn [Py.has_char] in Hs. apply orb_false_iff in Hs as [Hy _].
    cbn [Text.startswith]. rewrite Ascii.eqb_sym. now rewrite Hy.
  - rewrite sapp_cons. destruct s as [|y s]; [reflexivity|].
    unfold no_slash in Hs. cbn [Py.has_char] in Hs. apply orb_false_iff in Hs as [_ Hs].
    cbn [Text.startswith]. destruct (Ascii.eqb x y); [now apply IH|reflexivity].
Qed.

Lemma startswith_comp_cons (c c' t j : string) :
  no_slash c -> no_slash c' ->
  Text.startswith (c' +:+ String "/" t) (c +:+ String "/" j)
  = String.eqb c c' && Text.startswith t j.
Proof.
  revert c'. induction c as [|x c IH]; intros c' Hc Hc'.
  - rewrite sapp_nil. destruct c' as [|y c'].
    + rewrite sapp_nil. cbn [Text.startswith]. reflexivity.
    + unfold no_slash in Hc'. cbn [Py.has_char] in Hc'. apply orb_false_iff in Hc' as [Hy _].
      rewrite sapp_cons. cbn [Text.startswith]. rewrite Ascii.eqb_sym, Hy. reflexivity.
  - unfold no_slash in Hc. cbn [Py.has_char] in Hc. apply orb_false_iff in Hc as [Hx Hc].
    rewrite sapp_cons. destruct c' as [|y c'].
    + rewrite sapp_nil. cbn [Text.startswith]. now rewrite Hx.
    + unfold no_slash in Hc'. cbn [Py.has_char] in Hc'. apply orb_false_iff in Hc' as [_ Hc'].
      rewrite sapp_cons. cbn [Text.startswith String.eqb].
      destruct (Ascii.eqb x y); [now apply IH|reflexivity].
Qed.

Lemma startswith_join (rk : list string) : forall tk : list string,
  good rk -> good tk ->
  Text.startswith (Text.join_slash tk) (Text.join_slash rk) = comps_accept rk tk.
Proof.
  induction rk as [|c rk IH]; intros tk Hr Ht; [reflexivity|].
  apply Forall_cons in Hr as [Hc Hr].
  pose proof (good_comp_no_slash _ Hc) as Hcs.
  destruct tk as [|c' tk].
  - destruct (good_nonempty _ Hc) as (x & s & -> & _).
    destruct rk; [reflexivity|]. rewrite join_slash_cons, sapp_cons. reflexivity.
  - apply Forall_cons in Ht as [Hc' Ht].
    pose proof (good_comp_no_slash _ Hc') as Hcs'.
    destruct rk as [|d rk].
    + cbn [comps_accept]. destruct tk as [|e tk]; [reflexivity|].
      rewrite join_slash_cons. cbn [Text.join_slash]. now apply startswith_comp_last.
    + rewrite (join_slash_cons c d rk).
      cbn [comps_accept]. destruct tk as [|e tk].
      * cbn [Text.join_slash]. rewrite startswith_comp_short by exact Hcs'.
        now rewrite andb_false_r.
      * rewrite (join_slash_cons c' e tk), startswith_comp_cons by assumption.
        f_equal. now apply IH.
Qed.

(** X2. The sandbox test of the five operations is, exactly, this test on
    the components of the two resolved paths: all components of the root
    but the last must be the first components of the target, and the last
    one only has to begin the text of the next component of the target. *)
Theorem sandbox_ok_components (shared_folder target : string) :
  sandbox_ok shared_folder target
  = comps_accept (Posixpath.path_key shared_folder) (Posixpath.path_key target).
Proof.
  unfold sandbox_ok, Posixpath.realpath. rewrite !sapp_cons, !sapp_nil.
  cbn [Text.startswith]. rewrite Ascii.eqb_refl.
  apply startswith_join; apply norm_comps_good.
Qed.

Lemma sandbox_accepts_inside_witness :
  Posixpath.inside sample_root "/srv/share/docs/../docs/b.txt"
  /\ sandbox_ok sample_root "/srv/share/docs/../docs/b.txt" = true.
Proof.
  assert (H : Posixpath.inside sample_root "/srv/share/docs/../docs/b.txt").
  { exists ["docs"; "b.txt"]. vm_compute. reflexivity. }
  split; [exact H|]. exact (sandbox_accepts_inside _ _ H).
Defined.

(** ** The file system as a tree *)

Lemma comps_accept_length (rk : list string) : forall tk : list string,
  comps_accept rk tk = true -> (length rk <= length tk)%nat.
Proof.
  induction rk as [|c rk IH]; intros tk H; [simpl; lia|].
  destruct tk as [|c' tk]; [discriminate|]. cbn [comps_accept] in H.
  destruct rk as [|d rk]; [simpl; lia|].
  apply andb_true_iff in H as [_ H]. apply IH in H. simpl in *. lia.
Qed.

Lemma comps_accept_take (rk : list string) : forall (tk : list string) (i : nat),
  comps_accept rk tk = true -> (length rk <= i)%nat ->
  comps_accept rk (take i tk) = true.
Proof.
  induction rk as [|c rk IH]; intros tk i H Hi; [reflexivity|].
  destruct tk as [|c' tk]; [discriminate|].
  destruct i as [|i]; [simpl in Hi; lia|]. cbn [take comps_accept] in *.
  destruct rk as [|d rk]; [exact H|].
  apply andb_true_iff in H as [Hc H]. rewrite Hc. apply IH; [exact H|simpl in *; lia].
Qed.

Lemma comps_accept_below (rk : list string) : forall (tk : list string) (i : nat),
  comps_accept rk tk = true -> (i < length rk)%nat -> take i tk = take i rk.
Proof.
  induction rk as [|c rk IH]; intros tk i H Hi; [simpl in Hi; lia|].
  destruct tk as [|c' tk]; [discriminate|].
  destruct i as [|i]; [reflexivity|]. cbn [take comps_accept] in *.
  destruct rk as [|d rk]; [simpl in Hi; lia|].
  apply andb_true_iff in H as [Hc H]. apply String.eqb_eq in Hc as ->.
  f_equal. apply IH; [exact H|simpl in *; lia].
Qed.

Lemma comps_accept_prefix (rk : list string) : forall tk tk' : list string,
  comps_accept rk tk = true -> tk `prefix_of` tk' -> comps_accept rk tk' = true.
Proof.
  induction rk as [|c rk IH]; intros tk tk' H [l ->]; [reflexivity|].
  destruct tk as [|c' tk]; [discriminate|]. cbn [comps_accept app] in *.
  destruct rk as [|d rk]; [exact H|].
  apply andb_true_iff in H as [Hc H]. rewrite Hc. apply (IH tk); [exact H|].
  now exists l.
Qed.

Lemma take_parent (k : list string) (i : nat) :
  (i < length k)%nat -> take i (Fs.parent k) = take i k.
Proof.
  intros Hi. unfold Fs.parent.
  assert (Hne : k <> []) by (intros ->; simpl in Hi; lia).
  rewrite (app_removelast_last "" Hne) at 2.
  rewrite take_app_le; [reflexivity|].
  pose proof (parent_length k Hne) as Hl. unfold Fs.parent in Hl. lia.
Qed.

Lemma tree_parent (fs : Fs.t) (k : list string) (n : Fs.node) :
  tree fs -> fs !! k = Some n -> fs !! Fs.parent k = Some Fs.Dir.
Proof. intros [_ H] Hk. exact (H k n Hk). Qed.

Lemma tree_above (fs : Fs.t) (k : list string) :
  tree fs -> is_Some (fs !! k) ->
  forall i : nat, (i < length k)%nat -> fs !! take i k = Some Fs.Dir.
Proof.
  intros Ht. induction k as [|x l IH] using rev_ind; intros [n Hn] i Hi; [simpl in Hi; lia|].
  pose proof (tree_parent _ _ _ Ht Hn) as Hp.
  unfold Fs.parent in Hp. rewrite removelast_last in Hp.
  rewrite length_app in Hi. simpl in Hi.
  rewrite take_app_le by lia.
  destruct (decide (i = length l)) as [->|Hne].
  - now rewrite take_ge by lia.
  - apply IH; [eauto|lia].
Qed.

Lemma tree_all_dirs (fs : Fs.t) (k : list string) :
  tree fs -> fs !! k = Some Fs.Dir -> all_dirs fs k.
Proof.
  intros Ht Hk i. destruct (Nat.lt_ge_cases i (length k)) as [Hi|Hi].
  - apply tree_above; eauto.
  - now rewrite take_ge by lia.
Qed.

Lemma tree_insert (fs : Fs.t) (k : list string) (n : Fs.node) :
  tree fs -> k <> [] -> fs !! Fs.parent k = Some Fs.Dir ->
  fs !! k <> Some Fs.Dir ->
  tree (<[k := n]> fs).
Proof.
  intros Ht Hk Hp Hn. pose proof Ht as [Htop Hall].
  assert (Hpk : Fs.parent k <> k).
  { intros E. apply (f_equal (@length string)) in E.
    rewrite parent_length in E by exact Hk. destruct k; [congruence|simpl in E; lia]. }
  split.
  - rewrite lookup_insert_ne by congruence. exact Htop.
  - apply map_Forall_insert_2.
    + rewrite lookup_insert_ne by exact (not_eq_sym Hpk). exact Hp.
    + intros k2 n2 H2. cbn beta.
      destruct (decide (Fs.parent k2 = k)) as [E|E].
      * exfalso. apply Hn. rewrite <- E. exact (Hall k2 n2 H2).
      * rewrite lookup_insert_ne by congruence. exact (Hall k2 n2 H2).
Qed.

Lemma tree_mkdir (fs : Fs.t) (k : list string) :
  tree fs -> k <> [] -> fs !! Fs.parent k = Some Fs.Dir -> fs !! k = None ->
  tree (<[k := Fs.Dir]> fs).
Proof.
  intros Ht Hk Hp Hn. pose proof Ht as [Htop Hall].
  assert (Hpk : Fs.parent k <> k).
  { intros E. apply (f_equal (@length string)) in E.
    rewrite parent_length in E by exact Hk. destruct k; [congruence|simpl in E; lia]. }
  split.
  - rewrite lookup_insert_ne by congruence. exact Htop.
  - apply map_Forall_insert_2.
    + rewrite lookup_insert_ne by exact (not_eq_sym Hpk). exact Hp.
    + intros k2 n2 H2. cbn beta.
      destruct (decide (Fs.parent k2 = k)) as [E|E].
      * rewrite E. apply lookup_insert_eq.
      * rewrite lookup_insert_ne by congruence. exact (Hall k2 n2 H2).
Qed.

Lemma tree_delete_file (fs : Fs.t) (k : list string) (data : bytes) :
  tree fs -> fs !! k = Some (Fs.File data) -> tree (delete k fs).
Proof.
  intros [Htop Hall] Hk. split.
  - rewrite lookup_delete_ne; [exact Htop|]. intros ->. congruence.
  - intros k2 n2 H2. cbn beta. apply lookup_delete_Some in H2 as [Hne H2].
    rewrite lookup_delete_ne; [exact (Hall k2 n2 H2)|].
    intros E. specialize (Hall k2 n2 H2). cbn beta in Hall. rewrite <- E in Hall. congruence.
Qed.

Lemma parent_prefix (k : list string) : Fs.parent k `prefix_of` k.
Proof.
  pose proof (take_parent_prefix k (length (Fs.parent k))) as H.
  now rewrite take_ge in H by lia.
Qed.

Lemma tree_rmtree (fs : Fs.t) (k : list string) :
  tree fs -> k <> [] -> tree (filter (fun kn => ~ k `prefix_of` fst kn) fs).
Proof.
  intros [Htop Hall] Hk. split.
  - apply map_lookup_filter_Some. split; [exact Htop|]. cbn.
    intros [l E]. destruct k; [congruence|discriminate].
  - intros k2 n2 H2. cbn beta. apply map_lookup_filter_Some in H2 as [H2 Hn]. cbn in Hn.
    apply map_lookup_filter_Some. split; [exact (Hall k2 n2 H2)|]. cbn.
    intros Hp. apply Hn. etrans; [exact Hp|apply parent_prefix].
Qed.

Lemma tree_top_only (fs : Fs.t) :
  tree fs -> tree (filter (fun kn : list string * Fs.node => fst kn = []) fs).
Proof.
  intros [Htop Hall]. split.
  - apply map_lookup_filter_Some. now split.
  - intros k2 n2 H2. cbn beta. apply map_lookup_filter_Some in H2 as [H2 Hn]. cbn in Hn.
    subst k2. apply map_lookup_filter_Some. now split.
Qed.

(** What [mkdirs] makes of the file system. *)
Lemma mkdirs_result (p : string) (todo : list string) :
  forall (done : list string) (fs fs' : Fs.t) (r : Py.result unit),
    Fs.mkdirs fs done todo p = (fs', r) ->
    forall k, fs' !! k = fs !! k
              \/ (fs !! k = None /\ fs' !! k = Some Fs.Dir
                  /\ exists i, (0 < i <= length todo)%nat /\ k = rev done ++ take i todo).
Proof.
  induction todo as [|c todo IH]; intros done fs fs' r H k.
  - cbn in H. injection H as <- _. now left.
  - assert (Hstep : forall i, rev (c :: done) ++ take i todo
                              = rev done ++ take (S i) (c :: todo)).
    { intros i. simpl. now rewrite <- app_assoc. }
    cbn [Fs.mkdirs] in H. destruct (fs !! rev (c :: done)) as [[data|]|] eqn:Ek.
    + injection H as <- _. now left.
    + destruct (IH _ _ _ _ H k) as [E|(Hn & Hd & i & Hi & ->)]; [now left|].
      right. split; [exact Hn|]. split; [exact Hd|]. exists (S i). split; [simpl; lia|apply Hstep].
    + destruct (IH _ _ _ _ H k) as [E|(Hn & Hd & i & Hi & ->)].
      * destruct (decide (k = rev (c :: done))) as [->|Hne].
        -- right. rewrite lookup_insert_eq in E. split; [exact Ek|]. split; [exact E|].
           exists 1%nat. split; [simpl; lia|]. simpl. try rewrite take_0. reflexivity.
        -- left. now rewrite lookup_insert_ne in E by congruence.
      * right. rewrite lookup_insert_ne in Hn.
        -- split; [exact Hn|]. split; [exact Hd|]. exists (S i). split; [simpl; lia|apply Hstep].
        -- intros E. apply (f_equal (@length string)) in E.
           rewrite length_app, length_take in E. lia.
Qed.

Lemma mkdirs_tree (p : string) (todo : list string) :
  forall (done : list string) (fs : Fs.t),
    tree fs -> fs !! rev done = Some Fs.Dir ->
    tree (fst (Fs.mkdirs fs done todo p)).
Proof.
  induction todo as [|c todo IH]; intros done fs Ht Hd; [exact Ht|].
  assert (Hk : rev (c :: done) <> []).
  { simpl. intros E. apply app_eq_nil in E as [_ E]. discriminate. }
  assert (Hp : Fs.parent (rev (c :: done)) = rev done).
  { unfold Fs.parent. simpl. apply removelast_last. }
  cbn [Fs.mkdirs]. destruct (fs !! rev (c :: done)) as [[data|]|] eqn:Ek.
  - exact Ht.
  - now apply IH.
  - apply IH; [|apply lookup_insert_eq].
    apply tree_mkdir; [exact Ht|exact Hk| |exact Ek]. now rewrite Hp.
Qed.

Lemma mkdirs_raise_same (p : string) (todo : list string) :
  forall (done : list string) (fs fs' : Fs.t) (e : Py.exn),
    tree fs ->
    Fs.mkdirs fs done todo p = (fs', Py.Raise e) -> fs' = fs.
Proof.
  induction todo as [|c todo IH]; intros done fs fs' e Ht H.
  - cbn in H. discriminate.
  - cbn [Fs.mkdirs] in H. destruct (fs !! rev (c :: done)) as [[data|]|] eqn:Ek.
    + now injection H as <- _.
    + now apply (IH _ _ _ _ Ht H).
    + exfalso.
      destruct (mkdirs_ok p todo (c :: done) (<[rev (c :: done) := Fs.Dir]> fs))
        as (fs1 & Hm & _).
      * intros i data Hi. rewrite lookup_insert_ne.
        -- intros Hf.
           assert (Hs : is_Some (fs !! (rev (c :: done) ++ take i todo))) by eauto.
           pose proof (tree_above _ _ Ht Hs (length (rev (c :: done)))) as Hd.
           rewrite take_app_length in Hd. rewrite Ek in Hd.
           assert (Hl : (length (rev (c :: done)) < length (rev (c :: done) ++ take i todo))%nat).
           { rewrite length_app, length_take. lia. }
           specialize (Hd Hl). discriminate.
        -- intros E. apply (f_equal (@length string)) in E.
           rewrite length_app, length_take in E. lia.
      * rewrite Hm in H. discriminate.
Qed.

(** ** What the operations of the write worker do to the file system *)

Lemma mkdirs_made (p : string) (todo : list string) :
  forall (done : list string) (fs fs' : Fs.t),
    Fs.mkdirs fs done todo p = (fs', Py.Ok tt) ->
    forall i, (0 < i <= length todo)%nat ->
              fs' !! (rev done ++ take i todo) = Some Fs.Dir.
Proof.
  induction todo as [|c todo IH]; intros done fs fs' H i Hi; [simpl in Hi; lia|].
  assert (Hstep : forall i, rev (c :: done) ++ take i todo
                            = rev done ++ take (S i) (c :: todo)).
  { intros j. simpl. now rewrite <- app_assoc. }
  assert (Hlen : forall j, (0 < j)%nat -> rev (c :: done) <> rev (c :: done) ++ take j todo
                                          \/ todo = []).
  { intros j Hj. destruct todo as [|t todo]; [now right|]. left.
    destruct j as [|j]; [lia|]. simpl. intros E.
    apply (f_equal (@length string)) in E. rewrite !length_app in E. simpl in E. lia. }
  cbn [Fs.mkdirs] in H. destruct i as [|i]; [lia|].
  destruct (fs !! rev (c :: done)) as [[data|]|] eqn:Ek; [discriminate| |].
  - destruct i as [|i].
    + destruct (mkdirs_result _ _ _ _ _ _ H (rev (c :: done))) as [E|(Hn & _)]; [|congruence].
      rewrite <- Hstep, take_0, app_nil_r, E. exact Ek.
    + rewrite <- Hstep. apply (IH _ _ _ H). simpl in Hi. lia.
  - destruct i as [|i].
    + destruct (mkdirs_result _ _ _ _ _ _ H (rev (c :: done))) as [E|(Hn & _)].
      * rewrite <- Hstep, take_0, app_nil_r, E. apply lookup_insert_eq.
      * rewrite lookup_insert_eq in Hn. discriminate.
    + rewrite <- Hstep. apply (IH _ _ _ H). simpl in Hi. lia.
Qed.

Lemma mkdirs_frame (fs fs' : Fs.t) (rk tk : list string) (p : string)
  (r : Py.result unit) :
  all_dirs fs (Fs.parent rk) -> comps_accept rk tk = true ->
  Fs.mkdirs fs [] (Fs.parent tk) p = (fs', r) ->
  forall k, comps_accept rk k = false -> fs' !! k = fs !! k.
Proof.
  intros Hall Hacc Hm k Hk.
  destruct (mkdirs_result _ _ _ _ _ _ Hm k) as [E|(Hn & _ & i & Hi & ->)]; [exact E|].
  exfalso. cbn [rev app] in *.
  assert (Hne : tk <> []).
  { intros ->. cbn in Hi. lia. }
  rewrite parent_length in Hi by exact Hne.
  assert (Hlt : (i < length tk)%nat) by (destruct tk; [congruence|simpl in *; lia]).
  rewrite take_parent in Hk, Hn by exact Hlt.
  destruct (Nat.le_gt_cases (length rk) i) as [Hge|Hlt'].
  - rewrite comps_accept_take in Hk by assumption. discriminate.
  - rewrite (comps_accept_below rk tk i Hacc Hlt'), <- take_parent in Hn by exact Hlt'.
    rewrite Hall in Hn. discriminate.
Qed.

Lemma write_bytes_cases (fs : Fs.t) (p : string) (data : bytes) :
  (fs !! Fs.key p <> Some Fs.Dir /\ Fs.key p <> []
   /\ fs !! Fs.parent (Fs.key p) = Some Fs.Dir
   /\ Fs.write_bytes fs p data = (<[Fs.key p := Fs.File data]> fs, Py.Ok tt))
  \/ ((fs !! Fs.key p = Some Fs.Dir \/ Fs.key p = []
       \/ fs !! Fs.parent (Fs.key p) <> Some Fs.Dir)
      /\ exists e, Fs.write_bytes fs p data = (fs, Py.Raise e)).
Proof.
  unfold Fs.write_bytes.
  destruct (fs !! Fs.key p) as [[d0|]|] eqn:Ek;
    try (right; split; [now left|eauto]);
    (destruct (decide (Fs.key p = [])) as [E|E]; [right; split; [now (right; left)|eauto]|]);
    (destruct (fs !! Fs.parent (Fs.key p)) as [[d1|]|] eqn:Ep;
     [right; split; [right; right; congruence|eauto]
     |left; repeat split; congruence
     |right; split; [right; right; congruence|eauto]]).
Qed.

Lemma save_file_props (fs : Fs.t) (shared : string) (path : json) (data : bytes) :
  Text.startswith shared "/" = true -> Text.startswith shared "//" = false ->
  let R := Writer._save_file fs shared path data in
  (tree fs -> tree (fst R))
  /\ (tree fs -> answered_ok_or_same fs R)
  /\ (all_dirs fs (Fs.parent (Fs.key shared)) ->
      forall k, comps_accept (Fs.key shared) k = false -> fst R !! k = fs !! k).
Proof.
  intros H1 H2 R. subst R. unfold answered_ok_or_same.
  destruct path as [|b|z|p|l|d];
    try (cbn; split; [auto|split; [now right|reflexivity]]).
  unfold Writer._save_file. cbn [lstrip_path].
  set (rel := Text.lstrip_slash p). set (target := resolve shared rel).
  destruct (sandbox_ok shared target) eqn:Hs; cbn [negb];
    [|cbn; split; [auto|split; [now right|reflexivity]]].
  destruct (key_dirname shared p H1 H2) as [Hkd Hdn]. fold rel target in Hkd, Hdn.
  apply String.eqb_neq in Hdn. rewrite Hdn. cbn [negb].
  unfold Fs.makedirs. rewrite Hkd.
  rewrite sandbox_ok_components in Hs. fold (Fs.key shared) (Fs.key target) in Hs.
  destruct (Fs.mkdirs fs [] (Fs.parent (Fs.key target)) (Posixpath.dirname target))
    as [fs1 made] eqn:Hm.
  assert (Ht1 : tree fs -> tree fs1).
  { intros Ht. pose proof (mkdirs_tree (Posixpath.dirname target)
                            (Fs.parent (Fs.key target)) [] fs Ht (proj1 Ht)) as T.
    now rewrite Hm in T. }
  assert (Hf1 : all_dirs fs (Fs.parent (Fs.key shared)) ->
                forall k, comps_accept (Fs.key shared) k = false -> fs1 !! k = fs !! k).
  { intros Hall. exact (mkdirs_frame _ _ _ _ _ _ Hall Hs Hm). }
  destruct made as [[]|e]; cbn [fst snd].
  2:{ split; [exact Ht1|]. split; [|exact Hf1].
      intros Ht. right. exact (mkdirs_raise_same _ _ _ _ _ _ Ht Hm). }
  destruct (write_bytes_cases fs1 target data) as [(Hnd & Hne & Hp & ->)|[Hc [e ->]]];
    cbn [fst snd].
  - split; [|split].
    + intros Ht. apply tree_insert; auto.
    + intros _. left. eexists. split; reflexivity.
    + intros Hall k Hk. rewrite lookup_insert_ne; [now apply Hf1|].
      intros <-. congruence.
  - split; [exact Ht1|]. split; [|exact Hf1].
    intros Ht. right.
    destruct (decide (Fs.key target = [])) as [E|E].
    { rewrite E in Hm. cbn in Hm. congruence. }
    assert (Hsame : fs1 !! Fs.key target = fs !! Fs.key target).
    { destruct (mkdirs_result _ _ _ _ _ _ Hm (Fs.key target))
        as [E'|(_ & _ & i & Hi & E')]; [exact E'|].
      exfalso. cbn [rev app] in E'. apply (f_equal (@length string)) in E'.
      rewrite length_take, parent_length in E' by exact E.
      destruct (Fs.key target); [congruence|simpl in *; lia]. }
    assert (Hpar : fs1 !! Fs.parent (Fs.key target) = Some Fs.Dir).
    { destruct (Fs.parent (Fs.key target)) as [|c cs] eqn:Ep.
      - cbn in Hm. injection Hm as <-. exact (proj1 Ht).
      - rewrite <- (take_ge (c :: cs) (length (c :: cs))) by lia.
        apply (mkdirs_made _ _ _ _ _ Hm). simpl. lia. }
    destruct Hc as [Hd|[Hd|Hd]]; [|congruence|congruence].
    rewrite Hsame in Hd.
    pose proof (all_dirs_parent _ _ (tree_all_dirs _ _ Ht Hd)) as Hall.
    rewrite mkdirs_noop in Hm; [congruence|].
    intros i _. apply Hall.
Qed.

Lemma comps_accept_nil (rk : list string) : comps_accept rk [] = true -> rk = [].
Proof. destruct rk; [reflexivity|discriminate]. Qed.

Lemma comps_accept_top (k : list string) : comps_accept [] k = true.
Proof. reflexivity. Qed.

Lemma delete_file_props (fs : Fs.t) (shared : string) (path : json) :
  let R := Writer._delete_file fs shared path in
  (tree fs -> tree (fst R))
  /\ (Fs.key shared <> [] -> answered_ok_or_same fs R)
  /\ (forall k, comps_accept (Fs.key shared) k = false -> fst R !! k = fs !! k).
Proof.
  intros R. subst R. unfold answered_ok_or_same.
  destruct path as [|b|z|p|l|d];
    try (cbn; split; [auto|split; [now right|reflexivity]]).
  unfold Writer._delete_file. cbn [lstrip_path].
  set (rel := Text.lstrip_slash p). set (target := resolve shared rel).
  destruct (sandbox_ok shared target) eqn:Hs; cbn [negb];
    [|cbn; split; [auto|split; [now right|reflexivity]]].
  rewrite sandbox_ok_components in Hs. fold (Fs.key shared) (Fs.key target) in Hs.
  unfold Fs.exists_, Fs.isdir, Fs.rmtree, Fs.remove.
  destruct (fs !! Fs.key target) as [[d0|]|] eqn:Ek; cbn [negb fst snd];
    [| |split; [auto|split; [now right|reflexivity]]].
  - split; [|split].
    + intros Ht. eapply tree_delete_file; eauto.
    + intros _. left. eexists. split; reflexivity.
    + intros k Hk. apply lookup_delete_ne. intros <-. congruence.
  - destruct (Fs.key target) as [|c cs] eqn:Et; cbn [fst snd].
    + apply comps_accept_nil in Hs. split; [|split].
      * apply tree_top_only.
      * intros Hne. congruence.
      * intros k Hk. rewrite Hs in Hk. discriminate.
    + split; [|split].
      * intros Ht. now apply tree_rmtree.
      * intros _. left. eexists. split; reflexivity.
      * intros k Hk. apply option_eq. intros n.
        rewrite map_lookup_filter_Some. cbn [fst]. split; [tauto|].
        intros Hn. split; [exact Hn|]. intros Hp.
        rewrite (comps_accept_prefix _ _ _ Hs Hp) in Hk. discriminate.
Qed.

Lemma cut_file_props (fs : Fs.t) (shared : string) (path : json) :
  let R := Writer._cut_file fs shared path in
  (tree fs -> tree (fst R))
  /\ answered_ok_or_same fs R
  /\ (forall k, comps_accept (Fs.key shared) k = false -> fst R !! k = fs !! k).
Proof.
  intros R. subst R. unfold answered_ok_or_same.
  destruct path as [|b|z|p|l|d];
    try (cbn; split; [auto|split; [now right|reflexivity]]).
  unfold Writer._cut_file. cbn [lstrip_path].
  set (rel := Text.lstrip_slash p). set (target := resolve shared rel).
  destruct (sandbox_ok shared target) eqn:Hs; cbn [negb];
    [|cbn; split; [auto|split; [now right|reflexivity]]].
  rewrite sandbox_ok_components in Hs. fold (Fs.key shared) (Fs.key target) in Hs.
  unfold Fs.isfile, Fs.read_bytes, Fs.remove.
  destruct (fs !! Fs.key target) as [[d0|]|] eqn:Ek; cbn [negb fst snd];
    [|split; [auto|split; [now right|reflexivity]]..].
  split; [|split].
  - intros Ht. eapply tree_delete_file; eauto.
  - left. eexists. split; reflexivity.
  - intros k Hk. apply lookup_delete_ne. intros <-. congruence.
Qed.

(** One request served by the write worker. *)
Lemma writer_step_props (fs : Fs.t) (shared : string) (rq : request) :
  Text.startswith shared "/" = true -> Text.startswith shared "//" = false ->
  let R := Writer.step fs shared rq in
  (tree fs -> tree (fst R))
  /\ (tree fs -> Fs.key shared <> [] -> w_status (snd R) = "ok" \/ fst R = fs)
  /\ (all_dirs fs (Fs.parent (Fs.key shared)) ->
      forall k, comps_accept (Fs.key shared) k = false -> fst R !! k = fs !! k).
Proof.
  intros H1 H2 R. subst R. unfold Writer.step, Writer.dispatch.
  set (action := Text.upper (default "" (rq_action rq))).
  set (path := default (JStr "") (rq_path rq)).
  assert (Hgen : forall R0 : Fs.t * Py.result wresult,
             (tree fs -> tree (fst R0)) ->
             (tree fs -> Fs.key shared <> [] -> answered_ok_or_same fs R0) ->
             (all_dirs fs (Fs.parent (Fs.key shared)) ->
              forall k, comps_accept (Fs.key shared) k = false -> fst R0 !! k = fs !! k) ->
             let R := (let '(fs1, outcome) := R0 in
                       (fs1, stamp (rq_id rq) action
                               match outcome with
                               | Py.Ok r => r
                               | Py.Raise e => error_result ("Error interno: " +:+ Py.exn_str e)
                               end)) in
             (tree fs -> tree (fst R))
             /\ (tree fs -> Fs.key shared <> [] -> w_status (snd R) = "ok" \/ fst R = fs)
             /\ (all_dirs fs (Fs.parent (Fs.key shared)) ->
                 forall k, comps_accept (Fs.key shared) k = false -> fst R !! k = fs !! k)).
  { intros [fs1 o] Ha Hb Hc. unfold answered_ok_or_same in Hb. cbn [fst snd] in *. split; [exact Ha|]. split; [|exact Hc].
    intros Ht Hne. destruct (Hb Ht Hne) as [(x & -> & Hx)|E]; [left; exact Hx|right; exact E]. }
  destruct (String.eqb action "UPLOAD").
  { destruct (save_file_props fs shared path (default [] (rq_data rq)) H1 H2) as (A & B & C).
    exact (Hgen (Writer._save_file fs shared path (default [] (rq_data rq)))
             A (fun t _ => B t) C). }
  destruct (String.eqb action "DELETE").
  { destruct (delete_file_props fs shared path) as (A & B & C).
    exact (Hgen (Writer._delete_file fs shared path) A (fun _ n => B n) (fun _ => C)). }
  destruct (String.eqb action "CUT").
  { destruct (cut_file_props fs shared path) as (A & B & C).
    exact (Hgen (Writer._cut_file fs shared path) A (fun _ _ => B) (fun _ => C)). }
  refine (Hgen (fs, Py.Ok (error_result (accion +:+ " desconocida: " +:+ action))) _ _ _);
    cbn [fst snd]; auto.
  intros _ _. now right.
Qed.

Lemma save_file_tree (fs : Fs.t) (shared : string) (path : json) (data : bytes) :
  tree fs -> tree (fst (Writer._save_file fs shared path data)).
Proof.
  intros Ht. destruct path as [|b|z|p|l|d]; try exact Ht.
  unfold Writer._save_file. cbn [lstrip_path].
  set (rel := Text.lstrip_slash p). set (target := resolve shared rel).
  destruct (negb (sandbox_ok shared target)); [exact Ht|].
  set (made := if negb (String.eqb (Posixpath.dirname target) "")
               then Fs.makedirs fs (Posixpath.dirname target) else (fs, Py.Ok tt)).
  assert (Ht1 : tree (fst made)).
  { subst made. destruct (negb _); [|exact Ht]. apply mkdirs_tree; [exact Ht|exact (proj1 Ht)]. }
  destruct made as [fs1 [[]|e]]; cbn [fst] in *; [|exact Ht1].
  destruct (write_bytes_cases fs1 target data) as [(Hnd & Hne & Hp & ->)|[Hc [e ->]]];
    cbn [fst]; [|exact Ht1].
  now apply tree_insert.
Qed.

Lemma writer_step_tree (fs : Fs.t) (shared : string) (rq : request) :
  tree fs -> tree (fst (Writer.step fs shared rq)).
Proof.
  intros Ht. unfold Writer.step, Writer.dispatch.
  set (action := Text.upper (default "" (rq_action rq))).
  set (path := default (JStr "") (rq_path rq)).
  destruct (String.eqb action "UPLOAD").
  { pose proof (save_file_tree fs shared path (default [] (rq_data rq)) Ht) as T.
    now destruct (Writer._save_file _ _ _ _). }
  destruct (String.eqb action "DELETE").
  { pose proof (proj1 (delete_file_props fs shared path) Ht) as T.
    now destruct (Writer._delete_file _ _ _). }
  destruct (String.eqb action "CUT").
  { pose proof (proj1 (cut_file_props fs shared path) Ht) as T.
    now destruct (Writer._cut_file _ _ _). }
  exact Ht.
Qed.

(** X3. The write worker keeps the file system a tree: whatever requests
    its queue holds, after serving them the top directory is still there
    and every node still lies in a directory. *)
Theorem writer_keeps_tree (shared : string) (queue : list (option request)) :
  forall fs : Fs.t, tree fs -> tree (fst (fst (writer_loop fs shared queue))).
Proof.
  induction queue as [|[rq|] queue IH]; intros fs Ht; try exact Ht.
  cbn [writer_loop].
  pose proof (writer_step_tree fs shared rq Ht) as T.
  destruct (Writer.step fs shared rq) as [fs1 r]. cbn [fst] in T.
  specialize (IH fs1 T). destruct (writer_loop fs1 shared queue) as [[fs2 rs] e].
  exact IH.
Qed.

Lemma writer_keeps_tree_witness :
  tree (fst (fst (writer_loop sample_fs sample_root
                    [Some {| rq_id := Some "1"; rq_action := Some "upload";
                             rq_path := Some (JStr "new/dir/f.txt");
                             rq_data := Some (list_ascii_of_string "x") |};
                     Some {| rq_id := Some "2"; rq_action := Some "delete";
                             rq_path := Some (JStr "docs"); rq_data := None |};
                     None]))).
Proof. apply writer_keeps_tree. apply (bool_decide_unpack _). vm_compute. reflexivity. Defined.



Lemma short_not_accepted (rk : list string) (i : nat) :
  rk <> [] -> comps_accept rk (take i (Fs.parent rk)) = false.
Proof.
  intros Hne. destruct (comps_accept rk _) eqn:E; [|reflexivity].
  apply comps_accept_length in E. rewrite length_take, parent_length in E by exact Hne.
  destruct rk; [congruence|simpl in E; lia].
Qed.

Lemma writer_step_frame (fs : Fs.t) (shared : string) (rq : request) :
  Text.startswith shared "/" = true -> Text.startswith shared "//" = false ->
  Fs.key shared <> [] ->
  all_dirs fs (Fs.parent (Fs.key shared)) ->
  all_dirs (fst (Writer.step fs shared rq)) (Fs.parent (Fs.key shared))
  /\ forall k, comps_accept (Fs.key shared) k = false ->
               fst (Writer.step fs shared rq) !! k = fs !! k.
Proof.
  intros H1 H2 Hne Hall.
  destruct (writer_step_props fs shared rq H1 H2) as (_ & _ & C).
  split; [|exact (C Hall)].
  intros i. rewrite (C Hall); [apply Hall|]. now apply short_not_accepted.
Qed.

Lemma writer_changes_frame (shared : string) (fs fs' : Fs.t) :
  Text.startswith shared "/" = true -> Text.startswith shared "//" = false ->
  Fs.key shared <> [] ->
  rtc (writer_changes shared) fs fs' ->
  all_dirs fs (Fs.parent (Fs.key shared)) ->
  all_dirs fs' (Fs.parent (Fs.key shared))
  /\ forall k, comps_accept (Fs.key shared) k = false -> fs' !! k = fs !! k.
Proof.
  intros H1 H2 Hne Hr. induction Hr as [fs|fs fs1 fs' [rq ->] _ IH]; intros Hall.
  - split; [exact Hall|reflexivity].
  - destruct (writer_step_frame fs shared rq H1 H2 Hne Hall) as [Hall1 Hf].
    destruct (IH Hall1) as [Hall2 Hf2]. split; [exact Hall2|].
    intros k Hk. now rewrite Hf2, Hf.
Qed.

Lemma writer_loop_changes (shared : string) (queue : list (option request)) :
  forall fs : Fs.t,
    rtc (writer_changes shared) fs (fst (fst (writer_loop fs shared queue))).
Proof.
  induction queue as [|[rq|] queue IH]; intros fs; try reflexivity.
  cbn [writer_loop].
  destruct (Writer.step fs shared rq) as [fs1 r] eqn:Es.
  specialize (IH fs1). destruct (writer_loop fs1 shared queue) as [[fs2 rs] e].
  cbn [fst] in *. eapply rtc_l; [|exact IH]. exists rq. now rewrite Es.
Qed.

(** X5. What the write worker can reach.  With the shared folder an
    absolute path whose parent directories exist, serving any queue of
    requests leaves every node untouched whose components fail the
    component test of the sandbox: nothing changes outside the parent
    directory of the shared folder, and inside it only what lies at or
    below a name that begins with the name of the shared folder. *)
Theorem writer_changes_contained (fs : Fs.t) (shared : string)
  (queue : list (option request)) (k : list string) :
  Text.startswith shared "/" = true -> Text.startswith shared "//" = false ->
  all_dirs fs (Fs.parent (Fs.key shared)) ->
  comps_accept (Fs.key shared) k = false ->
  fst (fst (writer_loop fs shared queue)) !! k = fs !! k.
Proof.
  intros H1 H2 Hall Hk.
  destruct (decide (Fs.key shared = [])) as [E|Hne].
  - rewrite E in Hk. discriminate.
  - now apply (writer_changes_frame shared fs _ H1 H2 Hne (writer_loop_changes _ _ _) Hall).
Qed.

Lemma writer_changes_contained_witness :
  fst (fst (writer_loop sample_fs sample_root
              [Some {| rq_id := Some "1"; rq_action := Some "delete";
                       rq_path := Some (JStr "../../srv"); rq_data := None |};
               Some {| rq_id := Some "2"; rq_action := Some "delete";
                       rq_path := Some (JStr "../other"); rq_data := None |}]))
    !! ["srv"; "other"] = sample_fs !! ["srv"; "other"].
Proof.
  apply writer_changes_contained.
  - reflexivity.
  - reflexivity.
  - intros i. destruct i as [|[|i]]; vm_compute; reflexivity.
  - reflexivity.
Defined.

(** *** The file system through a session *)

Lemma send_to_worker_fs (shared : string) (st : session) w action path data :
  rtc (writer_changes shared) (s_fs st)
    (s_fs (snd (send_to_worker shared st w action path data))).
Proof.
  unfold send_to_worker. destruct w; [reflexivity|].
  destruct (Writer.step (s_fs st) shared _) as [fs1 r] eqn:Es. cbn [snd s_fs].
  apply rtc_once. eexists. now rewrite Es.
Qed.

Lemma reply_transfer_fs (st : session) action r : s_fs (reply_transfer st action r) = s_fs st.
Proof. unfold reply_transfer. now destruct (String.eqb _ _). Qed.

Lemma readexactly_fs (st st' : session) (n : json) (b : bytes) :
  readexactly st n = Py.Ok (b, st') -> s_fs st' = s_fs st.
Proof.
  unfold readexactly.
  destruct (match n with JInt z => _ | _ => _ end) as [z|]; [|discriminate].
  destruct (z <? 0); [discriminate|].
  destruct (Protocol.recv_exact _ _) as [[dat|] rest]; [|discriminate].
  now intros [= _ <-].
Qed.

Lemma run_command_fs (shared : string) (st : session) msg action :
  rtc (writer_changes shared) (s_fs st)
    (s_fs (outcome_session (run_command shared st msg action))).
Proof.
  unfold run_command.
  repeat match goal with
         | |- context [if String.eqb action ?v then _ else _] =>
           destruct (String.eqb action v)
         end.
  - pose proof (send_to_worker_fs shared st ReadWorker "LIST" (default (JStr "/") (Dict.get "path" msg)) None) as H.
    destruct (send_to_worker _ _ _ _ _ _) as [r st1]. exact H.
  - pose proof (send_to_worker_fs shared st ReadWorker "DOWNLOAD" (default (JStr "/") (Dict.get "path" msg)) None) as H.
    destruct (send_to_worker _ _ _ _ _ _) as [r st1]. cbn [outcome_session log_event s_fs].
    now rewrite reply_transfer_fs.
  - destruct (readexactly _ _) as [[file_data st1]|] eqn:Er; [|reflexivity].
    apply readexactly_fs in Er. cbn [write s_fs] in Er.
    pose proof (send_to_worker_fs shared st1 WriteWorker "UPLOAD" (default (JStr "/") (Dict.get "path" msg)) (Some file_data)) as H.
    destruct (send_to_worker _ _ _ _ _ _) as [r st2]. cbn [outcome_session log_event write s_fs snd] in *.
    now rewrite <- Er.
  - pose proof (send_to_worker_fs shared st WriteWorker "DELETE" (default (JStr "/") (Dict.get "path" msg)) None) as H.
    destruct (send_to_worker _ _ _ _ _ _) as [r st1]. exact H.
  - pose proof (send_to_worker_fs shared st WriteWorker "CUT" (default (JStr "/") (Dict.get "path" msg)) None) as H.
    destruct (send_to_worker _ _ _ _ _ _) as [r st1]. cbn [outcome_session log_event s_fs].
    now rewrite reply_transfer_fs.
  - reflexivity.
Qed.

Lemma command_step_fs (shared : string) (st : session) :
  rtc (writer_changes shared) (s_fs st)
    (s_fs (outcome_session (command_step shared st))).
Proof.
  unfold command_step.
  destruct (Protocol.recv_message (s_in st)) as [r rest].
  destruct r as [|msg|]; try reflexivity.
  destruct msg as [| | | | |d]; try reflexivity. unfold handle_command.
  destruct (Dict.get "action" d) as [[]|]; try reflexivity;
    exact (run_command_fs shared (with_in st rest) d _).
Qed.

Lemma command_loop_fs (shared : string) (fuel : nat) : forall st st',
  command_loop fuel shared st = Some st' ->
  rtc (writer_changes shared) (s_fs st) (s_fs st').
Proof.
  induction fuel as [|fuel IH]; intros st st' H; [discriminate|]. cbn [command_loop] in H.
  pose proof (command_step_fs shared st) as Hs.
  destruct (command_step shared st) as [st1|st1 e]; cbn [outcome_session] in Hs.
  - etrans; [exact Hs|]. now apply IH.
  - injection H as <-. exact Hs.
Qed.

Lemma handshake_fs (st : session) :
  s_fs (match handshake st with Proceed s | Refused s | Crashed s _ => s end) = s_fs st.
Proof.
  unfold handshake. destruct (Protocol.recv_message (s_in st)) as [r rest].
  destruct r as [|msg|]; try reflexivity.
  destruct (negb (Py.truthy msg)); [reflexivity|].
  destruct (name_in msg) as [[]|]; try reflexivity.
  destruct (get_name msg); reflexivity.
Qed.

Lemma handle_client_fs (shared : string) (st st' : session) :
  handle_client shared st = Some st' ->
  rtc (writer_changes shared) (s_fs st) (s_fs st').
Proof.
  unfold handle_client. pose proof (handshake_fs st) as Hh.
  destruct (handshake st) as [s|s|s e].
  - intros H. apply command_loop_fs in H. now rewrite Hh in H.
  - intros [= <-]. now rewrite Hh.
  - intros [= <-]. now rewrite Hh.
Qed.

(** X6. What a client can reach.  Whatever bytes a client sends, the
    session changes no node whose components fail the component test of
    the sandbox: nothing outside the parent directory of the shared
    folder, and inside it only what lies at or below a name that begins
    with the name of the shared folder. *)
Theorem session_changes_contained (shared : string) (st st' : session) (k : list string) :
  Text.startswith shared "/" = true -> Text.startswith shared "//" = false ->
  all_dirs (s_fs st) (Fs.parent (Fs.key shared)) ->
  handle_client shared st = Some st' ->
  comps_accept (Fs.key shared) k = false ->
  s_fs st' !! k = s_fs st !! k.
Proof.
  intros H1 H2 Hall Hc Hk.
  destruct (decide (Fs.key shared = [])) as [E|Hne].
  - rewrite E in Hk. discriminate.
  - now apply (writer_changes_frame shared _ _ H1 H2 Hne (handle_client_fs _ _ _ Hc) Hall).
Qed.

Lemma session_changes_contained_witness :
  exists st',
    handle_client sample_root
      (connect (frame (JObj [("name", JStr "eve")])
                ++ frame (JObj [("action", JStr "DELETE"); ("path", JStr "../..")]))
         sample_fs) = Some st'
    /\ s_fs st' !! ["srv"] = sample_fs !! ["srv"].
Proof.
  destruct (handle_client_total sample_root
              (connect (frame (JObj [("name", JStr "eve")])
                        ++ frame (JObj [("action", JStr "DELETE"); ("path", JStr "../..")]))
                 sample_fs)) as [st' Hst].
  exists st'. split; [exact Hst|].
  apply (session_changes_contained sample_root
           (connect (frame (JObj [("name", JStr "eve")])
                     ++ frame (JObj [("action", JStr "DELETE"); ("path", JStr "../..")]))
              sample_fs) st' ["srv"]).
  - reflexivity.
  - reflexivity.
  - intros i. destruct i as [|[|i]]; vm_compute; reflexivity.
  - exact Hst.
  - reflexivity.
Defined.

(** ** DELETE and LIST *)

(** X7. DELETE of a path that passes the sandbox test.  A regular file is
    removed and nothing else changes; a directory other than the top one
    is removed with everything below it, and nothing else changes; where
    there is nothing, the answer is an error and nothing changes. *)
Theorem delete_file_spec (fs : Fs.t) (shared p : string) :
  let rel := Text.lstrip_slash p in
  let target := resolve shared rel in
  sandbox_ok shared target = true ->
  (forall data, fs !! Fs.key target = Some (Fs.File data) ->
     Writer._delete_file fs shared (JStr p)
     = (delete (Fs.key target) fs, Py.Ok (delete_result "Archivo eliminado: " rel)))
  /\ (fs !! Fs.key target = Some Fs.Dir -> Fs.key target <> [] ->
      snd (Writer._delete_file fs shared (JStr p))
      = Py.Ok (delete_result "Directorio eliminado: " rel)
      /\ forall k, fst (Writer._delete_file fs shared (JStr p)) !! k
                   = if decide (Fs.key target `prefix_of` k) then None else fs !! k)
  /\ (fs !! Fs.key target = None ->
      Writer._delete_file fs shared (JStr p)
      = (fs, Py.Ok (error_result ("Archivo no encontrado: " +:+ rel)))).
Proof.
  intros rel target Hs.
  unfold Writer._delete_file. cbn [lstrip_path]. fold rel. fold target.
  rewrite Hs. cbn [negb].
  unfold Fs.exists_, Fs.isdir, Fs.rmtree, Fs.remove.
  split; [|split].
  - intros data Ek. rewrite Ek. reflexivity.
  - intros Ek Hne. rewrite Ek. cbn [negb].
    destruct (Fs.key target) as [|c cs] eqn:Et; [congruence|]. cbn [fst snd].
    split; [reflexivity|]. intros k.
    destruct (decide ((c :: cs) `prefix_of` k)) as [Hp|Hp].
    + apply map_lookup_filter_None_2. right. intros x _ Hn. now apply Hn.
    + apply option_eq. intros n. rewrite map_lookup_filter_Some. cbn [fst]. tauto.
  - intros Ek. rewrite Ek. reflexivity.
Qed.

Lemma delete_file_spec_witness :
  snd (Writer._delete_file sample_fs sample_root (JStr "/docs"))
  = Py.Ok (delete_result "Directorio eliminado: " "docs")
  /\ fst (Writer._delete_file sample_fs sample_root (JStr "/docs"))
       !! ["srv"; "share"; "docs"; "b.txt"] = None
  /\ fst (Writer._delete_file sample_fs sample_root (JStr "/docs"))
       !! ["srv"; "share"; "a.txt"] = sample_fs !! ["srv"; "share"; "a.txt"].
Proof.
  destruct (delete_file_spec sample_fs sample_root "/docs") as (_ & H & _);
    [reflexivity|].
  destruct H as [Hr Hf]; [reflexivity|vm_compute; discriminate|].
  split; [exact Hr|]. split.
  - exact (Hf ["srv"; "share"; "docs"; "b.txt"]).
  - exact (Hf ["srv"; "share"; "a.txt"]).
Defined.

Lemma str_le_total : Total Fs.str_le.
Proof. intros a b. apply String.leb_total. Qed.

Lemma child_name_snoc (d : list string) (n : string) : Fs.child_name d (d ++ [n]) = Some n.
Proof.
  unfold Fs.child_name. rewrite reverse_app.
  change (reverse [n] ++ reverse d) with (n :: reverse d). cbv iota beta.
  rewrite reverse_involutive. now destruct (decide (d = d)).
Qed.

Lemma listdir_elem (fs : Fs.t) (d : list string) (n : string) :
  n ∈ omap (fun kn : list string * Fs.node => Fs.child_name d (fst kn)) (map_to_list fs)
  <-> is_Some (fs !! (d ++ [n])).
Proof.
  rewrite list_elem_of_omap. split.
  - intros ([k v] & Hin & Hc). cbn in Hc. apply child_name_Some in Hc as ->.
    apply elem_of_map_to_list in Hin. eauto.
  - intros [v Hv]. exists (d ++ [n], v). split; [now apply elem_of_map_to_list|].
    apply child_name_snoc.
Qed.

Lemma listdir_NoDup (fs : Fs.t) (d : list string) :
  NoDup (omap (fun kn : list string * Fs.node => Fs.child_name d (fst kn)) (map_to_list fs)).
Proof.
  pose proof (NoDup_fst_map_to_list fs) as Hnd.
  induction (map_to_list fs) as [|[k v] l IH]; [constructor|].
  cbn [fmap list_fmap fst] in Hnd. apply NoDup_cons in Hnd as [Hk Hnd].
  cbn [omap list_omap fst]. destruct (Fs.child_name d k) as [n|] eqn:Ec; [|now apply IH].
  apply NoDup_cons. split; [|now apply IH].
  intros Hin. apply list_elem_of_omap in Hin as ([k' v'] & Hin & Hc). cbn in Hc.
  apply child_name_Some in Ec, Hc. subst k k'.
  apply Hk. apply list_elem_of_fmap. now exists (d ++ [n], v').
Qed.

Lemma key_join_child (cs : list string) (n : string) :
  good cs -> good_comp n = true ->
  Fs.key (Posixpath.join ("/" +:+ Text.join_slash cs) n) = cs ++ [n].
Proof.
  intros Hcs Hn.
  assert (Hgood : good (cs ++ [n])).
  { apply Forall_app. split; [exact Hcs|]. now constructor. }
  assert (Hstart : Text.startswith n "/" = false).
  { destruct (good_nonempty _ Hn) as (x & s & -> & Hx). cbn [Text.startswith].
    rewrite Ascii.eqb_sym, Hx. reflexivity. }
  unfold Posixpath.join. rewrite Hstart.
  destruct cs as [|c cs].
  - cbn [Text.join_slash]. rewrite sapp_nil_r. cbn [String.eqb Text.endswith_slash orb].
    change (Ascii.eqb "/" "/") with true. cbn [orb].
    change ("/" +:+ n) with ("/" +:+ Text.join_slash [n]). now apply key_abs.
  - replace (String.eqb ("/" +:+ Text.join_slash (c :: cs)) "") with false
      by (now rewrite sapp_cons).
    replace (Text.endswith_slash ("/" +:+ Text.join_slash (c :: cs))) with false.
    + cbn [orb]. rewrite sapp_assoc.
      replace (Text.join_slash (c :: cs) +:+ "/" +:+ n)
        with (Text.join_slash ((c :: cs) ++ [n])).
      * now apply key_abs.
      * rewrite join_slash_app by discriminate. cbn [Text.join_slash].
        now rewrite sapp_cons, sapp_nil.
    + symmetry. destruct (good_nonempty c) as (x & s & E & _).
      { now apply Forall_cons in Hcs as [Hc _]. }
      pose proof (endswith_slash_join c cs Hcs) as He.
      destruct (Text.join_slash (c :: cs)) as [|y t] eqn:Ej.
      * destruct cs; cbn in Ej; [congruence|].
        rewrite E in Ej. rewrite sapp_cons in Ej. discriminate.
      * rewrite sapp_cons, sapp_nil. exact He.
Qed.

Lemma entry_entry_of (fs : Fs.t) (cs : list string) (n : string) :
  good cs -> good_comp n = true ->
  Reader.entry fs ("/" +:+ Text.join_slash cs) n = entry_of fs cs n.
Proof.
  intros Hcs Hn. unfold Reader.entry, entry_of, Fs.isdir, Fs.isfile, Fs.getsize.
  rewrite key_join_child by assumption.
  destruct (fs !! (cs ++ [n])) as [[data|]|]; reflexivity.
Qed.

(** X8. LIST of a directory that passes the sandbox test, in a file system
    whose names are names: the answer is ok and lists exactly the entries
    of the directory, each one once, in the order of their names by code
    point; a directory is marked as such with size 0 and a regular file
    carries the length of its content. *)
Theorem list_files_spec (fs : Fs.t) (shared d : string) :
  let target := list_target shared d in
  Text.startswith shared "/" = true -> Text.startswith shared "//" = false ->
  sandbox_ok shared target = true ->
  fs !! Fs.key target = Some Fs.Dir ->
  good_names fs ->
  exists names : list string,
    Reader._list_files fs shared (JStr d)
    = Py.Ok (list_result (map (entry_of fs (Fs.key target)) names))
    /\ (forall n, n ∈ names <-> is_Some (fs !! (Fs.key target ++ [n])))
    /\ NoDup names
    /\ Sorted Fs.str_le names.
Proof.
  intros target H1 H2 Hs Hd Hg.
  set (raw := omap (fun kn : list string * Fs.node => Fs.child_name (Fs.key target) (fst kn))
                (map_to_list fs)).
  exists (Fs.sorted raw).
  assert (Hperm : Fs.sorted raw ≡ₚ raw) by apply merge_sort_Permutation.
  assert (Hin : forall n, n ∈ Fs.sorted raw <-> is_Some (fs !! (Fs.key target ++ [n]))).
  { intros n. rewrite Hperm. apply listdir_elem. }
  split; [|split; [exact Hin|split]].
  - unfold Reader._list_files.
    set (d' := if String.eqb d "/" || String.eqb d "" || String.eqb d "." then "" else d).
    assert (Et : target = resolve shared (Text.lstrip_slash d')) by reflexivity.
    replace (if String.eqb d "/" || String.eqb d "" || String.eqb d "."
             then JStr "" else JStr d) with (JStr d')
      by (subst d'; now destruct (_ || _)).
    cbn [lstrip_path]. rewrite <- Et, Hs. cbn [negb].
    unfold Fs.isdir, Fs.listdir. rewrite Hd. cbn [negb]. fold raw.
    do 2 f_equal. unfold list_result. f_equal. f_equal.
    destruct (resolve_abs shared d' H1 H2) as [Eabs Hgood]. rewrite <- Et in Eabs, Hgood.
    apply map_ext_in. intros n Hn. apply list_elem_of_In, Hin in Hn as [v Hv].
    rewrite Eabs at 1. apply entry_entry_of; [exact Hgood|].
    specialize (Hg _ _ Hv). cbn beta in Hg.
    apply Forall_app in Hg as [_ Hg]. now apply Forall_cons in Hg as [Hg _].
  - rewrite Hperm. apply listdir_NoDup.
  - unfold Fs.sorted. apply @Sorted_merge_sort. exact str_le_total.
Qed.

Lemma list_files_spec_witness :
  exists names : list string,
    Reader._list_files sample_fs sample_root (JStr "/")
    = Py.Ok (list_result (map (entry_of sample_fs ["srv"; "share"]) names))
    /\ NoDup names.
Proof.
  destruct (list_files_spec sample_fs sample_root "/") as (names & H & _ & Hn & _).
  - reflexivity.
  - reflexivity.
  - reflexivity.
  - reflexivity.
  - apply (bool_decide_unpack _). vm_compute. reflexivity.
  - exists names. split; [exact H|exact Hn].
Defined.

(** ** What a session writes and logs *)

Lemma framing_ok_app (a : list output) : forall b : list output,
  framing_ok a = true -> framing_ok b = true -> framing_ok (a ++ b) = true.
Proof.
  assert (H : forall n (a b : list output), (length a <= n)%nat ->
              framing_ok a = true -> framing_ok b = true -> framing_ok (a ++ b) = true).
  { clear a. induction n as [|n IH]; intros a b Hl Ha Hb.
    - destruct a; [exact Hb|simpl in Hl; lia].
    - destruct a as [|[m|raw] a']; [exact Hb| |discriminate].
      destruct a' as [|[m'|raw] a''].
      + cbn [app framing_ok]. destruct b as [|[m'|raw] b']; [reflexivity|exact Hb|discriminate].
      + change (framing_ok (OutMsg m' :: a'' ++ b) = true).
        apply (IH (OutMsg m' :: a'') b); [simpl in *; lia|exact Ha|exact Hb].
      + cbn [framing_ok] in Ha. apply andb_true_iff in Ha as [Hm Ha].
        cbn [app framing_ok]. rewrite Hm. cbn [andb].
        apply IH; [simpl in *; lia|exact Ha|exact Hb]. }
  intros b. now apply (H (length a)).
Qed.

Lemma read_file_announces (fs : Fs.t) (shared : string) (path : json) (r : wresult) :
  Reader._read_file fs shared path = Py.Ok r -> w_status r = "ok" ->
  exists data, w_data r = Some data /\ w_size r = Some (Z.of_nat (length data)).
Proof.
  unfold Reader._read_file. destruct (lstrip_path path) as [rel|e]; [|discriminate].
  destruct (negb (sandbox_ok _ _)); [intros [= <-]; discriminate|].
  unfold Fs.isfile, Fs.getsize, Fs.read_bytes.
  destruct (fs !! Fs.key _) as [[data|]|]; cbn [negb];
    try (intros [= <-]; discriminate).
  intros [= <-] _. eauto.
Qed.

Lemma cut_file_announces (fs : Fs.t) (shared : string) (path : json) (r : wresult) :
  snd (Writer._cut_file fs shared path) = Py.Ok r -> w_status r = "ok" ->
  exists data, w_data r = Some data /\ w_size r = Some (Z.of_nat (length data)).
Proof.
  unfold Writer._cut_file. destruct (lstrip_path path) as [rel|e]; [|discriminate].
  destruct (negb (sandbox_ok _ _)); [intros [= <-]; discriminate|].
  unfold Fs.isfile, Fs.read_bytes, Fs.remove.
  destruct (fs !! Fs.key _) as [[data|]|]; cbn [negb snd];
    try (intros [= <-]; discriminate).
  intros [= <-] _. eauto.
Qed.

Lemma send_download_announces (shared : string) (st : session) (path : json) :
  let r := fst (send_to_worker shared st ReadWorker "DOWNLOAD" path None) in
  w_status r = "ok" ->
  exists data, w_data r = Some data /\ w_size r = Some (Z.of_nat (length data)).
Proof.
  cbn. unfold Reader.step, Reader.dispatch. cbn [rq_action rq_path rq_id default from_option id].
  change (Text.upper "DOWNLOAD") with "DOWNLOAD".
  change (String.eqb "DOWNLOAD" "LIST") with false.
  change (String.eqb "DOWNLOAD" "DOWNLOAD") with true. cbv iota.
  destruct (Reader._read_file (s_fs st) shared path) as [r|e] eqn:E; [|discriminate].
  cbn [stamp w_status w_data w_size]. now apply (read_file_announces _ _ _ _ E).
Qed.

Lemma writer_step_cut_announces (fs : Fs.t) (shared : string) (rq : request) :
  rq_action rq = Some "CUT" ->
  let r := snd (Writer.step fs shared rq) in
  w_status r = "ok" ->
  exists data, w_data r = Some data /\ w_size r = Some (Z.of_nat (length data)).
Proof.
  intros Ha. unfold Writer.step, Writer.dispatch. rewrite Ha.
  cbn [default from_option id].
  change (Text.upper "CUT") with "CUT".
  change (String.eqb "CUT" "UPLOAD") with false.
  change (String.eqb "CUT" "DELETE") with false.
  change (String.eqb "CUT" "CUT") with true. cbv iota.
  pose proof (cut_file_announces fs shared (default (JStr "") (rq_path rq))) as H.
  destruct (Writer._cut_file fs shared _) as [fs1 [r|e]]; cbn [fst snd] in *.
  - cbn [stamp w_status w_data w_size]. now apply H.
  - cbn [stamp w_status error_result]. discriminate.
Qed.

Lemma send_cut_announces (shared : string) (st : session) (path : json) :
  let r := fst (send_to_worker shared st WriteWorker "CUT" path None) in
  w_status r = "ok" ->
  exists data, w_data r = Some data /\ w_size r = Some (Z.of_nat (length data)).
Proof.
  unfold send_to_worker.
  set (rq := {| rq_id := Some (fresh_id st); rq_action := Some "CUT";
                rq_path := Some path; rq_data := None |}).
  pose proof (writer_step_cut_announces (s_fs st) shared rq eq_refl) as H.
  destruct (Writer.step (s_fs st) shared rq) as [fs1 r]. exact H.
Qed.

Lemma reply_transfer_out (st : session) (action : string) (r : wresult) :
  (w_status r = "ok" ->
   exists data, w_data r = Some data /\ w_size r = Some (Z.of_nat (length data))) ->
  exists new, s_out (reply_transfer st action r) = s_out st ++ new
              /\ framing_ok new = true
              /\ s_log (reply_transfer st action r) = s_log st.
Proof.
  intros H. unfold reply_transfer. destruct (String.eqb (w_status r) "ok") eqn:E.
  - apply String.eqb_eq in E. destruct (H E) as (data & Hd & Hz).
    eexists. cbn [write s_out s_log]. rewrite <- app_assoc. split; [reflexivity|].
    split; [|reflexivity]. rewrite Hd, Hz. cbn. rewrite Z.eqb_refl. reflexivity.
  - eexists. cbn [write s_out s_log]. split; [reflexivity|]. split; reflexivity.
Qed.

Lemma send_to_worker_trace (shared : string) (st : session) w action path data :
  s_out (snd (send_to_worker shared st w action path data)) = s_out st
  /\ s_log (snd (send_to_worker shared st w action path data)) = s_log st.
Proof.
  unfold send_to_worker. destruct w; [now split|].
  now destruct (Writer.step (s_fs st) shared _).
Qed.

Lemma readexactly_trace (st st' : session) (n : json) (b : bytes) :
  readexactly st n = Py.Ok (b, st') -> s_out st' = s_out st /\ s_log st' = s_log st.
Proof.
  unfold readexactly.
  destruct (match n with JInt z => _ | _ => _ end) as [z|]; [|discriminate].
  destruct (z <? 0); [discriminate|].
  destruct (Protocol.recv_exact _ _) as [[dat|] rest]; [|discriminate].
  now intros [= _ <-].
Qed.

Lemma file_event_intro (a : string) path status detail :
  a ∈ ["LIST"; "DOWNLOAD"; "UPLOAD"; "DELETE"; "CUT"] ->
  Forall file_event [{| ev_action := a; ev_path := path; ev_status := status;
                        ev_detail := detail |}].
Proof. intros H. constructor; [exact H|constructor]. Qed.

Lemma run_command_trace (shared : string) (st : session) msg action :
  let st' := outcome_session (run_command shared st msg action) in
  (exists new, s_out st' = s_out st ++ new /\ framing_ok new = true)
  /\ (exists evs, s_log st' = s_log st ++ evs /\ Forall file_event evs).
Proof.
  unfold run_command. set (path := default (JStr "/") (Dict.get "path" msg)).
  repeat match goal with
         | |- context [if String.eqb action ?v then _ else _] =>
           destruct (String.eqb action v)
         end.
  - destruct (send_to_worker_trace shared st ReadWorker "LIST" path None) as [Ho Hl].
    destruct (send_to_worker _ _ _ _ _ _) as [r st1]. cbn [snd] in *.
    cbn [outcome_session log_event write s_out s_log]. rewrite Ho, Hl. split.
    + eexists. split; [reflexivity|reflexivity].
    + eexists. split; [reflexivity|]. apply file_event_intro. repeat constructor.
  - destruct (send_to_worker_trace shared st ReadWorker "DOWNLOAD" path None) as [Ho Hl].
    pose proof (send_download_announces shared st path) as Ha.
    destruct (send_to_worker _ _ _ _ _ _) as [r st1]. cbn [fst snd] in *.
    destruct (reply_transfer_out st1 "DOWNLOAD" r Ha) as (new & Hn & Hf & Hlog).
    cbn [outcome_session log_event s_out s_log]. rewrite Hn, Hlog, Ho, Hl. split.
    + eauto.
    + eexists. split; [reflexivity|]. apply file_event_intro. repeat constructor.
  - destruct (readexactly _ _) as [[file_data st1]|] eqn:Er.
    + apply readexactly_trace in Er as [Ho1 Hl1]. cbn [write s_out s_log] in Ho1, Hl1.
      destruct (send_to_worker_trace shared st1 WriteWorker "UPLOAD" path (Some file_data))
        as [Ho Hl].
      destruct (send_to_worker _ _ _ _ _ _) as [r st2]. cbn [snd] in *.
      cbn [outcome_session log_event write s_out s_log]. rewrite Ho, Hl, Ho1, Hl1. split.
      * eexists. rewrite <- app_assoc. split; [reflexivity|reflexivity].
      * eexists. split; [reflexivity|]. apply file_event_intro. repeat constructor.
    + cbn [outcome_session write s_out s_log]. split.
      * eexists. split; [reflexivity|reflexivity].
      * exists []. rewrite app_nil_r. split; [reflexivity|constructor].
  - destruct (send_to_worker_trace shared st WriteWorker "DELETE" path None) as [Ho Hl].
    destruct (send_to_worker _ _ _ _ _ _) as [r st1]. cbn [snd] in *.
    cbn [outcome_session log_event write s_out s_log]. rewrite Ho, Hl. split.
    + eexists. split; [reflexivity|reflexivity].
    + eexists. split; [reflexivity|]. apply file_event_intro. repeat constructor.
  - destruct (send_to_worker_trace shared st WriteWorker "CUT" path None) as [Ho Hl].
    pose proof (send_cut_announces shared st path) as Ha.
    destruct (send_to_worker _ _ _ _ _ _) as [r st1]. cbn [fst snd] in *.
    destruct (reply_transfer_out st1 "CUT" r Ha) as (new & Hn & Hf & Hlog).
    cbn [outcome_session log_event s_out s_log]. rewrite Hn, Hlog, Ho, Hl. split.
    + eauto.
    + eexists. split; [reflexivity|]. apply file_event_intro. repeat constructor.
  - cbn [outcome_session write s_out s_log]. split.
    + eexists. split; [reflexivity|reflexivity].
    + exists []. rewrite app_nil_r. split; [reflexivity|constructor].
Qed.

Lemma command_step_trace (shared : string) (st : session) :
  let st' := outcome_session (command_step shared st) in
  (exists new, s_out st' = s_out st ++ new /\ framing_ok new = true)
  /\ (exists evs, s_log st' = s_log st ++ evs /\ Forall file_event evs).
Proof.
  assert (Hsame : forall rest,
             (exists new, s_out (with_in st rest) = s_out st ++ new /\ framing_ok new = true)
             /\ (exists evs, s_log (with_in st rest) = s_log st ++ evs
                             /\ Forall file_event evs)).
  { intros rest. split; exists []; rewrite app_nil_r; split; try reflexivity; constructor. }
  unfold command_step.
  destruct (Protocol.recv_message (s_in st)) as [r rest].
  destruct r as [|msg|]; try apply Hsame.
  destruct msg as [| | | | |d]; try apply Hsame. unfold handle_command.
  destruct (Dict.get "action" d) as [[]|]; try apply Hsame;
    exact (run_command_trace shared (with_in st rest) d _).
Qed.

Lemma command_loop_trace (shared : string) (fuel : nat) : forall st st',
  command_loop fuel shared st = Some st' ->
  (exists new, s_out st' = s_out st ++ new /\ framing_ok new = true)
  /\ (exists evs, s_log st' = s_log st ++ evs ++ [{| ev_action := "DISCONNECT";
                                                    ev_path := JStr "";
                                                    ev_status := "ok";
                                                    ev_detail := "" |}]
                  /\ Forall file_event evs).
Proof.
  induction fuel as [|fuel IH]; intros st st' H; [discriminate|]. cbn [command_loop] in H.
  destruct (command_step_trace shared st) as [(new & Ho & Hf) (evs & Hl & He)].
  destruct (command_step shared st) as [st1|st1 e]; cbn [outcome_session] in *.
  - destruct (IH _ _ H) as [(new' & Ho' & Hf') (evs' & Hl' & He')]. split.
    + exists (new ++ new'). rewrite Ho', Ho, <- app_assoc. split; [reflexivity|].
      now apply framing_ok_app.
    + exists (evs ++ evs'). rewrite Hl', Hl, <- !app_assoc. split; [reflexivity|].
      now apply Forall_app.
  - injection H as <-. unfold disconnect. cbn [log_event s_out s_log]. split.
    + eauto.
    + exists evs. rewrite Hl, <- app_assoc. split; [reflexivity|exact He].
Qed.

(** X9. The framing of transfers.  In everything a session writes, from
    the welcome to the end, raw file bytes come only right after a message
    with status ok whose size is exactly the number of these bytes; so a
    client that reads as many bytes as announced is at a message boundary
    again. *)
Theorem session_framing (shared : string) (st st' : session) :
  framing_ok (s_out st) = true ->
  handle_client shared st = Some st' ->
  framing_ok (s_out st') = true.
Proof.
  intros Hf. unfold handle_client, handshake.
  destruct (Protocol.recv_message (s_in st)) as [r rest].
  assert (Hloop : forall s0, framing_ok (s_out s0) = true ->
                    command_loop (S (length (s_in s0))) shared s0 = Some st' ->
                    framing_ok (s_out st') = true).
  { intros s0 H0 Hc. apply command_loop_trace in Hc as [(new & -> & Hn) _].
    now apply framing_ok_app. }
  destruct r as [|msg|]; try (intros [= <-]; exact Hf).
  destruct (negb (Py.truthy msg)); [intros [= <-]; exact Hf|].
  destruct (name_in msg) as [[]|]; try (intros [= <-]; exact Hf).
  destruct (get_name msg) as [name|e]; [|intros [= <-]; exact Hf].
  apply Hloop. cbn [write log_event with_in s_out]. now apply framing_ok_app.
Qed.

Lemma session_framing_witness :
  exists st',
    handle_client sample_root (connect test_stream empty_share) = Some st'
    /\ framing_ok (s_out st') = true.
Proof.
  destruct (handle_client_total sample_root (connect test_stream empty_share)) as [st' Hst].
  exists st'. split; [exact Hst|].
  apply (session_framing sample_root (connect test_stream empty_share) st');
    [reflexivity|exact Hst].
Defined.


(** ** File transfer *)

Lemma recv_exact_enough (s : bytes) (n : nat) :
  (n <= length s)%nat -> Protocol.recv_exact s n = (Some (take n s), drop n s).
Proof.
  intros H. unfold Protocol.recv_exact.
  destruct (Nat.leb_spec n (length s)); [reflexivity|lia].
Qed.

Lemma recv_exact_short (s : bytes) (n : nat) :
  (length s < n)%nat -> Protocol.recv_exact s n = (None, []).
Proof.
  intros H. unfold Protocol.recv_exact.
  destruct (Nat.leb_spec n (length s)); [lia|reflexivity].
Qed.

Lemma falsy_take (s : bytes) (n : nat) :
  (0 < n <= length s)%nat -> Protocol.falsy (Some (take n s)) = false.
Proof.
  intros H. destruct n; [lia|]. destruct s; [simpl in H; lia|reflexivity].
Qed.

(** Enough bytes on the stream: both loops take exactly [size] bytes. *)
Lemma recv_loop_enough (chunk_size size : Z) (fuel : nat) :
  0 < chunk_size ->
  forall (s : bytes) (received : Z) (written : bytes),
    received <= size ->
    (Z.to_nat (size - received) <= length s)%nat ->
    (Z.to_nat (size - received) < fuel)%nat ->
    FileData.recv_loop fuel s size received chunk_size written
    = Some (FileData.Complete, written ++ take (Z.to_nat (size - received)) s,
            drop (Z.to_nat (size - received)) s)
    /\ FileData.async_recv_loop fuel s size received chunk_size written
       = Some (FileData.Complete, written ++ take (Z.to_nat (size - received)) s,
               drop (Z.to_nat (size - received)) s).
Proof.
  intros Hc. induction fuel as [|fuel IH]; intros s received written Hr Hs Hf; [lia|].
  cbn [FileData.recv_loop FileData.async_recv_loop].
  destruct (Z.ltb_spec received size) as [Hlt|Hge].
  - set (t := Z.min chunk_size (size - received)).
    assert (Ht : 0 < t <= size - received) by lia.
    assert (Htn : (0 < Z.to_nat t <= length s)%nat) by lia.
    unfold FileData.readexactly.
    destruct (Z.ltb_spec t 0) as [?|_]; [lia|].
    rewrite recv_exact_enough by lia. rewrite falsy_take by exact Htn.
    cbn [default from_option id].
    rewrite length_take, Nat.min_l by lia. rewrite Z2Nat.id by lia.
    destruct (IH (drop (Z.to_nat t) s) (received + t) (written ++ take (Z.to_nat t) s))
      as [E1 E2]; [lia|rewrite length_drop; lia|lia|].
    rewrite E1, E2.
    replace (Z.to_nat (size - (received + t)))
      with (Z.to_nat (size - received) - Z.to_nat t)%nat by lia.
    rewrite <- !app_assoc, take_take_drop, drop_drop.
    replace (Z.to_nat t + (Z.to_nat (size - received) - Z.to_nat t))%nat
      with (Z.to_nat (size - received)) by lia.
    now split.
  - replace (Z.to_nat (size - received)) with 0%nat by lia.
    rewrite take_0, drop_0, app_nil_r. now split.
Qed.

(** The stream ends before [size] bytes: the loops stop at the first
    chunk that is not whole. *)
Lemma recv_loop_short (chunk_size size : Z) (fuel : nat) :
  0 < chunk_size ->
  let c := Z.to_nat chunk_size in
  forall (s : bytes) (received : Z) (written : bytes),
    Z.of_nat (length s) < size - received ->
    (length s / c < fuel)%nat ->
    FileData.recv_loop fuel s size received chunk_size written
    = Some (FileData.ConnectionError, written ++ take (c * (length s / c)) s, [])
    /\ exists expected,
        FileData.async_recv_loop fuel s size received chunk_size written
        = Some (FileData.Raised
                  (Py.IncompleteReadError (Z.of_nat (length s mod c)) expected),
                written ++ take (c * (length s / c)) s, []).
Proof.
  intros Hc c. induction fuel as [|fuel IH]; intros s received written Hs Hf; [lia|].
  assert (Hc0 : (0 < c)%nat) by (subst c; lia).
  cbn [FileData.recv_loop FileData.async_recv_loop].
  destruct (Z.ltb_spec received size) as [_|?]; [|lia].
  set (t := Z.min chunk_size (size - received)).
  unfold FileData.readexactly.
  destruct (Z.ltb_spec t 0) as [?|_]; [lia|].
  destruct (Nat.le_gt_cases c (length s)) as [Hle|Hgt].
  - assert (Et : Z.to_nat t = c) by (subst t c; lia).
    rewrite Et, recv_exact_enough by exact Hle.
    rewrite falsy_take by lia. cbn [default from_option id].
    rewrite length_take, Nat.min_l by exact Hle.
    assert (Hdiv : (length (drop c s) / c = length s / c - 1)%nat).
    { rewrite length_drop.
      replace (length s) with ((length s - c) + 1 * c)%nat at 2 by lia.
      rewrite Nat.div_add by lia. lia. }
    assert (Hpos : (1 <= length s / c)%nat).
    { apply Nat.div_le_lower_bound; lia. }
    destruct (IH (drop c s) (received + Z.of_nat c) (written ++ take c s))
      as [E1 (expected & E2)]; [rewrite length_drop; lia|lia|].
    assert (Htake : take c s ++ take (c * (length (drop c s) / c)) (drop c s)
                    = take (c * (length s / c)) s).
    { rewrite take_take_drop. f_equal. rewrite Hdiv. nia. }
    assert (Hmod : (length (drop c s) mod c = length s mod c)%nat).
    { rewrite length_drop.
      replace (length s) with ((length s - c) + 1 * c)%nat at 2 by lia.
      now rewrite Nat.Div0.mod_add. }
    rewrite E1, E2, <- !app_assoc, Htake, Hmod. split; [reflexivity|eauto].
  - assert (Hlt : (length s < Z.to_nat t)%nat) by (subst t c; lia).
    rewrite recv_exact_short by exact Hlt. cbn [Protocol.falsy].
    rewrite Nat.div_small by lia. rewrite Nat.mul_0_r, take_0, app_nil_r.
    rewrite Nat.mod_small by lia. split; [reflexivity|eauto].
Qed.

Lemma write_bytes_open (fs : Fs.t) (p : string) (data : bytes) :
  snd (Fs.write_bytes fs p []) = Py.Ok tt ->
  Fs.write_bytes fs p data = (<[Fs.key p := Fs.File data]> fs, Py.Ok tt).
Proof.
  destruct (write_bytes_cases fs p data) as [(_ & _ & _ & E)|[Hc _]]; [intros _; exact E|].
  destruct (write_bytes_cases fs p []) as [(Hd & Hk & Hp & _)|[_ [e ->]]]; [|discriminate].
  destruct Hc as [?|[?|?]]; congruence.
Qed.

(** X11. Receiving a file.  When the file can be opened for writing, the
    chunk size is positive and the stream holds at least [size] bytes,
    [recv_file_data] and [async_recv_file_data] end normally, the file
    holds exactly the first [size] bytes of the stream, whatever the chunk
    size, nothing else changes, and the stream is left at the byte after
    them (a [size] of zero or less gives an empty file). *)
Theorem recv_file_data_stores (s : bytes) (size : Z) (fs : Fs.t) (filepath : string)
  (chunk_size : Z) :
  0 < chunk_size ->
  (Z.to_nat size <= length s)%nat ->
  snd (Fs.write_bytes fs filepath []) = Py.Ok tt ->
  let stored := <[Fs.key filepath := Fs.File (take (Z.to_nat size) s)]> fs in
  FileData.recv_file_data s size fs filepath chunk_size
  = Some (FileData.Complete, stored, drop (Z.to_nat size) s)
  /\ FileData.async_recv_file_data (S (Z.to_nat size)) s size fs filepath chunk_size
     = Some (FileData.Complete, stored, drop (Z.to_nat size) s).
Proof.
  intros Hc Hs Ho stored. subst stored.
  unfold FileData.recv_file_data, FileData.async_recv_file_data.
  rewrite (write_bytes_open fs filepath [] Ho).
  destruct (Z.le_gt_cases 0 size) as [Hsz|Hsz].
  - destruct (recv_loop_enough chunk_size size (S (Z.to_nat size)) Hc s 0 [])
      as [E1 E2]; [lia|rewrite Z.sub_0_r; exact Hs|rewrite Z.sub_0_r; lia|].
    rewrite E1, E2, Z.sub_0_r. cbn. now rewrite insert_insert_eq.
  - cbn [FileData.recv_loop FileData.async_recv_loop].
    destruct (Z.ltb_spec 0 size) as [?|_]; [lia|].
    replace (Z.to_nat size) with 0%nat by lia. rewrite take_0, drop_0.
    cbn. now rewrite insert_insert_eq.
Qed.

Lemma recv_file_data_stores_witness :
  FileData.recv_file_data (list_ascii_of_string "hello world") 5 sample_fs
    "/srv/share/new.bin" 2
  = Some (FileData.Complete,
          <[["srv"; "share"; "new.bin"] := Fs.File (list_ascii_of_string "hello")]> sample_fs,
          list_ascii_of_string " world").
Proof.
  apply (recv_file_data_stores (list_ascii_of_string "hello world") 5 sample_fs
           "/srv/share/new.bin" 2).
  - lia.
  - vm_compute. lia.
  - vm_compute. reflexivity.
Defined.

(** X12. A transfer cut short.  When the stream ends before [size] bytes,
    [recv_file_data] raises [ConnectionError] and [async_recv_file_data]
    raises [IncompleteReadError]; the file is left behind with the whole
    chunks received before, the bytes of the last, incomplete chunk are
    dropped, and nothing is left of the stream. *)
Theorem recv_file_data_cut_short (s : bytes) (size : Z) (fs : Fs.t) (filepath : string)
  (chunk_size : Z) :
  0 < chunk_size ->
  Z.of_nat (length s) < size ->
  snd (Fs.write_bytes fs filepath []) = Py.Ok tt ->
  let c := Z.to_nat chunk_size in
  let left := <[Fs.key filepath := Fs.File (take (c * (length s / c)) s)]> fs in
  FileData.recv_file_data s size fs filepath chunk_size
  = Some (FileData.ConnectionError, left, [])
  /\ exists expected,
      FileData.async_recv_file_data (S (Z.to_nat size)) s size fs filepath chunk_size
      = Some (FileData.Raised (Py.IncompleteReadError (Z.of_nat (length s mod c)) expected),
              left, []).
Proof.
  intros Hc Hs Ho c left. subst left.
  unfold FileData.recv_file_data, FileData.async_recv_file_data.
  rewrite (write_bytes_open fs filepath [] Ho).
  assert (Hdiv : (length s / c <= length s)%nat).
  { apply Nat.Div0.div_le_upper_bound. subst c. nia. }
  destruct (recv_loop_short chunk_size size (S (Z.to_nat size)) Hc s 0 [])
    as [E1 (expected & E2)]; [lia|fold c; lia|].
  fold c in E1, E2. rewrite E1, E2. cbn. rewrite insert_insert_eq. split; [reflexivity|eauto].
Qed.

Lemma recv_file_data_cut_short_witness :
  FileData.recv_file_data (list_ascii_of_string "hello") 8 sample_fs
    "/srv/share/new.bin" 2
  = Some (FileData.ConnectionError,
          <[["srv"; "share"; "new.bin"] := Fs.File (list_ascii_of_string "hell")]> sample_fs,
          []).
Proof.
  apply (recv_file_data_cut_short (list_ascii_of_string "hello") 8 sample_fs
           "/srv/share/new.bin" 2).
  - lia.
  - vm_compute. reflexivity.
  - vm_compute. reflexivity.
Defined.

Lemma send_loop_spec (chunk_size : Z) (fuel : nat) :
  chunk_size <> 0 ->
  forall rest : bytes,
    (length rest < fuel)%nat ->
    exists chunks,
      FileData.send_loop fuel rest chunk_size = Some chunks
      /\ concat chunks = rest
      /\ Forall (fun c : bytes => c <> []
                                  /\ (0 < chunk_size -> Z.of_nat (length c) <= chunk_size))
           chunks.
Proof.
  intros Hc. induction fuel as [|fuel IH]; intros rest Hf; [lia|].
  cbn [FileData.send_loop]. unfold FileData.read.
  destruct (Z.ltb_spec chunk_size 0) as [Hneg|Hpos].
  - destruct rest as [|b rest]; [exists []; repeat split; constructor|].
    destruct (IH []) as (chunks & E & Hcat & Hall); [simpl in *; lia|].
    rewrite E. exists ((b :: rest) :: chunks). cbn [fmap option_fmap option_map concat].
    rewrite Hcat, app_nil_r. split; [reflexivity|]. split; [reflexivity|].
    constructor; [|exact Hall]. split; [discriminate|lia].
  - destruct (take (Z.to_nat chunk_size) rest) as [|b t] eqn:Et.
    + exists []. split; [reflexivity|]. split; [|constructor].
      destruct rest; [reflexivity|].
      destruct (Z.to_nat chunk_size) eqn:En; [lia|discriminate].
    + destruct (IH (drop (Z.to_nat chunk_size) rest)) as (chunks & E & Hcat & Hall).
      { rewrite length_drop. assert (0 < Z.to_nat chunk_size)%nat by lia.
        destruct rest; [rewrite take_nil in Et; discriminate|simpl in *; lia]. }
      rewrite E. exists ((b :: t) :: chunks). cbn [fmap option_fmap option_map concat].
      rewrite Hcat, <- Et, take_drop. split; [reflexivity|]. split; [reflexivity|].
      constructor; [|exact Hall]. split; [rewrite Et; discriminate|].
      intros _. rewrite length_take. lia.
Qed.



(** X14. A chunk size of zero.  [send_file_data] then sends nothing of a
    file, whatever it holds; [recv_file_data] asked for a positive number
    of bytes raises [ConnectionError] at once, leaving an empty file and
    the stream untouched; and the loop of [async_recv_file_data] does not
    end: no number of turns completes it. *)
Theorem chunk_size_zero (fs : Fs.t) (filepath : string) (data s : bytes) (size : Z) :
  0 < size ->
  (fs !! Fs.key filepath = Some (Fs.File data) ->
   FileData.send_file_data fs filepath 0 = Some (Py.Ok []))
  /\ (snd (Fs.write_bytes fs filepath []) = Py.Ok tt ->
      FileData.recv_file_data s size fs filepath 0
      = Some (FileData.ConnectionError, <[Fs.key filepath := Fs.File []]> fs, s)
      /\ forall fuel,
          FileData.async_recv_file_data fuel s size fs filepath 0 = None).
Proof.
  intros Hsz. split.
  - intros Hf. unfold FileData.send_file_data, Fs.read_bytes. rewrite Hf. reflexivity.
  - intros Ho. unfold FileData.recv_file_data, FileData.async_recv_file_data.
    rewrite (write_bytes_open fs filepath [] Ho). split.
    + cbn [FileData.recv_loop]. destruct (Z.ltb_spec 0 size) as [_|?]; [|lia].
      replace (Z.to_nat (Z.min 0 (size - 0))) with 0%nat by lia.
      unfold Protocol.recv_exact. cbn [Nat.leb Protocol.falsy].
      rewrite take_0, drop_0. cbn [mbind option_bind]. now rewrite insert_insert_eq.
    + intros fuel.
      assert (Hloop : forall written,
                 FileData.async_recv_loop fuel s size 0 0 written = None).
      { induction fuel as [|fuel IH]; intros written; [reflexivity|].
        cbn [FileData.async_recv_loop]. destruct (Z.ltb_spec 0 size) as [_|?]; [|lia].
        replace (Z.min 0 (size - 0)) with 0 by lia.
        unfold FileData.readexactly. cbn [Z.ltb Z.compare Z.to_nat].
        unfold Protocol.recv_exact. cbn [Nat.leb].
        rewrite take_0, drop_0. apply IH. }
      now rewrite Hloop.
Qed.

Lemma chunk_size_zero_witness :
  FileData.send_file_data sample_fs "/srv/share/a.txt" 0 = Some (Py.Ok [])
  /\ forall fuel,
      FileData.async_recv_file_data fuel (list_ascii_of_string "hello") 5 sample_fs
        "/srv/share/new.bin" 0 = None.
Proof.
  destruct (chunk_size_zero sample_fs "/srv/share/a.txt" (list_ascii_of_string "hello")
              (list_ascii_of_string "hello") 5) as [Hs _]; [lia|].
  destruct (chunk_size_zero sample_fs "/srv/share/new.bin" (list_ascii_of_string "hello")
              (list_ascii_of_string "hello") 5) as [_ Hr]; [lia|].
  split.
  - apply Hs. reflexivity.
  - apply Hr. vm_compute. reflexivity.
Defined.

(** ** The client *)

Lemma basename_no_slash (p : string) : no_slash (Client.basename p).
Proof.
  unfold no_slash. induction p as [|c p IH]; [reflexivity|].
  cbn [Client.basename]. destruct (Py.has_char "/" p) eqn:Hp; [exact IH|].
  destruct (Ascii.eqb c "/") eqn:Hc; [exact Hp|].
  cbn [Py.has_char]. now rewrite Hc, Hp.
Qed.

Lemma split_slash_app_gen (a b : string) :
  Text.split_slash (a +:+ String "/" b) = Text.split_slash a ++ Text.split_slash b.
Proof.
  induction a as [|c a IH]; [reflexivity|].
  rewrite sapp_cons. cbn [Text.split_slash]. rewrite IH.
  destruct (Ascii.eqb c "/"); [reflexivity|].
  pose proof (split_slash_nonempty a).
  destruct (Text.split_slash a); [congruence|reflexivity].
Qed.

Lemma endswith_slash_inv (s : string) :
  Text.endswith_slash s = true -> exists s', s = s' +:+ "/".
Proof.
  induction s as [|c s IH]; [discriminate|].
  destruct s as [|c' s].
  - cbn [Text.endswith_slash]. intros H. apply Ascii.eqb_eq in H as ->. now exists "".
  - intros H. destruct (IH H) as [s' E]. exists (String c s'). now rewrite sapp_cons, <- E.
Qed.

Lemma no_slash_start (f : string) : no_slash f -> Text.startswith f "/" = false.
Proof.
  unfold no_slash. destruct f as [|c f]; [reflexivity|]. cbn [Py.has_char Text.startswith].
  intros H. apply orb_false_iff in H as [H _]. rewrite Ascii.eqb_sym, H. reflexivity.
Qed.

(** The place of [f] in the directory [dd], for a name without slash. *)
Lemma key_join (dd f : string) :
  no_slash f ->
  Fs.key (Posixpath.join dd f) = rev (Posixpath.norm_step true (rev (Fs.key dd)) f).
Proof.
  intros Hf. unfold Posixpath.join. rewrite (no_slash_start f Hf).
  unfold Fs.key, Posixpath.path_key, Posixpath.norm_comps. rewrite rev_involutive.
  destruct (String.eqb_spec dd "") as [->|Hne].
  - cbn [orb]. rewrite sapp_nil, (split_slash_plain f Hf). reflexivity.
  - cbn [orb]. destruct (Text.endswith_slash dd) eqn:He.
    + destruct (endswith_slash_inv dd He) as [d' ->].
      rewrite sapp_assoc. change ("/" +:+ f) with (String "/" f).
      rewrite split_slash_app_gen, (split_slash_plain f Hf), split_slash_snoc.
      rewrite !fold_left_app. reflexivity.
    + change ("/" +:+ f) with (String "/" f).
      rewrite split_slash_app_gen, (split_slash_plain f Hf), fold_left_app. reflexivity.
Qed.

Lemma good_comp_cases (f : string) :
  no_slash f -> f = "" \/ f = "." \/ f = ".." \/ good_comp f = true.
Proof.
  intros Hf. unfold good_comp. rewrite Hf. cbn [negb andb].
  destruct (String.eqb_spec f ""); [now left|].
  destruct (String.eqb_spec f "."); [now (right; left)|].
  destruct (String.eqb_spec f ".."); [now (right; right; left)|].
  now (right; right; right).
Qed.

Lemma key_join_cases (dd f : string) :
  no_slash f ->
  Fs.key (Posixpath.join dd f) = Fs.key dd
  \/ Fs.key (Posixpath.join dd f) = Fs.parent (Fs.key dd)
  \/ Fs.key (Posixpath.join dd f) = Fs.key dd ++ [f].
Proof.
  intros Hf. rewrite (key_join dd f Hf).
  pose proof (norm_comps_good dd) as Hg. fold (Posixpath.path_key dd) in Hg.
  fold (Fs.key dd) in Hg.
  destruct (good_comp_cases f Hf) as [->|[->|[->|Hgood]]].
  - left. cbn. apply rev_involutive.
  - left. cbn. apply rev_involutive.
  - right. left. unfold Posixpath.norm_step. cbn [String.eqb Ascii.eqb Bool.eqb orb negb andb].
    destruct (Fs.key dd) as [|c cs] eqn:Ek using rev_ind; [reflexivity|].
    rewrite rev_app_distr. cbn [rev app].
    apply Forall_app in Hg as [_ Hc]. apply Forall_cons in Hc as [Hc _].
    unfold good_comp in Hc. rewrite !andb_true_iff, !negb_true_iff in Hc.
    destruct Hc as [_ Hdd]. rewrite Hdd. rewrite rev_involutive.
    unfold Fs.parent. now rewrite removelast_last.
  - right. right. rewrite norm_step_good by exact Hgood. cbn [rev].
    now rewrite rev_involutive.
Qed.

(** The loop of [recv_file_data] ends on the fuel it is given. *)
Lemma recv_loop_total (chunk_size size : Z) (fuel : nat) :
  forall (s : bytes) (received : Z) (written : bytes),
    0 <= received ->
    (Z.to_nat (size - received) < fuel)%nat ->
    is_Some (FileData.recv_loop fuel s size received chunk_size written).
Proof.
  induction fuel as [|fuel IH]; intros s received written Hr Hf; [lia|].
  cbn [FileData.recv_loop].
  destruct (Z.ltb_spec received size) as [Hlt|Hge]; [|eauto].
  destruct (Protocol.recv_exact s _) as [chunk s'] eqn:Ee.
  destruct chunk as [[|b chunk]|]; cbn [Protocol.falsy]; eauto.
  cbn [default from_option id]. apply IH; [lia|]. cbn [length]. lia.
Qed.

Lemma recv_file_data_total (s : bytes) (size : Z) (fs : Fs.t) (filepath : string)
  (chunk_size : Z) :
  is_Some (FileData.recv_file_data s size fs filepath chunk_size).
Proof.
  unfold FileData.recv_file_data.
  destruct (Fs.write_bytes fs filepath []) as [fs1 [[]|e]]; [|eauto].
  destruct (recv_loop_total chunk_size size (S (Z.to_nat size)) s 0 []) as [[[e w] r] E];
    [lia|lia|].
  rewrite E. cbn. eauto.
Qed.

Lemma downloaded_refl (dir : list string) (fs : Fs.t) : downloaded dir fs fs.
Proof. intros k. now left. Qed.

Lemma downloaded_trans (dir : list string) (fs1 fs2 fs3 : Fs.t) :
  downloaded dir fs1 fs2 -> downloaded dir fs2 fs3 -> downloaded dir fs1 fs3.
Proof.
  intros H12 H23 k. destruct (H23 k) as [E|H]; [|now right].
  rewrite E. apply H12.
Qed.

(** What [recv_file_data] into the download folder does to the file
    system of the client. *)
Lemma recv_into_download_dir (s : bytes) (size : Z) (fs : Fs.t) (dd path : string)
  (chunk : Z) (e : FileData.ending) (fs' : Fs.t) (rest : bytes) :
  tree fs -> fs !! Fs.key dd = Some Fs.Dir ->
  FileData.recv_file_data s size fs (Posixpath.join dd (Client.basename path)) chunk
  = Some (e, fs', rest) ->
  tree fs' /\ fs' !! Fs.key dd = Some Fs.Dir /\ downloaded (Fs.key dd) fs fs'.
Proof.
  intros Ht Hd. unfold FileData.recv_file_data.
  set (dest := Posixpath.join dd (Client.basename path)).
  destruct (write_bytes_cases fs dest []) as [(Hnd & Hne & Hp & ->)|[_ [ex ->]]].
  2:{ intros [= _ <- _]. split; [exact Ht|]. split; [exact Hd|apply downloaded_refl]. }
  destruct (FileData.recv_loop _ _ _ _ _ _) as [[[e0 w] r]|]; [|discriminate].
  cbn. intros [= _ <- _]. rewrite insert_insert_eq.
  assert (Hk : Fs.key dest = Fs.key dd ++ [Client.basename path]).
  { destruct (key_join_cases dd (Client.basename path) (basename_no_slash path))
      as [E|[E|E]]; [| |exact E]; fold dest in E.
    - rewrite E in Hnd. congruence.
    - rewrite E in Hnd. exfalso. apply Hnd. exact (tree_parent _ _ _ Ht Hd). }
  split; [now apply tree_insert|]. split.
  - rewrite lookup_insert_ne; [exact Hd|]. rewrite Hk. intros E.
    apply (f_equal (@length string)) in E. rewrite length_app in E. simpl in E. lia.
  - intros k. destruct (decide (k = Fs.key dest)) as [->|Hne'].
    + right. exists (Client.basename path), w. split; [exact Hk|apply lookup_insert_eq].
    + left. now apply lookup_insert_ne.
Qed.

Lemma client_send_fs (st st' : Client.state) (msg : json) :
  Client.send st msg = Some st' -> Client.c_fs st' = Client.c_fs st.
Proof.
  unfold Client.send. destruct (Protocol.send_message msg); [|discriminate].
  now intros [= <-].
Qed.

Lemma client_recv_fs (st : Client.state) :
  Client.c_fs (snd (Client.recv st)) = Client.c_fs st.
Proof.
  unfold Client.recv. destruct (Protocol.recv_message _) as [r rest].
  now destruct r.
Qed.

Lemma client_request_fs (Q : Client.state -> Prop) (st : Client.state) (msg : json)
  (on_ok : Client.state -> json -> Client.outcome) :
  (forall s, Client.c_fs s = Client.c_fs st -> Q s) ->
  (forall s resp, Client.c_fs s = Client.c_fs st -> Q (outcome_state (on_ok s resp))) ->
  Q (outcome_state (Client.request st msg on_ok)).
Proof.
  intros Hsame Hok. unfold Client.request.
  destruct (Client.send st msg) as [st1|] eqn:Es; [|now apply Hsame].
  apply client_send_fs in Es.
  pose proof (client_recv_fs st1) as Er.
  destruct (Client.recv st1) as [[resp|] st2]; cbn [snd] in Er;
    [|apply Hsame; cbn [outcome_state Client.c_fs snd fst]; congruence].
  destruct (Client.status_is resp "ok") as [[]|]; [|
    destruct (Client.get_message_raises resp); apply Hsame; cbn [outcome_state Client.c_fs snd fst]; congruence
    |apply Hsame; cbn [outcome_state Client.c_fs snd fst]; congruence].
  apply Hok. congruence.
Qed.

Lemma client_receive_file_fs (dd : string) (st : Client.state) (d : list (string * json)) :
  tree (Client.c_fs st) -> Client.c_fs st !! Fs.key dd = Some Fs.Dir ->
  let st' := outcome_state (Client.receive_file dd st d) in
  tree (Client.c_fs st') /\ Client.c_fs st' !! Fs.key dd = Some Fs.Dir
  /\ downloaded (Fs.key dd) (Client.c_fs st) (Client.c_fs st').
Proof.
  intros Ht Hd.
  assert (Hsame : tree (Client.c_fs st) /\ Client.c_fs st !! Fs.key dd = Some Fs.Dir
                  /\ downloaded (Fs.key dd) (Client.c_fs st) (Client.c_fs st)).
  { split; [exact Ht|]. split; [exact Hd|apply downloaded_refl]. }
  unfold Client.receive_file.
  destruct (Dict.get "size" d) as [file_size|]; [|exact Hsame].
  destruct (Dict.get "path" d) as [[|b|z|path|l|o]|]; try exact Hsame.
  destruct (Client.format_size_raises file_size); [exact Hsame|].
  destruct (FileData.recv_file_data _ _ _ _ _) as [[[e fs'] rest]|] eqn:Er; [|exact Hsame].
  apply (recv_into_download_dir _ _ _ _ _ _ _ _ _ Ht Hd) in Er.
  destruct e; exact Er.
Qed.

Lemma client_command_fs (dd : string) (cwd : list string) (st : Client.state) (raw : string) :
  tree (Client.c_fs st) -> Client.c_fs st !! Fs.key dd = Some Fs.Dir ->
  let st' := outcome_state (Client.command dd cwd st raw) in
  tree (Client.c_fs st') /\ Client.c_fs st' !! Fs.key dd = Some Fs.Dir
  /\ downloaded (Fs.key dd) (Client.c_fs st) (Client.c_fs st').
Proof.
  intros Ht Hd.
  set (Q := fun s : Client.state =>
              tree (Client.c_fs s) /\ Client.c_fs s !! Fs.key dd = Some Fs.Dir
              /\ downloaded (Fs.key dd) (Client.c_fs st) (Client.c_fs s)).
  assert (Hsame : forall s, Client.c_fs s = Client.c_fs st -> Q s).
  { intros s E. unfold Q. rewrite E. split; [exact Ht|]. split; [exact Hd|apply downloaded_refl]. }
  assert (Htransfer : forall action arg,
             Q (outcome_state (Client.transfer_command dd st action arg))).
  { intros action arg. unfold Client.transfer_command.
    destruct (String.eqb arg ""); [now apply Hsame|].
    apply client_request_fs; [exact Hsame|].
    intros s resp E. destruct resp; try (apply Hsame; exact E).
    unfold Q. rewrite <- E. rewrite <- E in Ht, Hd.
    now apply client_receive_file_fs. }
  change (Q (outcome_state (Client.command dd cwd st raw))).
  unfold Client.command. destruct (Client.split1 raw) as [word arg].
  repeat match goal with
         | |- context [if ?b then _ else _] =>
           match b with
           | context [Client.lower word] => destruct b
           end
         end; try (now apply Hsame); try apply Htransfer.
  - apply client_request_fs; [exact Hsame|].
    intros s resp E. destruct resp; try (apply Hsame; exact E).
    destruct (Client.print_entries_raises _); apply Hsame; exact E.
  - unfold Client.upload_command.
    destruct (String.eqb arg ""); [now apply Hsame|].
    destruct (Client.file_at _ _ _) as [[k data]|]; [|now apply Hsame].
    destruct (Client.send st _) as [st1|] eqn:Es; [|now apply Hsame].
    apply client_send_fs in Es.
    pose proof (client_recv_fs st1) as Er.
    destruct (Client.recv st1) as [[ready|] st2]; cbn [snd] in Er;
      [|apply Hsame; cbn [outcome_state Client.c_fs snd fst]; congruence].
    destruct (Client.get_status_is ready "ready") as [[]|];
      [|apply Hsame; cbn [outcome_state Client.c_fs snd fst]; congruence..].
    destruct (FileData.send_loop _ _ _) as [chunks|]; [|apply Hsame; cbn [outcome_state Client.c_fs snd fst]; congruence].
    match goal with |- context [Client.recv ?s] =>
      pose proof (client_recv_fs s) as Er2; destruct (Client.recv s) as [[resp|] st3]
    end; cbn [snd Client.c_fs] in Er2; [|apply Hsame; cbn [outcome_state Client.c_fs snd fst]; congruence].
    destruct (Client.status_is resp "ok") as [[]|];
      [destruct (Client.message_raises resp)|destruct (Client.get_message_raises resp)|];
      apply Hsame; cbn [outcome_state Client.c_fs snd fst]; congruence.
  - destruct (String.eqb arg ""); [now apply Hsame|].
    apply client_request_fs; [exact Hsame|].
    intros s resp E. destruct (Client.message_raises resp); apply Hsame; exact E.
Qed.

Lemma client_loop_fs (dd : string) (cwd : list string) (lines : list string) :
  forall st : Client.state,
    tree (Client.c_fs st) -> Client.c_fs st !! Fs.key dd = Some Fs.Dir ->
    downloaded (Fs.key dd) (Client.c_fs st)
      (Client.c_fs (fst (Client.loop dd cwd lines st))).
Proof.
  induction lines as [|line lines IH]; intros st Ht Hd; [apply downloaded_refl|].
  cbn [Client.loop]. destruct (String.eqb (Client.strip line) ""); [now apply IH|].
  destruct (client_command_fs dd cwd st (Client.strip line) Ht Hd) as (Ht' & Hd' & Hdl).
  destruct (Client.command dd cwd st (Client.strip line)) as [st'|st' why];
    cbn [outcome_state fst] in *; [|exact Hdl].
  eapply downloaded_trans; [exact Hdl|]. now apply IH.
Qed.

(** X15. The client keeps to its download folder.  Started on a tree,
    whatever lines are typed and whatever bytes the server sends, when
    [main] ends every node of the client's file system is as before, or
    is a directory on the way to the download folder that [makedirs]
    created, or is a regular file directly in the download folder: the
    path in an answer of the server can choose the name of that file and
    nothing else. *)
Theorem client_keeps_to_download_dir (cwd client_name download_dir_arg : string)
  (lines : list string) (from_server : bytes) (fs : Fs.t) (k : list string) :
  tree fs ->
  let download_dir := Posixpath.abspath cwd download_dir_arg in
  let fs' := Client.c_fs (fst (Client.main cwd client_name download_dir_arg lines
                                 from_server fs)) in
  fs' !! k = fs !! k
  \/ (fs !! k = None /\ fs' !! k = Some Fs.Dir /\ k `prefix_of` Fs.key download_dir)
  \/ (exists n data, k = Fs.key download_dir ++ [n] /\ fs' !! k = Some (Fs.File data)).
Proof.
  intros Ht download_dir fs'. subst fs'. unfold Client.main. fold download_dir.
  unfold Fs.makedirs.
  pose proof (mkdirs_tree download_dir (Fs.key download_dir) [] fs Ht (proj1 Ht)) as Ht1.
  destruct (Fs.mkdirs fs [] (Fs.key download_dir) download_dir) as [fs1 made] eqn:Hm.
  cbn [fst] in Ht1.
  assert (Hmk : fs1 !! k = fs !! k
                \/ (fs !! k = None /\ fs1 !! k = Some Fs.Dir
                    /\ k `prefix_of` Fs.key download_dir)).
  { destruct (mkdirs_result _ _ _ _ _ _ Hm k) as [E|(Hn & Hd & i & Hi & ->)]; [now left|].
    right. split; [exact Hn|]. split; [exact Hd|]. cbn [rev app]. apply prefix_take. }
  assert (Hfin : forall s : Client.state, Client.c_fs s = fs1 ->
             Client.c_fs s !! k = fs !! k
             \/ (fs !! k = None /\ Client.c_fs s !! k = Some Fs.Dir
                 /\ k `prefix_of` Fs.key download_dir)
             \/ (exists n data, k = Fs.key download_dir ++ [n]
                                /\ Client.c_fs s !! k = Some (Fs.File data))).
  { intros s ->. destruct Hmk as [E|H]; [now left|now (right; left)]. }
  destruct made as [[]|e]; [|now apply Hfin].
  assert (Hd1 : fs1 !! Fs.key download_dir = Some Fs.Dir).
  { destruct (Fs.key download_dir) as [|c cs] eqn:Ek.
    - cbn in Hm. injection Hm as <-. exact (proj1 Ht).
    - rewrite <- (take_ge (c :: cs) (length (c :: cs))) by lia.
      apply (mkdirs_made _ _ _ _ _ Hm). simpl. lia. }
  destruct (Client.send _ _) as [st1|] eqn:Es; [|now apply Hfin].
  apply client_send_fs in Es. cbn [Client.c_fs] in Es.
  pose proof (client_recv_fs st1) as Er.
  destruct (Client.recv st1) as [[welcome|] st2]; cbn [snd fst] in *;
    [|apply Hfin; cbn [outcome_state Client.c_fs snd fst]; congruence].
  destruct (Client.get_status_is welcome "ok") as [[]|]; [|apply Hfin; cbn [outcome_state Client.c_fs snd fst]; congruence..].
  destruct (Client.message_raises welcome); [apply Hfin; cbn [outcome_state Client.c_fs snd fst]; congruence|].
  assert (E2 : Client.c_fs st2 = fs1) by congruence.
  pose proof (client_loop_fs download_dir (Fs.key cwd) lines st2) as Hl.
  rewrite E2 in Hl. specialize (Hl Ht1 Hd1 k).
  destruct Hl as [E|H]; [|now (right; right)].
  rewrite E. destruct Hmk as [E'|H]; [now left|now (right; left)].
Qed.

Lemma client_keeps_to_download_dir_witness :
  let fs' := Client.c_fs
               (fst (Client.main "/srv" "eve" "share2" ["cp x"; "exit"]
                       (frame (welcome (JStr "eve"))
                        ++ frame (JObj [("status", JStr "ok"); ("action", JStr "DOWNLOAD");
                                        ("path", JStr "../../srv/share/a.txt");
                                        ("size", JInt 2)])
                        ++ list_ascii_of_string "hi")
                       sample_fs)) in
  fs' !! ["srv"; "share"; "a.txt"] = sample_fs !! ["srv"; "share"; "a.txt"]
  \/ (sample_fs !! ["srv"; "share"; "a.txt"] = None
      /\ fs' !! ["srv"; "share"; "a.txt"] = Some Fs.Dir
      /\ ["srv"; "share"; "a.txt"] `prefix_of` Fs.key (Posixpath.abspath "/srv" "share2"))
  \/ (exists n data,
         ["srv"; "share"; "a.txt"] = Fs.key (Posixpath.abspath "/srv" "share2") ++ [n]
         /\ fs' !! ["srv"; "share"; "a.txt"] = Some (Fs.File data)).
Proof.
  apply (client_keeps_to_download_dir "/srv" "eve" "share2" ["cp x"; "exit"]).
  apply (bool_decide_unpack _). vm_compute. reflexivity.
Defined.

(** ** Client and server together *)

Lemma recv_message_frame (m : json) (rest : bytes) :
  wf_json m -> is_Some (Protocol.send_message m) ->
  Protocol.recv_message (frame m ++ rest) = (Protocol.RecvMsg m, rest).
Proof.
  intros Hwf [framed Hsend]. unfold frame. rewrite Hsend. cbn [default from_option id].
  unfold Protocol.send_message in Hsend.
  destruct (Protocol.pack_u32 _) as [h|] eqn:Hp; [|discriminate].
  simpl in Hsend. injection Hsend as <-.
  apply pack_u32_spec in Hp as [Hlen Hun].
  unfold Protocol.recv_message, Protocol.HEADER_SIZE.
  rewrite <- app_assoc. rewrite <- Hlen at 1. rewrite recv_exact_app.
  destruct h as [|h0 h]; [discriminate|].
  cbn [Protocol.falsy default from_option id]. rewrite Hun, Nat2Z.id, recv_exact_app.
  destruct (dumps_head m) as (c & t & E & _).
  pose proof (decode_encode_utf8 (Json.dumps m)) as Hde.
  pose proof (loads_dumps m Hwf) as Hld.
  rewrite E in *.
  destruct (Text.encode_utf8 (String c t)) as [|p0 p] eqn:Ee.
  { now apply encode_utf8_nonempty in Ee. }
  cbn [Protocol.falsy default from_option id]. rewrite Hde. simpl. rewrite Hld. reflexivity.
Qed.

Lemma lstrip_slash_id (s : string) :
  Text.startswith s "/" = false -> Text.lstrip_slash s = s.
Proof.
  destruct s as [|c s]; [reflexivity|]. cbn [Text.startswith Text.lstrip_slash].
  destruct (Ascii.eqb_spec "/" c) as [<-|Hne]; [discriminate|]. intros _.
  destruct c as [[] [] [] [] [] [] [] []]; try reflexivity. congruence.
Qed.

(** An upload that the file system allows is stored. *)
Lemma save_file_ok (fs : Fs.t) (shared p : string) (data : bytes) :
  let rel := Text.lstrip_slash p in
  let target := resolve shared rel in
  Text.startswith shared "/" = true ->
  Text.startswith shared "//" = false ->
  sandbox_ok shared target = true ->
  fs !! [] = Some Fs.Dir ->
  no_file_above fs (Fs.parent (Fs.key target)) ->
  fs !! Fs.key target <> Some Fs.Dir ->
  exists fs',
    Writer._save_file fs shared (JStr p) data = (fs', Py.Ok (save_result rel data))
    /\ fs' !! Fs.key target = Some (Fs.File data).
Proof.
  intros rel target H1 H2 Hs Htop Hno Hnd.
  destruct (key_dirname shared p H1 H2) as [Hkd Hdn]. fold rel target in Hkd, Hdn.
  assert (Hk : Fs.key target <> []) by (intros E; now rewrite E in Hnd).
  destruct (mkdirs_ok (Posixpath.dirname target) (Fs.parent (Fs.key target)) [] fs)
    as (fs1 & Hm & Hd & Hu).
  { intros i dat _. apply Hno. }
  simpl in Hd, Hu.
  assert (Hsame : fs1 !! Fs.key target = fs !! Fs.key target).
  { apply Hu. intros i Hi E. apply (f_equal (@length string)) in E.
    rewrite length_take, parent_length in E by exact Hk.
    destruct (Fs.key target); [congruence | simpl in *; lia]. }
  assert (Hpar : fs1 !! Fs.parent (Fs.key target) = Some Fs.Dir).
  { destruct (Fs.parent (Fs.key target)) as [|c cs] eqn:Ep.
    - rewrite Hu; [exact Htop|]. intros j Hj. simpl in Hj. lia.
    - rewrite <- (take_ge (c :: cs) (length (c :: cs))) by lia. apply Hd. simpl. lia. }
  exists (<[Fs.key target := Fs.File data]> fs1). split; [|apply lookup_insert_eq].
  unfold Writer._save_file. cbn [lstrip_path]. fold rel. fold target.
  rewrite Hs. cbn [negb].
  apply String.eqb_neq in Hdn. rewrite Hdn. cbn [negb].
  unfold Fs.makedirs. rewrite Hkd, Hm.
  unfold Fs.write_bytes. rewrite Hsame, Hpar.
  destruct (decide (Fs.key target = [])); [congruence|].
  destruct (fs !! Fs.key target) as [[dat|]|]; try congruence; reflexivity.
Qed.

Lemma split1_command (word arg : string) :
  Forall (fun c => Client.is_space c = false) (list_ascii_of_string word) ->
  word <> "" ->
  Client.lstrip arg = arg ->
  Client.split1 (word +:+ " " +:+ arg) = (word, arg).
Proof.
  intros Hw Hne Ha. unfold Client.split1.
  assert (Hl : Client.lstrip (word +:+ " " +:+ arg) = word +:+ " " +:+ arg).
  { destruct word as [|c w]; [congruence|]. rewrite sapp_cons. cbn [Client.lstrip].
    cbn [list_ascii_of_string] in Hw. apply Forall_cons in Hw as [Hc _]. now rewrite Hc. }
  rewrite Hl. clear Hl Hne.
  induction word as [|c w IH].
  - rewrite sapp_nil. change (" " +:+ arg) with (String " " arg).
    cbn [Client.split_word]. change (Client.is_space " ") with true. cbv iota.
    now rewrite Ha.
  - cbn [list_ascii_of_string] in Hw. apply Forall_cons in Hw as [Hc Hw].
    rewrite sapp_cons. cbn [Client.split_word]. rewrite Hc, (IH Hw). reflexivity.
Qed.

Lemma command_step_upload (shared name : string) (data more : bytes) (st : session)
  (fs' : Fs.t) (r : wresult) :
  let request := JObj [("action", JStr "UPLOAD"); ("path", JStr name);
                       ("size", JInt (Z.of_nat (length data)))] in
  is_Some (Protocol.send_message request) ->
  s_in st = frame request ++ data ++ more ->
  Writer._save_file (s_fs st) shared (JStr name) data = (fs', Py.Ok r) ->
  exists st',
    command_step shared st = Continue st'
    /\ s_in st' = more
    /\ s_fs st' = fs'
    /\ s_out st' = s_out st ++ [OutMsg (JObj [("status", JStr "ready");
                                              ("action", JStr "UPLOAD")]);
                                OutMsg (reply_status_message "UPLOAD" r)].
Proof.
  intros request Hfit Hin Hsave.
  unfold command_step. rewrite Hin, recv_message_frame; [|
    subst request; simpl; repeat split; apply (bool_decide_unpack _); reflexivity
    |exact Hfit].
  subst request. unfold handle_command.
  change (Dict.get "action" _) with (Some (JStr "UPLOAD")). cbv iota.
  change (Text.upper "UPLOAD") with "UPLOAD".
  unfold run_command.
  change (String.eqb "UPLOAD" "LIST") with false.
  change (String.eqb "UPLOAD" "DOWNLOAD") with false.
  change (String.eqb "UPLOAD" "UPLOAD") with true. cbv iota.
  change (Dict.get "path" _) with (Some (JStr name)).
  change (Dict.get "size" _) with (Some (JInt (Z.of_nat (length data)))).
  cbn [default from_option id].
  unfold readexactly. cbn [write with_in s_in].
  destruct (Z.ltb_spec (Z.of_nat (length data)) 0) as [?|_]; [lia|].
  rewrite Nat2Z.id, recv_exact_app.
  unfold send_to_worker. cbn [with_in write s_fs s_in s_out s_log s_next].
  unfold Writer.step, Writer.dispatch. cbn [rq_action rq_path rq_data rq_id default from_option id].
  change (Text.upper "UPLOAD") with "UPLOAD".
  change (String.eqb "UPLOAD" "UPLOAD") with true. cbv iota.
  rewrite Hsave.
  eexists. split; [reflexivity|]. cbn [log_event write s_in s_fs s_out].
  split; [reflexivity|]. split; [reflexivity|].
  rewrite <- app_assoc. reflexivity.
Qed.

Lemma client_recv_frame (m : json) (rest sent : bytes) (fs : Fs.t) :
  wf_json m -> is_Some (Protocol.send_message m) ->
  Client.recv {| Client.c_in := frame m ++ rest; Client.c_sent := sent; Client.c_fs := fs |}
  = (Some m, {| Client.c_in := rest; Client.c_sent := sent; Client.c_fs := fs |}).
Proof.
  intros Hwf Hfit. unfold Client.recv. cbn [Client.c_in Client.c_sent Client.c_fs].
  now rewrite recv_message_frame.
Qed.

Lemma client_send_frame (m : json) (st : Client.state) :
  is_Some (Protocol.send_message m) ->
  Client.send st m
  = Some {| Client.c_in := Client.c_in st; Client.c_sent := Client.c_sent st ++ frame m;
            Client.c_fs := Client.c_fs st |}.
Proof.
  intros [framed E]. unfold Client.send, frame. rewrite E. reflexivity.
Qed.

Lemma fits_ready :
  is_Some (Protocol.send_message (JObj [("status", JStr "ready"); ("action", JStr "UPLOAD")])).
Proof. vm_compute. eauto. Qed.

(** X16. An upload from the command line to the shared folder.  For a
    command [put <file>] naming a regular file of the client, with
    messages that fit their frames and a shared folder where the file of
    that name can be stored, the client and the server agree on the
    exchange: reading the [ready] and the answer of the server, the client
    sends the request with the name and the size of the file and then its
    content; reading exactly these bytes, the server answers [ready] and
    then ok, and has stored the content under the name of the file in the
    shared folder. *)
Theorem upload_end_to_end (shared download_dir arg : string) (cwd k : list string)
  (data : bytes) (lfs sfs : Fs.t) (more_c more_s : bytes) :
  let name := Client.basename arg in
  let target := resolve shared name in
  let request := JObj [("action", JStr "UPLOAD"); ("path", JStr name);
                       ("size", JInt (Z.of_nat (length data)))] in
  let ready := JObj [("status", JStr "ready"); ("action", JStr "UPLOAD")] in
  let answer := JObj [("status", JStr "ok"); ("action", JStr "UPLOAD");
                      ("message", JStr ("Archivo guardado: " +:+ name +:+ " ("
                                        +:+ Text.str_of_Z (Z.of_nat (length data))
                                        +:+ " bytes)"))] in
  arg <> "" -> Client.lstrip arg = arg ->
  Client.file_at lfs cwd arg = Some (k, data) ->
  is_Some (Protocol.send_message request) ->
  is_Some (Protocol.send_message answer) ->
  Text.startswith shared "/" = true ->
  Text.startswith shared "//" = false ->
  sandbox_ok shared target = true ->
  sfs !! [] = Some Fs.Dir ->
  no_file_above sfs (Fs.parent (Fs.key target)) ->
  sfs !! Fs.key target <> Some Fs.Dir ->
  Client.command download_dir cwd
    {| Client.c_in := frame ready ++ frame answer ++ more_c; Client.c_sent := [];
       Client.c_fs := lfs |} ("put " +:+ arg)
  = Client.Next {| Client.c_in := more_c; Client.c_sent := frame request ++ data;
                   Client.c_fs := lfs |}
  /\ exists st',
      command_step shared
        {| s_in := frame request ++ data ++ more_s; s_fs := sfs; s_out := [];
           s_log := []; s_next := 0 |} = Continue st'
      /\ s_in st' = more_s
      /\ s_out st' = [OutMsg ready; OutMsg answer]
      /\ s_fs st' !! Fs.key target = Some (Fs.File data).
Proof.
  intros name target request ready answer Hne Hl Hfile Hfr Hfa H1 H2 Hs Htop Hno Hnd.
  assert (Hname : Text.lstrip_slash name = name).
  { apply lstrip_slash_id, no_slash_start, basename_no_slash. }
  split.
  - unfold Client.command. change ("put " +:+ arg) with ("put" +:+ " " +:+ arg).
    rewrite (split1_command "put" arg); [|repeat constructor|discriminate|exact Hl].
    change (Client.lower "put") with "put". cbn [String.eqb Ascii.eqb Bool.eqb orb andb].
    unfold Client.upload_command.
    apply String.eqb_neq in Hne. rewrite Hne. cbn [Client.c_fs].
    rewrite Hfile. fold name. fold request.
    rewrite (client_send_frame request _ Hfr). cbn [Client.c_in Client.c_sent Client.c_fs app].
    rewrite (client_recv_frame ready); [|
      simpl; repeat split; apply (bool_decide_unpack _); reflexivity|exact fits_ready].
    change (Client.get_status_is ready "ready") with (Some true). cbv iota.
    destruct (send_loop_spec Client.chunk_size (S (length data))) with (rest := data)
      as (chunks & Ec & Hcat & _); [discriminate|lia|].
    rewrite Ec, Hcat. cbn [Client.c_in Client.c_sent Client.c_fs].
    rewrite (client_recv_frame answer); [|
      simpl; repeat split; apply (bool_decide_unpack _); reflexivity|exact Hfa].
    change (Client.status_is answer "ok") with (Some true). cbv iota.
    change (Client.message_raises answer) with false. cbv iota.
    reflexivity.
  - destruct (save_file_ok sfs shared name data) as (fs' & Hsave & Hstored);
      try rewrite Hname; try assumption.
    rewrite Hname in Hsave, Hstored.
    destruct (command_step_upload shared name data more_s
                {| s_in := frame request ++ data ++ more_s; s_fs := sfs; s_out := [];
                   s_log := []; s_next := 0 |} fs' (save_result name data) Hfr eq_refl Hsave)
      as (st' & Hstep & Hin & Hfs & Hout).
    exists st'. split; [exact Hstep|]. split; [exact Hin|]. split; [exact Hout|].
    rewrite Hfs. exact Hstored.
Qed.

Lemma upload_end_to_end_witness :
  let name := "b.txt" in
  let data := list_ascii_of_string "bye" in
  let request := JObj [("action", JStr "UPLOAD"); ("path", JStr name); ("size", JInt 3)] in
  let ready := JObj [("status", JStr "ready"); ("action", JStr "UPLOAD")] in
  let answer := JObj [("status", JStr "ok"); ("action", JStr "UPLOAD");
                      ("message", JStr "Archivo guardado: b.txt (3 bytes)")] in
  Client.command "/srv/share2" ["srv"; "share"]
    {| Client.c_in := frame ready ++ frame answer ++ []; Client.c_sent := [];
       Client.c_fs := sample_fs |} "put docs/b.txt"
  = Client.Next {| Client.c_in := []; Client.c_sent := frame request ++ data;
                   Client.c_fs := sample_fs |}.
Proof.
  apply (upload_end_to_end sample_root "/srv/share2" "docs/b.txt" ["srv"; "share"]
           ["srv"; "share"; "docs"; "b.txt"] (list_ascii_of_string "bye")
           sample_fs empty_share [] []).
  - discriminate.
  - reflexivity.
  - reflexivity.
  - vm_compute. eauto.
  - vm_compute. eauto.
  - reflexivity.
  - reflexivity.
  - reflexivity.
  - reflexivity.
  - intros i dat. destruct i as [|[|[|i]]]; vm_compute; discriminate.
  - vm_compute. discriminate.
Defined.










Lemma client_main_welcomed (cwd client_name download_dir_arg : string)
  (lines : list string) (more : bytes) (fs : Fs.t) :
  let hello := JObj [("name", JStr client_name)] in
  let download_dir := Posixpath.abspath cwd download_dir_arg in
  is_Some (Protocol.send_message hello) ->
  is_Some (Protocol.send_message (welcome (JStr client_name))) ->
  snd (Fs.makedirs fs download_dir) = Py.Ok tt ->
  Client.main cwd client_name download_dir_arg lines
    (frame (welcome (JStr client_name)) ++ more) fs
  = Client.loop download_dir (Fs.key cwd) lines
      {| Client.c_in := more; Client.c_sent := frame hello;
         Client.c_fs := fst (Fs.makedirs fs download_dir) |}.
Proof.
  intros hello download_dir Hfh Hfw Hmk. unfold Client.main. fold download_dir.
  destruct (Fs.makedirs fs download_dir) as [fs1 made]. cbn [fst snd] in *. subst made.
  fold hello.
  rewrite (client_send_frame hello _ Hfh). cbn [Client.c_in Client.c_sent Client.c_fs app].
  rewrite (client_recv_frame (welcome (JStr client_name))); [|
    simpl; repeat split; apply (bool_decide_unpack _); reflexivity|exact Hfw].
  reflexivity.
Qed.

(** X19. The handshake of client and server.  For every name given on the
    command line, also the empty one, when the two messages fit their
    frames: reading the first message of the client, the server accepts
    the session, logs CONNECT and answers with the welcome; and reading
    that welcome, the client, once it has made its download folder,
    enters its command loop having sent exactly that first message. *)
Theorem handshake_end_to_end (cwd client_name download_dir_arg : string)
  (lines : list string) (more_c more_s : bytes) (lfs sfs : Fs.t) :
  let hello := JObj [("name", JStr client_name)] in
  let download_dir := Posixpath.abspath cwd download_dir_arg in
  is_Some (Protocol.send_message hello) ->
  is_Some (Protocol.send_message (welcome (JStr client_name))) ->
  snd (Fs.makedirs lfs download_dir) = Py.Ok tt ->
  (exists st',
      handshake (connect (frame hello ++ more_s) sfs) = Proceed st'
      /\ s_in st' = more_s
      /\ s_out st' = [OutMsg (welcome (JStr client_name))]
      /\ ev_action <$> s_log st' = ["CONNECT"])
  /\ Client.main cwd client_name download_dir_arg lines
       (frame (welcome (JStr client_name)) ++ more_c) lfs
     = Client.loop download_dir (Fs.key cwd) lines
         {| Client.c_in := more_c; Client.c_sent := frame hello;
            Client.c_fs := fst (Fs.makedirs lfs download_dir) |}.
Proof.
  intros hello download_dir Hfh Hfw Hmk. split.
  - unfold handshake, connect. cbn [s_in].
    rewrite recv_message_frame; [|
      simpl; repeat split; apply (bool_decide_unpack _); reflexivity|exact Hfh].
    eexists. split; [reflexivity|]. cbn. repeat split; reflexivity.
  - now apply client_main_welcomed.
Qed.

Lemma handshake_end_to_end_witness :
  exists st',
    handshake (connect (frame (JObj [("name", JStr "")]) ++ []) sample_fs) = Proceed st'
    /\ s_out st' = [OutMsg (welcome (JStr ""))].
Proof.
  destruct (handshake_end_to_end "/srv" "" "share2" [] [] [] sample_fs sample_fs)
    as [(st' & Hs & _ & Ho & _) _].
  - vm_compute. eauto.
  - vm_compute. eauto.
  - vm_compute. reflexivity.
  - exists st'. split; [exact Hs|exact Ho].
Defined.

(** ** Requests in flight and their answers *)

Lemma deliver_other (pending : Pending.t) (r : wresult) (i : string) :
  w_id r <> Some i -> Pending.deliver pending r !! i = pending !! i.
Proof.
  intros Hne. unfold Pending.deliver.
  destruct (w_id r) as [j|]; [|reflexivity].
  destruct (pending !! j) as [e|]; [|reflexivity].
  destruct (Pending.future e); [reflexivity|].
  apply lookup_insert_ne. congruence.
Qed.

Lemma poll_other (got : list wresult) : forall (pending : Pending.t) (i : string),
  Forall (fun r => w_id r <> Some i) got ->
  Pending.poll pending got !! i = pending !! i.
Proof.
  induction got as [|r got IH]; intros pending i H; [reflexivity|].
  apply Forall_cons in H as [Hr H]. cbn [Pending.poll fold_left].
  etrans; [apply (IH _ _ H)|]. now apply deliver_other.
Qed.

Lemma poll_done (got : list wresult) : forall (pending : Pending.t) (i : string) e r,
  pending !! i = Some e -> Pending.future e = Some r ->
  Pending.poll pending got !! i = Some e.
Proof.
  induction got as [|r0 got IH]; intros pending i e r He Hf; [exact He|].
  cbn [Pending.poll fold_left]. apply (IH _ _ e r); [|exact Hf].
  unfold Pending.deliver. destruct (w_id r0) as [j|]; [|exact He].
  destruct (pending !! j) as [e'|] eqn:Ej; [|exact He].
  destruct (Pending.future e') eqn:Ef; [exact He|].
  rewrite lookup_insert_ne; [exact He|]. intros ->. congruence.
Qed.

(** The first result with the identifier of a waiting future resolves
    it, whatever comes before and after. *)
Lemma poll_first (got : list wresult) : forall (pending : Pending.t) (i : string) w r,
  pending !! i = Some {| Pending.future := None; Pending.queue_resp := w |} ->
  head (filter (fun r => w_id r = Some i) got) = Some r ->
  Pending.poll pending got !! i
  = Some {| Pending.future := Some r; Pending.queue_resp := w |}.
Proof.
  induction got as [|r0 got IH]; intros pending i w r He Hh; [discriminate|].
  cbn [Pending.poll fold_left]. rewrite filter_cons in Hh.
  destruct (decide (w_id r0 = Some i)) as [E|Hne].
  - cbn [head] in Hh. injection Hh as ->.
    apply (poll_done _ _ _ _ r); [|reflexivity].
    unfold Pending.deliver. rewrite E, He. cbn [Pending.future Pending.queue_resp].
    apply lookup_insert_eq.
  - apply IH; [|exact Hh]. rewrite deliver_other by exact Hne. exact He.
Qed.

Lemma register_all_lookup (reqs : list (string * worker)) :
  forall (pending : Pending.t) (i : string) (w : worker),
    NoDup (map fst reqs) -> (i, w) ∈ reqs ->
    register_all pending reqs !! i
    = Some {| Pending.future := None; Pending.queue_resp := w |}.
Proof.
  induction reqs as [|[j w'] reqs IH]; intros pending i w Hnd Hin.
  - now apply elem_of_nil in Hin.
  - cbn [map fst] in Hnd. apply NoDup_cons in Hnd as [Hj Hnd].
    cbn [register_all fold_left fst snd].
    apply elem_of_cons in Hin as [[= -> ->]|Hin].
    + assert (Hkeep : forall (l : list (string * worker)) (p : Pending.t) e,
                 j ∉ map fst l -> p !! j = Some e ->
                 fold_left (fun p rw => Pending.register p (fst rw) (snd rw)) l p !! j
                 = Some e).
      { clear. induction l as [|[k v] l IHl]; intros p e Hn Hp; [exact Hp|].
        cbn [fold_left fst snd]. cbn [map fst] in Hn. apply not_elem_of_cons in Hn as [Hk Hn].
        apply IHl; [exact Hn|]. unfold Pending.register.
        now rewrite lookup_insert_ne by congruence. }
      apply Hkeep; [exact Hj|]. apply lookup_insert_eq.
    + now apply IH.
Qed.

Lemma filter_none (l : list wresult) (i : string) :
  (forall y, y ∈ l -> w_id y <> Some i) ->
  filter (fun r => w_id r = Some i) l = [].
Proof.
  induction l as [|x l IH]; intros H; [reflexivity|].
  rewrite filter_cons. destruct (decide (w_id x = Some i)) as [E|_].
  - exfalso. apply (H x); [constructor|exact E].
  - apply IH. intros y Hy. apply H. now constructor.
Qed.

Lemma filter_unique (l : list wresult) (r : wresult) (i : string) :
  NoDup (map w_id l) -> r ∈ l -> w_id r = Some i ->
  filter (fun r => w_id r = Some i) l = [r].
Proof.
  induction l as [|x l IH]; intros Hnd Hin Hr; [now apply elem_of_nil in Hin|].
  cbn [map] in Hnd. apply NoDup_cons in Hnd as [Hx Hnd].
  rewrite filter_cons. apply elem_of_cons in Hin as [->|Hin].
  - destruct (decide (w_id x = Some i)) as [_|?]; [|congruence]. f_equal.
    apply filter_none. intros y Hy Ey.
    apply Hx. rewrite Hr, <- Ey. apply list_elem_of_fmap. now exists y.
  - destruct (decide (w_id x = Some i)) as [E|_]; [|now apply IH].
    exfalso. apply Hx. rewrite E, <- Hr. apply list_elem_of_fmap. now exists r.
Qed.

Lemma sent_to_fst (w : worker) (reqs : list (string * request)) :
  map fst (sent_to w reqs) = map fst reqs.
Proof. unfold sent_to. rewrite map_map. reflexivity. Qed.

(** X20. Answers reach their requests.  For requests in flight with
    pairwise distinct identifiers, some sent to the read worker and some
    to the write worker, once [poll_response_queues] has taken the
    answers of the workers, in whatever order they arrive, every
    [send_to_worker] returns the answer the worker gave to its own
    request and removes its entry from the table, leaving the others. *)
Theorem answers_reach_their_requests (fs : Fs.t) (shared : string)
  (reads writes : list (string * request)) (got : list wresult)
  (pending : Pending.t) :
  let ids := map fst reads ++ map fst writes in
  let answers :=
    map (fun x => Reader.step fs shared (with_id (snd x) (fst x))) reads
    ++ snd (writer_serve fs shared (map (fun x => with_id (snd x) (fst x)) writes)) in
  let table := register_all pending (sent_to ReadWorker reads ++ sent_to WriteWorker writes) in
  NoDup ids ->
  got ≡ₚ answers ->
  forall (j : nat) (i : string) (r : wresult),
    ids !! j = Some i -> answers !! j = Some r ->
    Pending.complete (Pending.poll table got) i
    = Some (r, delete i (Pending.poll table got)).
Proof.
  intros ids answers table Hnd Hperm j i r Hi Hr.
  assert (Hids : Forall2 (fun i r => w_id r = Some i) ids answers).
  { subst ids answers. apply Forall2_app.
    - clear. induction reads as [|[k rq] l IH]; constructor; [reflexivity|exact IH].
    - pose proof (writer_serve_ids shared (map (fun x => with_id (snd x) (fst x)) writes) fs)
        as H.
      revert H. generalize (snd (writer_serve fs shared
                                   (map (fun x => with_id (snd x) (fst x)) writes))).
      clear. induction writes as [|[k rq] l IH]; intros rs H.
      + inversion H. constructor.
      + inversion H as [|? r ? rs' Hr Hrs]; subst. constructor; [exact Hr|now apply IH]. }
  assert (Hwi : w_id r = Some i).
  { eapply Forall2_lookup_lr in Hids; eauto. }
  assert (Hmap : map w_id answers = map Some ids).
  { clear -Hids. induction Hids as [|a b la lb Hab _ IH]; [reflexivity|].
    cbn [map]. now rewrite Hab, IH. }
  assert (Hnd' : NoDup (map w_id got)).
  { rewrite Hperm, Hmap. apply (NoDup_fmap_2 _). exact Hnd. }
  assert (Hin : r ∈ got).
  { rewrite Hperm. eapply list_elem_of_lookup_2. exact Hr. }
  assert (Hreg : exists w, table !! i
                           = Some {| Pending.future := None; Pending.queue_resp := w |}).
  { assert (Hw : exists w, (i, w) ∈ sent_to ReadWorker reads ++ sent_to WriteWorker writes).
    { apply list_elem_of_lookup_2 in Hi. subst ids. apply elem_of_app in Hi as [Hi|Hi].
      - exists ReadWorker. apply elem_of_app. left.
        apply list_elem_of_fmap in Hi as (x & -> & Hx).
        apply list_elem_of_fmap. now exists x.
      - exists WriteWorker. apply elem_of_app. right.
        apply list_elem_of_fmap in Hi as (x & -> & Hx).
        apply list_elem_of_fmap. now exists x. }
    destruct Hw as [w Hw]. exists w. apply register_all_lookup; [|exact Hw].
    now rewrite map_app, !sent_to_fst. }
  destruct Hreg as [w Hreg].
  unfold Pending.complete.
  rewrite (poll_first got table i w r Hreg); [reflexivity|].
  now rewrite (filter_unique got r i Hnd' Hin Hwi).
Qed.

Lemma answers_reach_their_requests_witness :
  let list_rq := {| rq_id := None; rq_action := Some "LIST"; rq_path := Some (JStr "/");
                    rq_data := None |} in
  let del_rq := {| rq_id := None; rq_action := Some "DELETE";
                   rq_path := Some (JStr "a.txt"); rq_data := None |} in
  let answers :=
    map (fun x => Reader.step sample_fs sample_root (with_id (snd x) (fst x)))
      [("id-1", list_rq)]
    ++ snd (writer_serve sample_fs sample_root
              (map (fun x => with_id (snd x) (fst x)) [("id-2", del_rq)])) in
  let table := register_all ∅ (sent_to ReadWorker [("id-1", list_rq)]
                               ++ sent_to WriteWorker [("id-2", del_rq)]) in
  exists r, answers !! 1%nat = Some r
    /\ Pending.complete (Pending.poll table (reverse answers)) "id-2"
       = Some (r, delete "id-2" (Pending.poll table (reverse answers))).
Proof.
  intros list_rq del_rq answers table.
  assert (H : exists r, answers !! 1%nat = Some r) by (vm_compute; eauto).
  destruct H as [r Hr]. exists r. split; [exact Hr|].
  apply (answers_reach_their_requests sample_fs sample_root [("id-1", list_rq)]
           [("id-2", del_rq)] (reverse answers) ∅) with (j := 1%nat).
  - apply (bool_decide_unpack _). vm_compute. reflexivity.
  - apply reverse_Permutation.
  - reflexivity.
  - exact Hr.
Defined.

(** ** The audit store *)

Lemma insert_log_stored (now : string) (table : list (list Logger.bound))
  (timestamp : string) (name : json) (nb : Logger.bound) (ip : string) (port : Z)
  (ev : event) (pb : Logger.bound) :
  Logger.bind name = Some nb -> nb <> Logger.Null ->
  - 2 ^ 63 <= port < 2 ^ 63 ->
  Logger.bind (ev_path ev) = Some pb ->
  Logger._insert_log now table (queued_event timestamp name ip port ev)
  = Some (table ++ [stored_row timestamp nb ip port ev pb]).
Proof.
  intros Hn Hnn Hp Hpb. unfold Logger._insert_log, Logger.columns, queued_event.
  cbn [mapM Logger.cell Dict.get String.eqb Ascii.eqb Bool.eqb default from_option id
       mbind option_bind mret option_ret Logger.bind].
  rewrite Hn, Hpb.
  destruct (Z.leb_spec (- 2 ^ 63) port) as [_|?]; [|lia].
  destruct (Z.ltb_spec port (2 ^ 63)) as [_|?]; [|lia].
  cbn [andb mbind option_bind].
  destruct nb; [congruence| |]; destruct pb; reflexivity.
Qed.

Lemma insert_log_unnamed (now : string) (table : list (list Logger.bound))
  (timestamp : string) (name : json) (ip : string) (port : Z) (ev : event) :
  Logger.bind name = None \/ Logger.bind name = Some Logger.Null ->
  Logger._insert_log now table (queued_event timestamp name ip port ev) = None.
Proof.
  intros Hn. unfold Logger._insert_log, Logger.columns, queued_event.
  cbn [mapM Logger.cell Dict.get String.eqb Ascii.eqb Bool.eqb default from_option id
       mbind option_bind mret option_ret Logger.bind].
  destruct Hn as [-> | ->]; reflexivity.
Qed.

(** X21. What the logger stores.  For events queued by [log_event] for a
    client whose name binds to a text or a number, with a port in the
    range of 64 bits and paths that bind, followed by the sentinel: the
    logger stops at the sentinel having added one row for each event, in
    the order of the queue, with the fields of the event. *)
Theorem logger_stores_events (clock : nat -> string) (evs : list (string * event)) :
  forall (n : nat) (table : list (list Logger.bound)) (name : json) (nb : Logger.bound)
    (ip : string) (port : Z) (rest : list (option (list (string * json)))),
    Logger.bind name = Some nb -> nb <> Logger.Null ->
    - 2 ^ 63 <= port < 2 ^ 63 ->
    Forall (fun te => is_Some (Logger.bind (ev_path (snd te)))) evs ->
    Logger.logger_loop clock n table (queued name ip port evs ++ None :: rest)
    = (table ++ map (fun te => stored_row (fst te) nb ip port (snd te)
                                 (default Logger.Null (Logger.bind (ev_path (snd te)))))
                  evs,
       Stopped).
Proof.
  induction evs as [|[t ev] evs IH]; intros n table name nb ip port rest Hn Hnn Hp Hall.
  - cbn. now rewrite app_nil_r.
  - apply Forall_cons in Hall as [[pb Hpb] Hall]. cbn [fst snd] in Hpb.
    cbn [queued map app Logger.logger_loop fst snd].
    rewrite (insert_log_stored _ _ _ _ _ _ _ _ _ Hn Hnn Hp Hpb).
    cbn [default from_option id]. fold (queued name ip port evs).
    rewrite (IH _ _ _ _ _ _ _ Hn Hnn Hp Hall), Hpb, <- app_assoc. reflexivity.
Qed.

Lemma logger_drops_unnamed (clock : nat -> string) (evs : list (string * event)) :
  forall (n : nat) (table : list (list Logger.bound)) (name : json)
    (ip : string) (port : Z) (rest : list (option (list (string * json)))),
    Logger.bind name = None \/ Logger.bind name = Some Logger.Null ->
    Logger.logger_loop clock n table (queued name ip port evs ++ None :: rest)
    = (table, Stopped).
Proof.
  induction evs as [|[t ev] evs IH]; intros n table name ip port rest Hn; [reflexivity|].
  cbn [queued map app Logger.logger_loop fst snd].
  rewrite (insert_log_unnamed _ _ _ _ _ _ _ Hn). cbn [default from_option id].
  fold (queued name ip port evs). now apply IH.
Qed.

Lemma handshake_log (st s0 : session) :
  handshake st = Proceed s0 ->
  exists ce, s_log s0 = s_log st ++ [ce] /\ ev_action ce = "CONNECT".
Proof.
  unfold handshake.
  destruct (Protocol.recv_message (s_in st)) as [r rest].
  destruct r as [|msg|]; try discriminate.
  destruct (negb (Py.truthy msg)); [discriminate|].
  destruct (name_in msg) as [[]|]; try discriminate.
  destruct (get_name msg) as [name|e]; [|discriminate].
  intros [= <-]. eexists. split; reflexivity.
Qed.

(** X22. A session that leaves no trace.  A first message whose [name] is
    null, a list, a dict or an integer beyond 64 bits is accepted like any
    other: the session is welcomed and served, and it queues at least the
    events CONNECT and DISCONNECT for the logger.  But none of its events
    can be inserted: the logger reports each failure and goes on, and when
    it stops the table is the one it started with. *)
Theorem session_without_rows (shared : string) (st : session) (name : json) :
  session_name st = Some name ->
  Logger.bind name = None \/ Logger.bind name = Some Logger.Null ->
  (exists st0, handshake st = Proceed st0
               /\ s_out st0 = s_out st ++ [OutMsg (welcome name)])
  /\ forall (st' : session) (times : list string) (clock : nat -> string)
       (table : list (list Logger.bound)) (ip : string) (port : Z),
      handle_client shared st = Some st' ->
      (length (s_log st) + 2 <= length (s_log st'))%nat
      /\ Logger.logger_worker clock table
           (queued name ip port (zip times (s_log st')) ++ [None])
         = (table, Stopped).
Proof.
  intros Hname Hbind.
  assert (Hacc : exists st0, handshake st = Proceed st0
                             /\ s_out st0 = s_out st ++ [OutMsg (welcome name)]).
  { unfold session_name in Hname. unfold handshake.
    destruct (Protocol.recv_message (s_in st)) as [r rest]. cbn [fst] in Hname.
    destruct r as [|[| | | | |d]|]; try discriminate.
    destruct d as [|kv d]; [discriminate|]. cbn [Py.truthy negb name_in].
    unfold Dict.mem, get_name. rewrite Hname. cbv iota.
    eexists. split; reflexivity. }
  split; [exact Hacc|].
  intros st' times clock table ip port Hc. split.
  - destruct Hacc as (st0 & Hh & _). unfold handle_client in Hc. rewrite Hh in Hc.
    destruct (handshake_log st st0 Hh) as (ce & Hl0 & _).
    apply command_loop_trace in Hc as [_ (evs & Hl & _)].
    rewrite Hl, Hl0, !length_app. cbn [length]. lia.
  - unfold Logger.logger_worker. now apply logger_drops_unnamed.
Qed.

Lemma logger_stores_events_witness :
  let evs := [("11:58", {| ev_action := "CONNECT"; ev_path := JStr ""; ev_status := "ok";
                           ev_detail := "Cliente bob conectado" |});
              ("11:59", {| ev_action := "LIST"; ev_path := JStr "/"; ev_status := "ok";
                           ev_detail := "" |})] in
  Logger.logger_loop (fun _ => "12:00") 0 []
    (queued (JStr "bob") "10.0.0.7" 5000 evs ++ None :: [])
  = ([[Logger.Text "11:58"; Logger.Text "bob"; Logger.Text "10.0.0.7"; Logger.Int 5000;
       Logger.Text "CONNECT"; Logger.Text ""; Logger.Text "ok";
       Logger.Text "Cliente bob conectado"];
      [Logger.Text "11:59"; Logger.Text "bob"; Logger.Text "10.0.0.7"; Logger.Int 5000;
       Logger.Text "LIST"; Logger.Text "/"; Logger.Text "ok"; Logger.Text ""]],
     Stopped).
Proof.
  intros evs.
  apply (logger_stores_events (fun _ => "12:00") evs 0 [] (JStr "bob") (Logger.Text "bob")
           "10.0.0.7" 5000 []).
  - reflexivity.
  - discriminate.
  - lia.
  - repeat constructor; cbn; eauto.
Defined.

Lemma session_without_rows_witness :
  exists st0,
    handshake (connect (frame (JObj [("name", JArr [])])) sample_fs) = Proceed st0
    /\ s_out st0 = [] ++ [OutMsg (welcome (JArr []))].
Proof.
  apply (session_without_rows sample_root
           (connect (frame (JObj [("name", JArr [])])) sample_fs) (JArr [])).
  - vm_compute. reflexivity.
  - left. reflexivity.
Defined.

(** ** More on the session and the operations *)

(** X23. An empty frame ends the session.  A frame of length zero, and a
    frame that holds [null], are taken for the end of the stream: the
    command loop is left as if the client had closed the connection,
    DISCONNECT is logged and what the client sent after that frame is
    never read; at the handshake the connection is closed without a
    reply. *)
Theorem empty_frame_ends_session (shared : string) (st : session) (rest : bytes) :
  s_in st = [Text.chr 0; Text.chr 0; Text.chr 0; Text.chr 0] ++ rest
  \/ s_in st = frame JNull ++ rest ->
  command_step shared st = Closed (with_in st rest) None
  /\ (forall fuel, command_loop (S fuel) shared st = Some (disconnect (with_in st rest)))
  /\ handshake st = Refused (with_in st rest).
Proof.
  intros Hin.
  assert (Hr : Protocol.recv_message (s_in st) = (Protocol.RecvNone, rest)
               \/ Protocol.recv_message (s_in st) = (Protocol.RecvMsg JNull, rest)).
  { destruct Hin as [-> | ->].
    - left. unfold Protocol.recv_message, Protocol.HEADER_SIZE.
      pose proof (recv_exact_app [Text.chr 0; Text.chr 0; Text.chr 0; Text.chr 0] rest)
        as Hh.
      change (length [Text.chr 0; Text.chr 0; Text.chr 0; Text.chr 0]) with 4%nat in Hh.
      rewrite Hh.
      cbn [Protocol.falsy default from_option id].
      change (Z.to_nat (Protocol.unpack_u32 _)) with 0%nat.
      unfold Protocol.recv_exact. cbn [Nat.leb]. rewrite take_0, drop_0. reflexivity.
    - right. apply recv_message_frame; [exact I|vm_compute; eauto]. }
  assert (Hstep : command_step shared st = Closed (with_in st rest) None).
  { unfold command_step. destruct Hr as [-> | ->]; reflexivity. }
  split; [exact Hstep|]. split.
  - intros fuel. cbn [command_loop]. now rewrite Hstep.
  - unfold handshake. destruct Hr as [-> | ->]; reflexivity.
Qed.

Lemma empty_frame_ends_session_witness :
  command_loop 1 sample_root
    (connect ([Text.chr 0; Text.chr 0; Text.chr 0; Text.chr 0]
              ++ frame (JObj [("action", JStr "DELETE"); ("path", JStr "a.txt")]))
       sample_fs)
  = Some (disconnect
            (with_in (connect ([Text.chr 0; Text.chr 0; Text.chr 0; Text.chr 0]
                               ++ frame (JObj [("action", JStr "DELETE");
                                               ("path", JStr "a.txt")]))
                        sample_fs)
               (frame (JObj [("action", JStr "DELETE"); ("path", JStr "a.txt")])))).
Proof.
  apply (empty_frame_ends_session sample_root
           (connect ([Text.chr 0; Text.chr 0; Text.chr 0; Text.chr 0]
                     ++ frame (JObj [("action", JStr "DELETE"); ("path", JStr "a.txt")]))
              sample_fs)
           (frame (JObj [("action", JStr "DELETE"); ("path", JStr "a.txt")]))).
  left. reflexivity.
Defined.

(** X24. An upload that is cut short.  When the client announces more bytes
    than it sends before closing, the server has answered [ready] but
    nothing else: reading the content fails, the turn ends the session with
    [IncompleteReadError], no request reaches the write worker and the
    file system is as before. *)
Theorem upload_cut_short (shared : string) (st : session) (path : json) (size : Z)
  (rest : bytes) :
  let request := JObj [("action", JStr "UPLOAD"); ("path", path); ("size", JInt size)] in
  wf_json path ->
  is_Some (Protocol.send_message request) ->
  s_in st = frame request ++ rest ->
  Z.of_nat (length rest) < size ->
  exists st',
    command_step shared st
    = Closed st' (Some (Py.IncompleteReadError (Z.of_nat (length rest)) size))
    /\ s_out st' = s_out st ++ [OutMsg (JObj [("status", JStr "ready");
                                              ("action", JStr "UPLOAD")])]
    /\ s_fs st' = s_fs st
    /\ s_next st' = s_next st.
Proof.
  intros request Hwf Hfit Hin Hsz.
  unfold command_step. rewrite Hin, recv_message_frame; [| |exact Hfit].
  2:{ subst request. cbn. split; [|tauto].
      apply (bool_decide_unpack _). reflexivity. }
  subst request. unfold handle_command.
  change (Dict.get "action" _) with (Some (JStr "UPLOAD")). cbv iota.
  change (Text.upper "UPLOAD") with "UPLOAD".
  unfold run_command.
  change (String.eqb "UPLOAD" "LIST") with false.
  change (String.eqb "UPLOAD" "DOWNLOAD") with false.
  change (String.eqb "UPLOAD" "UPLOAD") with true. cbv iota.
  change (Dict.get "size" _) with (Some (JInt size)).
  cbn [default from_option id].
  unfold readexactly. cbn [write with_in s_in].
  destruct (Z.ltb_spec size 0) as [?|_]; [lia|].
  rewrite recv_exact_short by lia.
  eexists. split; [reflexivity|]. cbn. repeat split; reflexivity.
Qed.

Lemma upload_cut_short_witness :
  exists st',
    command_step sample_root
      (connect (frame (JObj [("action", JStr "UPLOAD"); ("path", JStr "x.bin");
                             ("size", JInt 10)]) ++ list_ascii_of_string "abc")
         sample_fs)
    = Closed st' (Some (Py.IncompleteReadError 3 10))
    /\ s_fs st' = sample_fs.
Proof.
  destruct (upload_cut_short sample_root
              (connect (frame (JObj [("action", JStr "UPLOAD"); ("path", JStr "x.bin");
                                     ("size", JInt 10)]) ++ list_ascii_of_string "abc")
                 sample_fs)
              (JStr "x.bin") 10 (list_ascii_of_string "abc"))
    as (st' & Hs & _ & Hf & _).
  - exact I.
  - vm_compute. eauto.
  - reflexivity.
  - vm_compute. reflexivity.
  - exists st'. split; [exact Hs|exact Hf].
Defined.



Lemma lower_char_twice (c : ascii) :
  Client.lower_char (Client.lower_char c) = Client.lower_char c.
Proof. destruct c as [[] [] [] [] [] [] [] []]; vm_compute; reflexivity. Qed.

Lemma lower_char_space (c : ascii) :
  Client.is_space (Client.lower_char c) = Client.is_space c.
Proof. destruct c as [[] [] [] [] [] [] [] []]; vm_compute; reflexivity. Qed.

Lemma lower_twice (s : string) : Client.lower (Client.lower s) = Client.lower s.
Proof.
  induction s as [|c s IH]; [reflexivity|].
  cbn [Client.lower]. now rewrite lower_char_twice, IH.
Qed.

Lemma lower_no_space (s : string) :
  Forall (fun c => Client.is_space c = false) (list_ascii_of_string s) ->
  Forall (fun c => Client.is_space c = false) (list_ascii_of_string (Client.lower s)).
Proof.
  induction s as [|c s IH]; intros H; [constructor|].
  cbn [Client.lower list_ascii_of_string] in *. apply Forall_cons in H as [Hc H].
  constructor; [now rewrite lower_char_space|now apply IH].
Qed.

Lemma command_word (dd : string) (cwd : list string) (st : Client.state)
  (word arg : string) :
  Forall (fun c => Client.is_space c = false) (list_ascii_of_string word) ->
  word <> "" ->
  Client.lstrip arg = arg ->
  Client.command dd cwd st (word +:+ " " +:+ arg)
  = Client.command dd cwd st (Client.lower word +:+ " " +:+ arg).
Proof.
  intros Hw Hne Ha. unfold Client.command.
  rewrite (split1_command word arg Hw Hne Ha).
  rewrite (split1_command (Client.lower word) arg); [| | |exact Ha].
  - now rewrite lower_twice.
  - now apply lower_no_space.
  - destruct word; [congruence|discriminate].
Qed.

(** X26. The command words of the client.  The first word of a line is
    taken without regard to case, and the short names stand for the long
    ones: [ls] for [list]; [dl], [copy], [cp] and [get] for [download];
    [up] and [put] for [upload]; [rm] for [delete]; [quit] for [exit].  A
    line with any of them does to the connection and to the local files
    what the same line with the long name in small letters does. *)
Theorem client_command_words (dd : string) (cwd : list string) (st : Client.state)
  (word arg : string) :
  Forall (fun c => Client.is_space c = false) (list_ascii_of_string word) ->
  word <> "" ->
  Client.lstrip arg = arg ->
  Client.command dd cwd st (word +:+ " " +:+ arg)
  = Client.command dd cwd st (long_name (Client.lower word) +:+ " " +:+ arg).
Proof.
  intros Hw Hne Ha.
  rewrite (command_word dd cwd st word arg Hw Hne Ha).
  assert (Hlw : Forall (fun c => Client.is_space c = false)
                  (list_ascii_of_string (Client.lower word))) by now apply lower_no_space.
  assert (Hlne : Client.lower word <> "") by (destruct word; [congruence|discriminate]).
  assert (Hll := lower_twice word).
  unfold long_name.
  set (w := Client.lower word) in *. clearbody w. clear Hw Hne word.
  assert (Hcase : forall name long,
            w = name -> Client.lower name = name -> Client.lower long = long ->
            Forall (fun c => Client.is_space c = false) (list_ascii_of_string long) ->
            long <> "" ->
            (String.eqb name "list" || String.eqb name "ls")
            = (String.eqb long "list" || String.eqb long "ls") ->
            (String.eqb name "download" || String.eqb name "dl" || String.eqb name "copy"
             || String.eqb name "cp" || String.eqb name "get")
            = (String.eqb long "download" || String.eqb long "dl" || String.eqb long "copy"
               || String.eqb long "cp" || String.eqb long "get") ->
            (String.eqb name "upload" || String.eqb name "up" || String.eqb name "put")
            = (String.eqb long "upload" || String.eqb long "up" || String.eqb long "put") ->
            (String.eqb name "delete" || String.eqb name "rm")
            = (String.eqb long "delete" || String.eqb long "rm") ->
            String.eqb name "cut" = String.eqb long "cut" ->
            String.eqb name "help" = String.eqb long "help" ->
            (String.eqb name "exit" || String.eqb name "quit")
            = (String.eqb long "exit" || String.eqb long "quit") ->
            Client.command dd cwd st (w +:+ " " +:+ arg)
            = Client.command dd cwd st (long +:+ " " +:+ arg)).
  { intros name long -> Hn Hl Hsp Hlne' E1 E2 E3 E4 E5 E6 E7.
    unfold Client.command.
    rewrite (split1_command name arg Hlw Hlne Ha), (split1_command long arg Hsp Hlne' Ha).
    rewrite Hn, Hl, E1, E2, E3, E4, E5, E6, E7. reflexivity. }
  destruct (String.eqb_spec w "ls") as [E|_].
  { apply (Hcase "ls" "list" E); try reflexivity; [repeat constructor|discriminate]. }
  destruct (String.eqb_spec w "dl") as [E|_].
  { apply (Hcase "dl" "download" E); try reflexivity; [repeat constructor|discriminate]. }
  destruct (String.eqb_spec w "copy") as [E|_].
  { apply (Hcase "copy" "download" E); try reflexivity; [repeat constructor|discriminate]. }
  destruct (String.eqb_spec w "cp") as [E|_].
  { apply (Hcase "cp" "download" E); try reflexivity; [repeat constructor|discriminate]. }
  destruct (String.eqb_spec w "get") as [E|_].
  { apply (Hcase "get" "download" E); try reflexivity; [repeat constructor|discriminate]. }
  cbn [orb].
  destruct (String.eqb_spec w "up") as [E|_].
  { apply (Hcase "up" "upload" E); try reflexivity; [repeat constructor|discriminate]. }
  destruct (String.eqb_spec w "put") as [E|_].
  { apply (Hcase "put" "upload" E); try reflexivity; [repeat constructor|discriminate]. }
  cbn [orb].
  destruct (String.eqb_spec w "rm") as [E|_].
  { apply (Hcase "rm" "delete" E); try reflexivity; [repeat constructor|discriminate]. }
  destruct (String.eqb_spec w "quit") as [E|_].
  { apply (Hcase "quit" "exit" E); try reflexivity; [repeat constructor|discriminate]. }
  reflexivity.
Qed.

Lemma client_command_words_witness :
  Client.command "/home/u/Downloads" ["home"; "u"]
    {| Client.c_in := []; Client.c_sent := []; Client.c_fs := sample_fs |}
    ("RM" +:+ " " +:+ "a.txt")
  = Client.command "/home/u/Downloads" ["home"; "u"]
      {| Client.c_in := []; Client.c_sent := []; Client.c_fs := sample_fs |}
      ("delete" +:+ " " +:+ "a.txt").
Proof.
  apply (client_command_words "/home/u/Downloads" ["home"; "u"]
           {| Client.c_in := []; Client.c_sent := []; Client.c_fs := sample_fs |}
           "RM" "a.txt").
  - repeat constructor.
  - discriminate.
  - reflexivity.
Defined.
